(** * Follicle joint tool: a shallow embedding of the rigging engine and of
    the panel's reversible-call wrapper, with the properties checked
    against it.

    Source files: [follicleJntsTool/follicleJnts.py] (engine) and
    [follicleJntsTool/follicleJnts_UI.py] (panel).

    Conventions of the embedding:
    - Python [str] values are [string]s; a character is an [ascii].
    - Python floats are idealised as rationals ([Q]); a float division is
      written [py_div], which raises [ZeroDivisionError] on a zero divisor.
    - a raised exception is the [Raise] branch of [result]; statements that
      can [return] from inside [try]/[finally] use the [completion] type.
    - the host scene is a finite map from (node, attribute) to a cell that
      holds the attribute's current value and whether it is free to change
      (neither locked nor driven by a connection); connections are
      recorded, not evaluated: a driven attribute holds the value the
      scene gives it. Where the order of reads and writes matters, a
      write is followed by the host's re-evaluation (module [Live]). *)

From Stdlib Require Import ZArith QArith Ascii String List Bool Lia.
From Stdlib Require Import Numbers.DecimalString.
From Stdlib Require Numbers.DecimalZ.
From stdpp Require Import base option list gmap strings.

Import ListNotations.
Local Open Scope string_scope.
Local Open Scope list_scope.

(** ** Python values and exceptions *)

Module Py.

(** The exception classes the modelled code raises or meets. *)
Inductive exc_class :=
| StandardError
| TypeError
| ValueError
| AssertionError
| AttributeError
| NameError
| IndexError
| KeyError
| RuntimeError
| ZeroDivisionError
| KeyboardInterrupt.

(** [issubclass(cls, Exception)]: everything above but
    [KeyboardInterrupt], which derives from [BaseException] only. *)
Definition is_Exception (c : exc_class) : bool :=
  match c with
  | KeyboardInterrupt => false
  | _ => true
  end.

Definition class_name (c : exc_class) : string :=
  match c with
  | StandardError => "StandardError"
  | TypeError => "TypeError"
  | ValueError => "ValueError"
  | AssertionError => "AssertionError"
  | AttributeError => "AttributeError"
  | NameError => "NameError"
  | IndexError => "IndexError"
  | KeyError => "KeyError"
  | RuntimeError => "RuntimeError"
  | ZeroDivisionError => "ZeroDivisionError"
  | KeyboardInterrupt => "KeyboardInterrupt"
  end.

(** A Python value, as far as the wrapper's arguments and an exception's
    [args] tuple need it. *)
Inductive val :=
| VNone
| VBool (b : bool)
| VInt (z : Z)
| VStr (s : string).

Record exn := Exn { exn_class : exc_class; exn_args : list val }.

(** An exception raised with one message string. *)
Definition error (c : exc_class) (msg : string) : exn := Exn c [VStr msg].

Inductive result (A : Type) :=
| Ok (a : A)
| Raise (e : exn).
Arguments Ok {A} a.
Arguments Raise {A} e.

Definition bind {A B} (r : result A) (k : A -> result B) : result B :=
  match r with
  | Ok a => k a
  | Raise e => Raise e
  end.

Definition raised {A} (r : result A) (c : exc_class) : Prop :=
  exists args, r = Raise (Exn c args).

(** Truthiness of a string: [if s:] *)
Definition truthy (s : string) : bool :=
  match s with
  | EmptyString => false
  | String _ _ => true
  end.

(** [sub in s] for strings: substring test. *)
Fixpoint contains (sub s : string) : bool :=
  String.prefix sub s ||
  match s with
  | EmptyString => false
  | String _ s' => contains sub s'
  end.

(** [c in s] for a character [c]. *)
Fixpoint char_in (c : ascii) (s : string) : bool :=
  match s with
  | EmptyString => false
  | String d s' => Ascii.eqb c d || char_in c s'
  end.

(** [s.partition(sep)[0]]: the text before the first occurrence of a
    non-empty [sep], or all of [s] when [sep] does not occur. *)
Fixpoint partition_head (sep s : string) : string :=
  if String.prefix sep s then EmptyString
  else match s with
       | EmptyString => EmptyString
       | String c s' => String c (partition_head sep s')
       end.

(** [s[-1]] as a one-character string; [IndexError] on the empty string. *)
Fixpoint last_char (s : string) : result string :=
  match s with
  | EmptyString => Raise (error IndexError "string index out of range")
  | String c EmptyString => Ok (String c EmptyString)
  | String _ s' => last_char s'
  end.

(** [x in l] for a list of strings. *)
Definition in_list (x : string) (l : list string) : bool :=
  existsb (String.eqb x) l.

End Py.

Notation "'let*' x ':=' r 'in' k" := (Py.bind r (fun x => k))
  (at level 10, x name, r at level 100, k at level 200).

(** ** The type descriptor, [class FolJntType] *)

Module FolJntType.
Import Py.

(** [_typeNames]: the four canonical type strings and their names. *)
Definition _typeNames : list (string * string) :=
  [ ("t/f", "defaultFollicle");
    ("t/f-j", "follicleJointStandard");
    ("t-j/f", "follicleJointReverse");
    ("j/f", "follicleJoint") ].

(** [validTypes = _typeNames.keys()] *)
Definition validTypes : list string := map fst _typeNames.

(** The instance attributes [_typeString] and [controlNode]. *)
Record t := Mk { _typeString : option string; controlNode : option string }.

(** The [typeString] property: the stored string when it is set and
    non-empty, [AttributeError] otherwise. *)
Definition typeString (d : t) : result string :=
  match _typeString d with
  | Some s => if truthy s then Ok s
              else Raise (error AttributeError "typeString value has not been assigned!")
  | None => Raise (error AttributeError "typeString value has not been assigned!")
  end.

Definition hasTransform (d : t) : result bool :=
  let* s := typeString d in Ok (contains "t" s).

Definition hasJoint (d : t) : result bool :=
  let* s := typeString d in Ok (contains "j" s).

Definition topTransform (d : t) : result string :=
  let* ht := hasTransform d in
  if ht then Ok "t"
  else let* hj := hasJoint d in
       if hj then Ok "j"
       else Raise (error AttributeError "Error identifying top transform!").

Definition follicleParent (d : t) : result string :=
  let* s := typeString d in last_char (partition_head "/f" s).

(** [set]: the assertion, the assignment, then the default control node. *)
Definition set (d : t) (ts : string) : result t :=
  if in_list ts validTypes then
    let d1 := Mk (Some ts) (controlNode d) in
    let* hj := hasJoint d1 in
    Ok (Mk (Some ts) (Some (if hj then "j" else "f")))
  else Raise (error AssertionError "not a valid follicle joint type string!").

(** [__init__(self, typeString=None)]: [set] runs only for a truthy
    argument. *)
Definition init (ts : option string) : result t :=
  let d := Mk None None in
  match ts with
  | Some s => if truthy s then set d s else Ok d
  | None => Ok d
  end.

(** The row of the type table a descriptor presents. *)
Record row := Row {
  r_hasTransform : bool; r_hasJoint : bool; r_topTransform : string;
  r_follicleParent : string; r_controlNode : string }.

Definition row_of (d : t) : result row :=
  let* ht := hasTransform d in
  let* hj := hasJoint d in
  let* tt := topTransform d in
  let* fp := follicleParent d in
  match controlNode d with
  | Some c => Ok (Row ht hj tt fp c)
  | None => Raise (error AttributeError "controlNode")
  end.

Definition describe (ts : string) : result row :=
  let* d := init (Some ts) in row_of d.

End FolJntType.

(** ** Naming utilities *)

Module Names.
Import Py.

(** [string.digits] *)
Definition digits : string := "0123456789".

(** The characters a number is made of: the alternate set when one is
    given (and truthy), the decimal digits otherwise. *)
Definition findChars (alternateFindChar : option string) : string :=
  match alternateFindChar with
  | Some a => if truthy a then a else digits
  | None => digits
  end.

(** The loop variables of [splitNumberedName]: the index [i] into
    [splitStrs], the flag [digitLast], and the list [splitStrs]. *)
Record split_state := SplitState {
  ss_i : nat; ss_digitLast : bool; ss_strs : list string }.

Definition split_init : split_state := SplitState 2 false [""; ""; ""].

(** One iteration of [for c in reversed(name)]. *)
Definition split_step (fc : string) (st : split_state) (c : ascii) : split_state :=
  let '(i, dl) :=
    if (0 <? ss_i st)%nat then
      if char_in c fc then
        ((if ss_digitLast st then ss_i st else ss_i st - 1)%nat, true)
      else
        ((if ss_digitLast st then ss_i st - 1 else ss_i st)%nat, false)
    else (ss_i st, ss_digitLast st) in
  SplitState i dl
    (<[i := String c (default "" (ss_strs st !! i))]> (ss_strs st)).

Definition split_loop (fc : string) (name : string) : split_state :=
  fold_left (split_step fc) (rev (list_ascii_of_string name)) split_init.

(** [splitNumberedName(name, alternateFindChar=None)] *)
Definition splitNumberedName (name : string) (alternateFindChar : option string)
  : list string :=
  let st := split_loop (findChars alternateFindChar) name in
  if truthy (default "" (ss_strs st !! 1%nat)) then ss_strs st
  else [name; ""; ""].

(** The [num] argument of [joinNumberedName]: an integer or a string. *)
Inductive num_arg :=
| NInt (z : Z)
| NStr (s : string).

Definition is_space (c : ascii) : bool :=
  let n := nat_of_ascii c in
  ((n =? 32) || ((9 <=? n) && (n <=? 13)))%nat.

Definition is_digit (c : ascii) : bool :=
  let n := nat_of_ascii c in ((48 <=? n) && (n <=? 57))%nat.

Fixpoint lstrip (l : list ascii) : list ascii :=
  match l with
  | c :: l' => if is_space c then lstrip l' else l
  | [] => []
  end.

Definition strip (l : list ascii) : list ascii := rev (lstrip (rev (lstrip l))).

Definition digits_value (l : list ascii) : Z :=
  fold_left (fun acc c => 10 * acc + Z.of_nat (nat_of_ascii c - 48))%Z l 0%Z.

(** [int(s)] for a string: surrounding white space, an optional sign,
    then one or more decimal digits; [ValueError] otherwise. *)
Definition py_int (s : string) : result Z :=
  let bad := Raise (error ValueError "invalid literal for int() with base 10") in
  let body (sign : Z) (ds : list ascii) :=
    match ds with
    | [] => bad
    | _ => if forallb is_digit ds then Ok (sign * digits_value ds)%Z else bad
    end in
  match strip (list_ascii_of_string s) with
  | "-"%char :: ds => body (-1)%Z ds
  | "+"%char :: ds => body 1%Z ds
  | ds => body 1%Z ds
  end.

(** [str(z)] for an integer. *)
Definition py_str (z : Z) : string := NilZero.string_of_int (Z.to_int z).

Fixpoint repeat_char (c : ascii) (n : nat) : string :=
  match n with
  | O => ""
  | S n' => String c (repeat_char c n')
  end.

(** ["{num:0>{pad}}".format(num=z, pad=pad)]: right-aligned in a field
    of width [pad], filled with zeros. *)
Definition zero_pad (z : Z) (pad : nat) : string :=
  let s := py_str z in
  repeat_char "0" (pad - String.length s) ++ s.

(** [s.replace('#', by)] *)
Fixpoint replace_hash (s by_ : string) : string :=
  match s with
  | EmptyString => EmptyString
  | String c s' =>
      if Ascii.eqb c "#" then by_ ++ replace_hash s' by_
      else String c (replace_hash s' by_)
  end.

(** A [nameFormat] string over the fields [{pre}], [{num}] and [{suf}],
    kept in parsed form: literal text and replacement fields. *)
Inductive piece :=
| Lit (s : string)
| Pre
| Num
| Suf.

(** [renameFormats] of [FolJntType]. *)
Definition format_main : list piece := [Pre; Num; Suf].
Definition format_j : list piece := [Pre; Lit "_J_"; Num; Suf].

(** [nameFormat.format(pre=pre, num=num, suf=suf)] *)
Fixpoint format (f : list piece) (pre num suf : string) : string :=
  match f with
  | [] => ""
  | Lit s :: f' => s ++ format f' pre num suf
  | Pre :: f' => pre ++ format f' pre num suf
  | Num :: f' => num ++ format f' pre num suf
  | Suf :: f' => suf ++ format f' pre num suf
  end.

(** The first part of [joinNumberedName]: the number as text. *)
Definition numStr (num : option num_arg) (numPadding : nat) : result string :=
  match num with
  | None => Ok ""
  | Some (NStr s) =>
      if truthy s then let* z := py_int s in Ok (zero_pad z numPadding)
      else Ok ""
  | Some (NInt z) => Ok (zero_pad z numPadding)
  end.

(** [joinNumberedName(prefix, num, suffix, numPadding, nameFormat, nameDef)] *)
Definition joinNumberedName (prefix : option string) (num : option num_arg)
    (suffix : option string) (numPadding : nat)
    (nameFormat : list piece) (nameDef : option string) : result string :=
  let* ns := numStr num numPadding in
  if truthy (default "" nameDef) then
    let nd := default "" nameDef in
    if negb (char_in "#" nd) then
      Raise (error TypeError "A nameTemplate must contain a # symbol for the number!")
    else Ok (replace_hash nd ns)
  else
    Ok (format nameFormat (default "" prefix) ns (default "" suffix)).

(** The characters of a string, and the test [c in findChars]. *)
Definition chars (s : string) : list ascii := list_ascii_of_string s.
Definition number_char (fc : string) (c : ascii) : bool := char_in c fc.

(** [(p, n, s)] cuts [name] at its last run of number characters: [n]
    is a non-empty run of number characters, no number character
    follows it, and the character before it, if any, is not one. *)
Definition last_run_split (fc name p n s : string) : Prop :=
  name = (p ++ n ++ s)%string /\
  n <> "" /\
  forallb (number_char fc) (chars n) = true /\
  forallb (fun c => negb (number_char fc c)) (chars s) = true /\
  (p = "" \/
   exists p' c, p = (p' ++ String c "")%string /\ number_char fc c = false).

(** What holds of the loop variables of [splitNumberedName] once the
    characters [done] (the end of the name) have been read. *)
Definition split_inv (fc : string) (st : split_state) (done : list ascii) : Prop :=
  exists p n s,
    ss_strs st = [p; n; s] /\
    chars p ++ chars n ++ chars s = done /\
    forallb (number_char fc) (chars n) = true /\
    forallb (fun c => negb (number_char fc c)) (chars s) = true /\
    ((ss_i st = 2%nat /\ ss_digitLast st = false /\ p = "" /\ n = "") \/
     (ss_i st = 1%nat /\ ss_digitLast st = true /\ p = "" /\ n <> "") \/
     (ss_i st = 0%nat /\ ss_digitLast st = false /\ n <> "" /\
      exists p' c, p = (p' ++ String c "")%string /\ number_char fc c = false)).

(** The value of a decimal numeral, its digits read from the left on
    top of [acc]: what [digits_value] computes on the numeral's text. *)
Fixpoint uint_value (d : Decimal.uint) (acc : Z) : Z :=
  match d with
  | Decimal.Nil => acc
  | Decimal.D0 d => uint_value d (10 * acc)
  | Decimal.D1 d => uint_value d (10 * acc + 1)
  | Decimal.D2 d => uint_value d (10 * acc + 2)
  | Decimal.D3 d => uint_value d (10 * acc + 3)
  | Decimal.D4 d => uint_value d (10 * acc + 4)
  | Decimal.D5 d => uint_value d (10 * acc + 5)
  | Decimal.D6 d => uint_value d (10 * acc + 6)
  | Decimal.D7 d => uint_value d (10 * acc + 7)
  | Decimal.D8 d => uint_value d (10 * acc + 8)
  | Decimal.D9 d => uint_value d (10 * acc + 9)
  end%Z.

(** A string made of decimal digits only. *)
Definition all_digits (s : string) : bool := forallb is_digit (chars s).

(** A string without any decimal digit. *)
Definition no_digit (s : string) : bool := forallb (fun c => negb (is_digit c)) (chars s).

(** A string without ['#']. *)
Definition no_hash (s : string) : bool := negb (char_in "#" s).

(** No number is given: [None] or the empty string. *)
Definition no_number (num : option num_arg) : Prop :=
  num = None \/ num = Some (NStr "").

(** A template with its placeholders taken out. *)
Fixpoint remove_hash (s : string) : string :=
  match s with
  | EmptyString => EmptyString
  | String c s' =>
      if Ascii.eqb c "#" then remove_hash s' else String c (remove_hash s')
  end.

(** A format with its number field taken out. *)
Fixpoint drop_num (f : list piece) : list piece :=
  match f with
  | [] => []
  | Num :: f' => drop_num f'
  | x :: f' => x :: drop_num f'
  end.

(** The error of a template without placeholder. *)
Definition no_placeholder : exn :=
  error TypeError "A nameTemplate must contain a # symbol for the number!".

End Names.

(** ** Surface utilities *)

Module Surface.
Import Py.

(** A candidate patch: a NURBS surface with its parameter range
    ([minValueU], [maxValueU], [minValueV], [maxValueV]), a polygon
    mesh, or a node of another type. *)
Inductive patch :=
| NurbsSurface (minU maxU minV maxV : Q)
| Mesh
| OtherNode.

(** A float division. *)
Definition py_div (x y : Q) : result Q :=
  if Qeq_bool y 0 then Raise (error ZeroDivisionError "float division by zero")
  else Ok (x / y)%Q.

(** [l[i]] for reading. *)
Definition index {A} (l : list A) (i : nat) : result A :=
  match l !! i with
  | Some a => Ok a
  | None => Raise (error IndexError "list index out of range")
  end.

(** [normalisedNurbsUV(patch, uv, giveWarning, warningOnly)].
    [giveWarning] only selects what is printed. *)
Definition normalisedNurbsUV (p : patch) (uv : list Q)
    (giveWarning warningOnly : bool) : result (list Q) :=
  match p with
  | NurbsSurface minU maxU minV maxV =>
      let finalUV := uv in
      if negb (Qeq_bool minU 0 && Qeq_bool maxU 1 &&
               Qeq_bool minV 0 && Qeq_bool maxV 1) then
        if negb warningOnly then
          let uLength := (maxU - minU)%Q in
          let vLength := (maxV - minV)%Q in
          let* u := index uv 0 in
          let* nu := py_div u uLength in
          let finalUV := <[0%nat := (nu + minU)%Q]> finalUV in
          let* v := index uv 1 in
          let* nv := py_div v vLength in
          let finalUV := <[1%nat := (nv + minV)%Q]> finalUV in
          Ok finalUV
        else Ok finalUV
      else Ok finalUV
  | _ => Raise (error StandardError "Patch must be a nurbSurface shape PyNode!")
  end.

(** A parameter range that is exactly [0,1] on both axes: the test of
    [normalisedNurbsUV], as a proposition. *)
Definition unit_range (minU maxU minV maxV : Q) : Prop :=
  minU == 0 /\ maxU == 1 /\ minV == 0 /\ maxV == 1.

End Surface.

(** ** Grid placement, [newFollicleGrid] *)

Module Grid.
Import Py Surface.

(** A created unit, by the base parameters [new] writes to its control
    node: [paramObj.parameterU.set(self.uv[0])] and the same for V. *)
Definition unit_uv : Type := Q * Q.

(** The part of [FollicleJoint.new] the grid depends on: the patch is
    given, [self.uv = list(uv)] copies the caller's list, a NURBS patch
    sends it through [normalisedNurbsUV] (the grid passes
    [normaliseUV=False], so [warningOnly] is true), and the unit is
    created at [self.uv]. The scene is the list of units created so
    far. *)
Definition new (p : patch) (uv : list Q) (scene : list unit_uv)
  : result unit_uv * list unit_uv :=
  let self_uv :=
    match p with
    | NurbsSurface _ _ _ _ => normalisedNurbsUV p uv false true
    | _ => Ok uv
    end in
  match (let* l := self_uv in
         let* u := index l 0 in
         let* v := index l 1 in Ok (u, v)) with
  | Ok un => (Ok un, scene ++ [un])
  | Raise e => (Raise e, scene)
  end.

(** The check at the top: [uvRows[i]-edgeBounded[i] == 0] for i in 0, 1. *)
Fixpoint check_rows (uvRows edgeBounded : list Z) (ixs : list nat) : result unit :=
  match ixs with
  | [] => Ok tt
  | i :: ixs' =>
      let* r := index uvRows i in
      let* e := index edgeBounded i in
      if (r - e =? 0)%Z
      then Raise (error StandardError "Minimum 2 rows for edge-bounded rows!")
      else check_rows uvRows edgeBounded ixs'
  end.

Definition uvRangeDefault : list (option Q) := [Some 0; Some 1; Some 0; Some 1]%Q.

(** [for i in range(4): if uvRange[i] is None: uvRange[i] = uvRangeDefault[i]] *)
Fixpoint fill_range (uvRange : list (option Q)) (ixs : list nat)
  : result (list (option Q)) :=
  match ixs with
  | [] => Ok uvRange
  | i :: ixs' =>
      let* x := index uvRange i in
      match x with
      | None =>
          let* d := index uvRangeDefault i in
          fill_range (<[i := d]> uvRange) ixs'
      | Some _ => fill_range uvRange ixs'
      end
  end.

(** [None in uvRange] *)
Definition has_None (uvRange : list (option Q)) : bool :=
  existsb (fun x => match x with None => true | Some _ => false end) uvRange.

(** Reading [uvRange[i]] as a number. *)
Definition range_at (uvRange : list (option Q)) (i : nat) : result Q :=
  let* x := index uvRange i in
  match x with
  | Some q => Ok q
  | None => Raise (error TypeError "unsupported operand type(s): 'NoneType'")
  end.

(** [range(n)] *)
Definition range (n : Z) : list Z := map Z.of_nat (seq 0 (Z.to_nat n)).

(** [(float(i)+(1-edgeBounded[k])/2.0)/(uvRows[k]-edgeBounded[k])] *)
Definition norm (i rows eb : Z) : result Q :=
  py_div (inject_Z i + inject_Z (1 - eb) / 2)%Q (inject_Z (rows - eb)).

(** The loop state: the shared list [uv], the list [newFols], and the
    scene. *)
Record loop_state := LoopState {
  ls_uv : list Q; ls_newFols : list unit_uv; ls_scene : list unit_uv }.

(** The inner loop, [for j in range(uvRows[1])]. *)
Fixpoint loop_v (p : patch) (rows1 eb1 : Z) (uvRange : list (option Q))
    (js : list Z) (st : loop_state) : result unit * loop_state :=
  match js with
  | [] => (Ok tt, st)
  | j :: js' =>
      match (let* normV := norm j rows1 eb1 in
             let* lo := range_at uvRange 2 in
             let* hi := range_at uvRange 3 in
             Ok (lo + normV * (hi - lo))%Q) with
      | Raise e => (Raise e, st)
      | Ok v =>
          let uv := <[1%nat := v]> (ls_uv st) in
          match new p uv (ls_scene st) with
          | (Raise e, sc) => (Raise e, LoopState uv (ls_newFols st) sc)
          | (Ok un, sc) =>
              loop_v p rows1 eb1 uvRange js'
                (LoopState uv (ls_newFols st ++ [un]) sc)
          end
      end
  end.

(** The outer loop, [for i in range(uvRows[0])]. *)
Fixpoint loop_u (p : patch) (rows0 eb0 rows1 eb1 : Z) (uvRange : list (option Q))
    (ixs : list Z) (st : loop_state) : result unit * loop_state :=
  match ixs with
  | [] => (Ok tt, st)
  | i :: ixs' =>
      match (let* normU := norm i rows0 eb0 in
             let* lo := range_at uvRange 0 in
             let* hi := range_at uvRange 1 in
             Ok (lo + normU * (hi - lo))%Q) with
      | Raise e => (Raise e, st)
      | Ok u =>
          let st1 := LoopState (<[0%nat := u]> (ls_uv st)) (ls_newFols st) (ls_scene st) in
          match loop_v p rows1 eb1 uvRange (range rows1) st1 with
          | (Raise e, st2) => (Raise e, st2)
          | (Ok _, st2) => loop_u p rows0 eb0 rows1 eb1 uvRange ixs' st2
          end
      end
  end.

(** [newFollicleGrid(patch, name, selectNew, uvRows, edgeBounded, uvRange, ...)].
    [found] is what [cq.filterSelectionForShapeType(patch, ...)[0]] yields
    for the [patch] argument; the result is [newFols] together with the
    scene after the call. *)
Definition newFollicleGrid (found : result patch)
    (uvRows edgeBounded : list Z) (uvRange : list (option Q))
    (scene : list unit_uv) : result (list unit_uv) * list unit_uv :=
  match (let* _ := check_rows uvRows edgeBounded [0; 1]%nat in
         let* p := found in
         let* uvRange :=
           (if has_None uvRange then fill_range uvRange [0; 1; 2; 3]%nat
            else Ok uvRange) in
         let* rows0 := index uvRows 0 in
         let* eb0 := index edgeBounded 0 in
         let* rows1 := index uvRows 1 in
         let* eb1 := index edgeBounded 1 in
         Ok (p, uvRange, rows0, eb0, rows1, eb1)) with
  | Raise e => (Raise e, scene)
  | Ok (p, uvRange, rows0, eb0, rows1, eb1) =>
      match loop_u p rows0 eb0 rows1 eb1 uvRange (range rows0)
              (LoopState [0; 0]%Q [] scene) with
      | (Raise e, st) => (Raise e, ls_scene st)
      | (Ok _, st) => (Ok (ls_newFols st), ls_scene st)
      end
  end.

(** Two units at the same place, the rationals compared by value. *)
Definition uv_eq (a b : unit_uv) : Prop := fst a == fst b /\ snd a == snd b.

(** The message of the row check. *)
Definition too_few_rows : exn :=
  error StandardError "Minimum 2 rows for edge-bounded rows!".

(** The parameter of row [i] on an axis of [rows] rows with edge flag
    [eb] over the range from [lo] to [hi]. *)
Definition row_param (i rows eb : Z) (lo hi : Q) : Q :=
  (lo + (inject_Z i + inject_Z (1 - eb) / 2) / inject_Z (rows - eb) * (hi - lo))%Q.

(** The units of u row [i]: one for each v row. *)
Definition u_row (rows0 eb0 rows1 eb1 : Z) (lo0 hi0 lo1 hi1 : Q) (i : Z)
  : list unit_uv :=
  map (fun j => (row_param i rows0 eb0 lo0 hi0, row_param j rows1 eb1 lo1 hi1))
      (range rows1).

(** The grid as a product: every u row paired with every v row, the v
    rows running fastest. *)
Definition grid_points (rows0 eb0 rows1 eb1 : Z) (lo0 hi0 lo1 hi1 : Q)
  : list unit_uv :=
  flat_map (u_row rows0 eb0 rows1 eb1 lo0 hi0 lo1 hi1) (range rows0).

End Grid.

(** ** The host scene and the rigging-unit aggregate *)

Module Scene.
Import Py.

(** An attribute is addressed by its node's name and its short name. *)
Definition attr : Type := string * string.

(** What the host holds for an attribute: its current value, and whether
    it is free to change ([isFreeToChange]: neither locked nor the
    destination of a connection). *)
Record cell := Cell { c_value : Q; c_free : bool }.

(** The scene: the attributes, and the connections as
    (source, destination) pairs. *)
Record world := World {
  w_attrs : gmap (string * string) cell;
  w_conns : list (attr * attr) }.

(** Code that reads and writes the scene and may raise. *)
Definition M (A : Type) : Type := world -> result A * world.

Definition ret {A} (a : A) : M A := fun w => (Ok a, w).
Definition raise {A} (e : exn) : M A := fun w => (Raise e, w).
Definition lift {A} (r : result A) : M A := fun w => (r, w).
Definition mbind {A B} (m : M A) (k : A -> M B) : M B :=
  fun w => match m w with
           | (Ok a, w') => k a w'
           | (Raise e, w') => (Raise e, w')
           end.

(** [try: body / except <classes>: handler / else: orelse] *)
Definition try_except_else {A B} (body : M A) (catches : exc_class -> bool)
    (handler : exn -> M B) (orelse : A -> M B) : M B :=
  fun w => match body w with
           | (Ok a, w') => orelse a w'
           | (Raise e, w') =>
               if catches (exn_class e) then handler e w'
               else (Raise e, w')
           end.

(** Code that only reads the scene. *)
Definition reads {A} (m : M A) : Prop := forall w, snd (m w) = w.

End Scene.

Notation "'let!' x ':=' m 'in' k" := (Scene.mbind m (fun x => k))
  (at level 10, x name, m at level 100, k at level 200).

Module Host.
Import Py Scene.

(** [pm.attributeQuery(a, n=node, ex=1)] *)
Definition attributeQuery (w : world) (n a : string) : bool :=
  bool_decide (is_Some (w_attrs w !! (n, a))).

(** [node.a]: the attribute object; [AttributeError] when the node is
    [None] or has no such attribute. *)
Definition attr_of (n : option string) (a : string) : M attr :=
  fun w =>
    match n with
    | None => (Raise (error AttributeError "'NoneType' object has no attribute"), w)
    | Some n =>
        if attributeQuery w n a then (Ok (n, a), w)
        else (Raise (error AttributeError "node has no such attribute"), w)
    end.

(** [attr.get()] *)
Definition getAttr (a : attr) : M Q :=
  fun w =>
    match w_attrs w !! a with
    | Some c => (Ok (c_value c), w)
    | None => (Raise (error AttributeError "node has no such attribute"), w)
    end.

(** [attr.isFreeToChange()], as a truth value. *)
Definition isFreeToChange (a : attr) : M bool :=
  fun w =>
    match w_attrs w !! a with
    | Some c => (Ok (c_free c), w)
    | None => (Raise (error AttributeError "node has no such attribute"), w)
    end.

(** [attr.set(v)]: the host refuses with [RuntimeError] when the
    attribute is locked or connected. The write changes the stored cell
    and nothing else; [Live.setAttr] is the same call on a host that
    re-evaluates the connected attributes after it. *)
Definition setAttr (a : attr) (v : Q) : M unit :=
  fun w =>
    match w_attrs w !! a with
    | Some c =>
        if c_free c
        then (Ok tt, World (<[a := Cell v true]> (w_attrs w)) (w_conns w))
        else (Raise (error RuntimeError
                "setAttr: The attribute is locked or connected and cannot be modified."), w)
    | None => (Raise (error AttributeError "node has no such attribute"), w)
    end.

(** What separates [w'] from [w] when only attributes that are free to
    change were written: the connections are the same, and an attribute
    either is as it was or was free, is still free and has a new value. *)
Definition writes_free_only (w w' : world) : Prop :=
  w_conns w' = w_conns w /\
  forall a, w_attrs w' !! a = w_attrs w !! a \/
            exists c c', w_attrs w !! a = Some c /\ c_free c = true /\
                         w_attrs w' !! a = Some c' /\ c_free c' = true.

(** Code whose every run writes free attributes only. *)
Definition keeps {A} (m : M A) : Prop := forall w, writes_free_only w (snd (m w)).

Definition attr_eqb (a b : attr) : bool :=
  String.eqb (fst a) (fst b) && String.eqb (snd a) (snd b).

(** [pm.connectAttr(src, dst, f=1)]: a connection into [dst] replaces
    the one there. *)
Definition connectAttr_f (src dst : attr) : M unit :=
  fun w =>
    (Ok tt, World (w_attrs w)
              (List.filter (fun c => negb (attr_eqb (snd c) dst)) (w_conns w)
               ++ [(src, dst)])).

(** [attr.inputs()]: the source nodes of the connections into [dst]. *)
Definition inputs (w : world) (dst : attr) : list string :=
  map (fun c => fst (fst c)) (List.filter (fun c => attr_eqb (snd c) dst) (w_conns w)).

End Host.

(** ** [class FollicleJoint] *)

Module FollicleJoint.
Import Py Scene Host.

(** The aggregate: the three node fields and the type descriptor, with
    what the two host look-ups [_driverRatioNodes] and [_linkRatioAttrs]
    yield for the unit (the scale nodes between offset and parameter,
    per axis; the ratio attributes of the links from driver units, per
    axis). The caches [_controlObj], [_side] and [_patch] are left out:
    each property is computed at its use, as the code does on a unit
    whose caches are still empty. *)
Record t := Mk {
  fol : option string;
  xfm : option string;
  jnt : option string;
  type_ : option FolJntType.t;
  _driverRatioNodes : option (option string * option string);
  _linkRatioAttrs : option (list attr * list attr) }.

Definition _sideChars : list string := ["l"; "r"; "m"].

(** [controlObj]: the node the type's control-node tag selects. *)
Definition controlObj (self : t) : result (option string) :=
  match type_ self with
  | Some ty =>
      match FolJntType.controlNode ty with
      | Some c =>
          if truthy c then
            if String.eqb c "f" then Ok (fol self)
            else if String.eqb c "t" then Ok (xfm self)
            else if String.eqb c "j" then Ok (jnt self)
            else Raise (error KeyError c)
          else Ok None
      | None => Ok None
      end
  | None => Ok None
  end.

(** [nameObj]: the transform when the type has one, else the joint. *)
Definition nameObj (self : t) : result (option string) :=
  match type_ self with
  | None => Ok None
  | Some ty =>
      let* tt := FolJntType.topTransform ty in
      if String.eqb tt "t" then Ok (xfm self) else Ok (jnt self)
  end.

(** [name]: a node's name is the string that identifies it. *)
Definition name (self : t) : result (option string) := nameObj self.

(** [s.replace(old, new)] *)
Fixpoint replace_from (old new s : string) (skip : nat) : string :=
  match s with
  | EmptyString => EmptyString
  | String c s' =>
      match skip with
      | S k => replace_from old new s' k
      | O =>
          if String.prefix old s
          then new ++ replace_from old new s' (String.length old - 1)
          else String c (replace_from old new s' 0)
      end
  end.

Fixpoint interleave (new s : string) : string :=
  match s with
  | EmptyString => new
  | String c s' => new ++ String c (interleave new s')
  end.

Definition replace (old new s : string) : string :=
  if truthy old then replace_from old new s 0 else interleave new s.

(** The error of reading the unbound name in [transferToPatch]. *)
Definition outVals_unbound : exn :=
  error NameError "global name 'outVals' is not defined".

(** The error [freeze] raises when an offset cannot be reset. *)
Definition not_frozen (n : string) : exn :=
  error StandardError
    ("Offsets on '" ++ n ++
     "' were not able to be frozen due to connections or locked attributes!").

Section WithScene.

(** The class attribute [sidePrefix] (left, right, middle). *)
Variable sidePrefix : list string.

(** What the scene holds under a name: [None] when no object has the
    name ([pm.objExists] is false), else what discovery,
    [FollicleJoint(name)], yields for it. *)
Variable discover : string -> option (result t).

(** The [for]/[else] of [side]: the first prefix the name starts with
    selects the side character at its position, which is looked up
    only then; with no such prefix the side is the middle one. *)
Fixpoint side_scan (nameStr : string) (prefixes chars : list string)
  : result string :=
  match prefixes with
  | [] => Surface.index _sideChars 2
  | p :: ps =>
      if String.prefix p nameStr then
        match chars with
        | c :: _ => Ok c
        | [] => Raise (error IndexError "list index out of range")
        end
      else side_scan nameStr ps (tail chars)
  end.

(** [side]: ['l'], ['r'] or ['m'], or [None]. *)
Definition side (self : t) : result (option string) :=
  let* n := name self in
  let* nameStr :=
    (if truthy (default "" n) then Ok (default "" n)
     else match fol self with
          | Some f => Ok f
          | None => Raise (error AttributeError "'NoneType' object has no attribute 'name'")
          end) in
  if truthy nameStr then
    let* s := side_scan nameStr sidePrefix _sideChars in Ok (Some s)
  else Ok None.

(** [isSide] as a truth value. *)
Definition isSide (self : t) : result bool :=
  let* s := side self in
  match s with
  | None => Ok false
  | Some s => Ok (in_list s (take 2 _sideChars))
  end.

(** [uvDriverAttrs] as a truth value. *)
Definition uvDriverAttrs (self : t) : M bool :=
  fun w =>
    match controlObj self with
    | Raise e => (Raise e, w)
    | Ok None => (Ok false, w)
    | Ok (Some c) => (Ok (attributeQuery w c "ou" && attributeQuery w c "ov"), w)
    end.

(** [getMirrorObject(strict, justName=False)]: the unit of the
    mirrored name; [None] stands for the falsy results. *)
Definition getMirrorObject (self : t) (strict : bool) : result (option t) :=
  let* s := side self in
  let lrIndex :=
    if bool_decide (s = _sideChars !! 0%nat) then Some 0%nat
    else if bool_decide (s = _sideChars !! 1%nat) then Some 1%nat
    else None in
  match lrIndex with
  | None =>
      if strict then Raise (error StandardError "Follicle is neither left nor right!")
      else Ok None
  | Some lrIndex =>
      let lrIndexMirror := (1 - lrIndex)%nat in
      let* no := nameObj self in
      match no with
      | None => Raise (error AttributeError "'NoneType' object has no attribute 'name'")
      | Some n =>
          let* old := Surface.index sidePrefix lrIndex in
          let* new := Surface.index sidePrefix lrIndexMirror in
          let mirrorFolGuess := replace old new n in
          match discover mirrorFolGuess with
          | Some r => let* m := r in Ok (Some m)
          | None =>
              if strict
              then Raise (error StandardError "No Mirror object found by the name!")
              else Ok None
          end
      end
  end.

(** [freeze()]: [True] when the offsets were moved into the base
    parameters, [None] when the unit was skipped. *)
Definition freeze (self : t) : M val :=
  let! ctrl := lift (controlObj self) in
  let! hasPu :=
    (if bool_decide (ctrl <> fol self) then
       match ctrl with
       | Some c => fun w => (Ok (attributeQuery w c "pu"), w)
       | None => raise (error TypeError "Invalid arguments for flag 'n'")
       end
     else ret false) in
  if hasPu : bool then
    let! ou := attr_of ctrl "ou" in
    let! ouVal := getAttr ou in
    let! nonzero :=
      (if negb (Qeq_bool ouVal 0) then ret true
       else let! ov := attr_of ctrl "ov" in
            let! ovVal := getAttr ov in
            ret (negb (Qeq_bool ovVal 0))) in
    if nonzero : bool then
      let! fpu := attr_of (fol self) "pu" in
      let! endU := getAttr fpu in
      let! fpv := attr_of (fol self) "pv" in
      let! endV := getAttr fpv in
      try_except_else
        (let! ou := attr_of ctrl "ou" in
         let! _ := setAttr ou 0 in
         let! ov := attr_of ctrl "ov" in
         setAttr ov 0)
        (fun c => match c with RuntimeError => true | _ => false end)
        (fun _ =>
           match ctrl with
           | Some c => raise (not_frozen c)
           | None => raise (error AttributeError "'NoneType' object has no attribute 'name'")
           end)
        (fun _ =>
           let! pu := attr_of ctrl "pu" in
           let! _ := setAttr pu endU in
           let! pv := attr_of ctrl "pv" in
           let! _ := setAttr pv endV in
           ret (VBool true))
    else ret VNone
  else ret VNone.

(** [ou != 0 or ov != 0], the test [freeze] makes of the offsets. *)
Definition offsets_nonzero (ou ov : Q) : bool :=
  negb (Qeq_bool ou 0) || negb (Qeq_bool ov 0).

(** An entry of [toFromAttrs]: destination, source, the axis index
    (2 for neither axis), and for the base parameters the mid value
    and the range. *)
Record entry := Entry {
  toAttr : attr; fromAttr : attr; uvIndex : nat;
  mid_range : option (Q * (Q * Q)) }.

(** [max(a, b)] and [min(a, b)]: the first argument wins a tie. *)
Definition py_max (a b : Q) : Q := if Qle_bool b a then a else b.
Definition py_min (a b : Q) : Q := if Qle_bool a b then a else b.

(** The body of [for toFromAttr in toFromAttrs]. *)
Definition apply_entry (axisVal : nat) (e : entry) : M unit :=
  let! free := isFreeToChange (toAttr e) in
  if free : bool then
    let! val := getAttr (fromAttr e) in
    let midValTmp := match mid_range e with Some (m, _) => m | None => 0%Q end in
    let val := if (uvIndex e =? axisVal)%nat then (2 * midValTmp - val)%Q else val in
    let val := match mid_range e with
               | Some (_, (minVal, maxVal)) => py_min (py_max val minVal) maxVal
               | None => val
               end in
    setAttr (toAttr e) val
  else ret tt.

Fixpoint apply_entries (axisVal : nat) (es : list entry) : M unit :=
  match es with
  | [] => ret tt
  | e :: es' => let! _ := apply_entry axisVal e in apply_entries axisVal es'
  end.

(** The body of [for i in range(2)] over the scale nodes: the entry
    of axis [i] when both units have the node. *)
Definition ratio_entry (opposingOffsets : bool) (i : nat)
    (u m : option string) : M (list entry) :=
  match u, m with
  | Some u, Some m =>
      let! ma := attr_of (Some m) "i2" in
      let! ua := attr_of (Some u) "i2" in
      ret [Entry ma ua (if opposingOffsets then i else 2%nat) None]
  | _, _ => ret []
  end.

(** The entries the two units' scale nodes contribute. *)
Definition ratio_entries (opposingOffsets : bool)
    (uvDrivNodes mirDrivNodes : option string * option string) : M (list entry) :=
  let! e0 := ratio_entry opposingOffsets 0 (fst uvDrivNodes) (fst mirDrivNodes) in
  let! e1 := ratio_entry opposingOffsets 1 (snd uvDrivNodes) (snd mirDrivNodes) in
  ret (e0 ++ e1).

(** The entries of the link ratio attributes of one axis:
    [for j in range(min(len(...), len(...)))]. *)
Fixpoint link_entries (uvLink mirLink : list attr) : list entry :=
  match uvLink, mirLink with
  | u :: us, m :: ms => Entry m u 2 None :: link_entries us ms
  | _, _ => []
  end.

(** [# Base uv parameters]: the two entries of the base parameters. *)
Definition base_entries (self : t) (mirCtrl : option string)
    (midVal : Q) (uvRange : Q * Q) : M (list entry) :=
  let! mpu := attr_of mirCtrl "pu" in
  let! ctrl := lift (controlObj self) in
  let! spu := attr_of ctrl "pu" in
  let! mpv := attr_of mirCtrl "pv" in
  let! spv := attr_of ctrl "pv" in
  ret [Entry mpu spu 0 (Some (midVal, uvRange));
       Entry mpv spv 1 (Some (midVal, uvRange))].

(** [# Offsets]: the two entries of the offsets; the index is 2 under
    [opposingOffsets], the axis's own index otherwise. *)
Definition offset_entries (self : t) (mirCtrl : option string)
    (opposingOffsets : bool) : M (list entry) :=
  let! mou := attr_of mirCtrl "ou" in
  let! ctrl := lift (controlObj self) in
  let! sou := attr_of ctrl "ou" in
  let! mov := attr_of mirCtrl "ov" in
  let! sov := attr_of ctrl "ov" in
  if opposingOffsets
  then ret [Entry mou sou 2 None; Entry mov sov 2 None]
  else ret [Entry mou sou 0 None; Entry mov sov 1 None].

(** [# Optional settings]: the joint radius. *)
Definition radius_entries (self mirrorObj : t) : M (list entry) :=
  match jnt self, jnt mirrorObj with
  | Some sj, Some mj =>
      let! mr := attr_of (Some mj) "radius" in
      let! sr := attr_of (Some sj) "radius" in
      ret [Entry mr sr 2 None]
  | _, _ => ret []
  end.

(** The entries of the chained driver ratios, both axes. *)
Definition all_link_entries (self mirrorObj : t) : list entry :=
  match _linkRatioAttrs self, _linkRatioAttrs mirrorObj with
  | Some u, Some m =>
      link_entries (fst u) (fst m) ++ link_entries (snd u) (snd m)
  | _, _ => []
  end.

(** The list [toFromAttrs], in the order the code appends to it. *)
Definition build_entries (self mirrorObj : t)
    (baseValues offsets : bool) (midVal : Q) (uvRange : Q * Q)
    (opposingOffsets jntRadius uvDriverRatio drivenOffsetRatios : bool)
  : M (list entry) :=
  let! mirCtrl := lift (controlObj mirrorObj) in
  let! base :=
    (if baseValues then base_entries self mirCtrl midVal uvRange else ret []) in
  let! hasOfs :=
    (if offsets then
       let! a := uvDriverAttrs self in
       if a : bool then uvDriverAttrs mirrorObj else ret false
     else ret false) in
  let! ofs :=
    (if hasOfs : bool then offset_entries self mirCtrl opposingOffsets
     else ret []) in
  let! rad := (if jntRadius then radius_entries self mirrorObj else ret []) in
  let! drv :=
    (if uvDriverRatio then
       match _driverRatioNodes self, _driverRatioNodes mirrorObj with
       | Some u, Some m => ratio_entries opposingOffsets u m
       | _, _ => ret []
       end
     else ret []) in
  let lnk := if drivenOffsetRatios then all_link_entries self mirrorObj else [] in
  ret (base ++ ofs ++ rad ++ drv ++ lnk).

(** The destination of an entry is an attribute of one of these names. *)
Definition dest_in (names : list string) (e : entry) : Prop :=
  In (snd (toAttr e)) names.

(** [copyValuesToMirror(...)]: the mirror unit, or [None] when there
    is nothing to return. An attribute object counts as true in
    [if uvLinkNodes[i][j] and mirLinkNodes[i][j]]. *)
Definition copyValuesToMirror (self : t)
    (baseValues offsets : bool) (axis : string) (midVal : Q) (uvRange : Q * Q)
    (strict warnings opposingOffsets : bool)
    (jntRadius uvDriverRatio drivenOffsetRatios : bool) : M (option t) :=
  let! sd := lift (isSide self) in
  if negb sd then
    if strict then raise (error StandardError "Follicle is neither left nor right!")
    else ret None
  else
    let! mo := lift (getMirrorObject self strict) in
    let axisVal := if String.eqb axis "v" then 1%nat else 0%nat in
    let! mirrorObj :=
      match mo with
      | Some m => ret m
      | None => raise (error AttributeError "object has no attribute 'controlObj'")
      end in
    let! toFromAttrs :=
      build_entries self mirrorObj baseValues offsets midVal uvRange
        opposingOffsets jntRadius uvDriverRatio drivenOffsetRatios in
    let! _ := apply_entries axisVal toFromAttrs in
    ret (Some mirrorObj).

(** The [patch] property, as read on a unit whose [_patch] is still
    empty: the node that feeds the follicle's [inputSurface], else the
    one that feeds its [inputMesh]; [None] stands for the falsy
    results. *)
Definition patch (self : t) (w : world) : option string :=
  match fol self with
  | Some f =>
      match inputs w (f, "inputSurface") with
      | n :: _ => Some n
      | [] => match inputs w (f, "inputMesh") with
              | n :: _ => Some n
              | [] => None
              end
      end
  | None => None
  end.

(** [disconnectFromPatch()]: every connection from the patch into the
    follicle is removed. *)
Definition disconnectFromPatch (self : t) : M (option string) :=
  fun w =>
    match fol self with
    | None => (Raise (error AttributeError "'NoneType' object has no attribute 'inputs'"), w)
    | Some f =>
        let p := patch self w in
        let keep (c : attr * attr) :=
          negb (String.eqb (fst (snd c)) f &&
                bool_decide (Some (fst (fst c)) = p)) in
        (Ok p, World (w_attrs w) (List.filter keep (w_conns w)))
    end.

(** [not newUV] *)
Definition no_uv (newUV : option (list Q)) : bool :=
  match newUV with
  | Some (_ :: _) => false
  | _ => true
  end.

(** [transferToPatch(patch, newUV, closestPt, useSmoothedMesh)].
    [found] is what [cq.filterSelectionForShapeType(patch, ...)[0]]
    yields: the patch's name and kind. [closest] is what
    [getClosestUVs(patch, self.xfm, False)[0]] yields. The name
    [outVals] is bound nowhere in the function or the module, so
    reading it raises [NameError]. *)
Definition transferToPatch (self : t)
    (found : result (string * Surface.patch)) (newUV : option (list Q))
    (closestPt useSmoothedMesh : bool)
    (closest : result (list (list Q))) : M val :=
  let! pk := lift found in
  let p := fst pk in
  let patchIsNurb :=
    match snd pk with Surface.NurbsSurface _ _ _ _ => true | _ => false end in
  let! newUV :=
    (if closestPt && no_uv newUV then
       let! outUVVals := lift closest in
       raise outVals_unbound
     else ret newUV) in
  let! _ := disconnectFromPatch self in
  let! _ :=
    (if closestPt then
       let! uvObj := lift (controlObj self) in
       let! fpu := attr_of (fol self) "pu" in
       let! a := getAttr fpu in
       let! cpu := attr_of uvObj "pu" in
       let! b := getAttr cpu in
       let ofsU := (a - b)%Q in
       let! fpv := attr_of (fol self) "pv" in
       let! a := getAttr fpv in
       let! cpv := attr_of uvObj "pv" in
       let! b := getAttr cpv in
       let ofsV := (a - b)%Q in
       let! l := match newUV with
                 | Some l => ret l
                 | None => raise (error TypeError "'NoneType' object has no attribute '__getitem__'")
                 end in
       let! u := lift (Surface.index l 0) in
       let! _ := setAttr cpu (u - ofsU)%Q in
       let! v := lift (Surface.index l 1) in
       setAttr cpv (v - ofsV)%Q
     else ret tt) in
  let! f := match fol self with
            | Some f => ret f
            | None => raise (error AttributeError "'NoneType' object has no attribute 'inputWorldMatrix'")
            end in
  let! _ := connectAttr_f (p, "worldMatrix[0]") (f, "inputWorldMatrix") in
  let! _ :=
    (if patchIsNurb then connectAttr_f (p, "local") (f, "inputSurface")
     else if useSmoothedMesh then connectAttr_f (p, "outSmoothMesh") (f, "inputMesh")
     else connectAttr_f (p, "outMesh") (f, "inputMesh")) in
  ret (VBool true).

End WithScene.

(** [pm.objectType(patch, i='nurbsSurface')] on the patch found. *)
Definition is_nurbs (k : Surface.patch) : bool :=
  match k with Surface.NurbsSurface _ _ _ _ => true | _ => false end.

(** The two ends of the geometry connection [transferToPatch] makes:
    the patch's output and the follicle's input. *)
Definition geometry_output (patchIsNurb useSmoothedMesh : bool) : string :=
  if patchIsNurb then "local"
  else if useSmoothedMesh then "outSmoothMesh" else "outMesh".

Definition geometry_input (patchIsNurb : bool) : string :=
  if patchIsNurb then "inputSurface" else "inputMesh".

(** The scene after the two connections of [transferToPatch]. *)
Definition reconnected (p f : string) (nurb smooth : bool) (w : world) : world :=
  snd (connectAttr_f (p, geometry_output nurb smooth) (f, geometry_input nurb)
         (snd (connectAttr_f (p, "worldMatrix[0]") (f, "inputWorldMatrix") w))).

(** A text of two characters, the shape of the side prefixes. *)
Definition two (a x : ascii) : string := String a (String x "").

(** The class attribute [sidePrefix] as the class defines it. *)
Definition sidePrefix_default : list string := ["L_"; "R_"; "M_"].

(** [getMirrorObject(strict, justName=True)]: the mirrored name, as
    [createMirrorObject] asks for it; no object is looked up. [None]
    stands for the [None] result. *)
Definition getMirrorObject_justName (sidePrefix : list string) (self : t)
    (strict : bool) : result (option string) :=
  let* s := side sidePrefix self in
  let lrIndex :=
    if bool_decide (s = _sideChars !! 0%nat) then Some 0%nat
    else if bool_decide (s = _sideChars !! 1%nat) then Some 1%nat
    else None in
  match lrIndex with
  | None =>
      if strict then Raise (error StandardError "Follicle is neither left nor right!")
      else Ok None
  | Some lrIndex =>
      let lrIndexMirror := (1 - lrIndex)%nat in
      let* no := nameObj self in
      match no with
      | None => Raise (error AttributeError "'NoneType' object has no attribute 'name'")
      | Some n =>
          let* old := Surface.index sidePrefix lrIndex in
          let* new := Surface.index sidePrefix lrIndexMirror in
          Ok (Some (replace old new n))
      end
  end.

(** A value brought into the range from [lo] to [hi]:
    [min(max(val, minVal), maxVal)]. *)
Definition clamp (lo hi val : Q) : Q := py_min (py_max val lo) hi.

End FollicleJoint.

(** ** Writes on a host that re-evaluates

    In the host a write is followed by the re-evaluation of what
    connections drive: freezing the offsets moves the follicle's
    parameters. Here the scene after a write is the scene the host
    makes of it, [settle]; the host of module [Host] is the one that
    re-evaluates nothing. *)

Module Live.
Import Py Scene Host FollicleJoint.

(** What is taken of the host's re-evaluation: it makes and breaks no
    connection, makes and removes no attribute, leaves every attribute
    that is free to change as it is, and leaves an attribute that is
    locked or connected locked or connected, whatever its value
    becomes. *)
Definition evaluation (settle : world -> world) : Prop :=
  (forall w, w_conns (settle w) = w_conns w) /\
  (forall w a, w_attrs w !! a = None -> w_attrs (settle w) !! a = None) /\
  (forall w a c, w_attrs w !! a = Some c -> c_free c = true ->
                 w_attrs (settle w) !! a = Some c) /\
  (forall w a c, w_attrs w !! a = Some c -> c_free c = false ->
                 exists c', w_attrs (settle w) !! a = Some c' /\ c_free c' = false).

Section WithEvaluation.

Variable settle : world -> world.

(** The scene after [attr.set(v)] went through. *)
Definition written (a : attr) (v : Q) (w : world) : world :=
  settle (World (<[a := Cell v true]> (w_attrs w)) (w_conns w)).

(** [attr.set(v)] *)
Definition setAttr (a : attr) (v : Q) : M unit :=
  fun w =>
    match w_attrs w !! a with
    | Some c =>
        if c_free c
        then (Ok tt, written a v w)
        else (Raise (error RuntimeError
                "setAttr: The attribute is locked or connected and cannot be modified."), w)
    | None => (Raise (error AttributeError "node has no such attribute"), w)
    end.

(** [freeze()] *)
Definition freeze (self : t) : M val :=
  let! ctrl := lift (controlObj self) in
  let! hasPu :=
    (if bool_decide (ctrl <> fol self) then
       match ctrl with
       | Some c => fun w => (Ok (attributeQuery w c "pu"), w)
       | None => raise (error TypeError "Invalid arguments for flag 'n'")
       end
     else ret false) in
  if hasPu : bool then
    let! ou := attr_of ctrl "ou" in
    let! ouVal := getAttr ou in
    let! nonzero :=
      (if negb (Qeq_bool ouVal 0) then ret true
       else let! ov := attr_of ctrl "ov" in
            let! ovVal := getAttr ov in
            ret (negb (Qeq_bool ovVal 0))) in
    if nonzero : bool then
      let! fpu := attr_of (fol self) "pu" in
      let! endU := getAttr fpu in
      let! fpv := attr_of (fol self) "pv" in
      let! endV := getAttr fpv in
      try_except_else
        (let! ou := attr_of ctrl "ou" in
         let! _ := setAttr ou 0 in
         let! ov := attr_of ctrl "ov" in
         setAttr ov 0)
        (fun c => match c with RuntimeError => true | _ => false end)
        (fun _ =>
           match ctrl with
           | Some c => raise (not_frozen c)
           | None => raise (error AttributeError "'NoneType' object has no attribute 'name'")
           end)
        (fun _ =>
           let! pu := attr_of ctrl "pu" in
           let! _ := setAttr pu endU in
           let! pv := attr_of ctrl "pv" in
           let! _ := setAttr pv endV in
           ret (VBool true))
    else ret VNone
  else ret VNone.

End WithEvaluation.

End Live.

(** ** The panel's reversible-call wrapper, [class undoableCaller] *)

Module UI.
Import Py.

(** What the wrapper asks of the host, in order. The wrapped call is
    recorded with the arguments it received. *)
Inductive event :=
| OpenChunk
| CloseChunk
| Called (args : list val) (kwargs : gmap string val)
| EvalDeferred (cmd : string).

(** How a statement ends: it falls through to the next one, it
    returns from the function, or it raises. *)
Inductive completion :=
| Fall
| Return (v : val)
| Throw (e : exn).

(** The function's state: the host trace and the local [exc], which
    holds the caught exception ([exc] and [excInst] together). *)
Record frame := Frame { trace : list event; exc : option exn }.

Definition stmt : Type := frame -> completion * frame.

Definition seq (a b : stmt) : stmt :=
  fun s => match a s with
           | (Fall, s') => b s'
           | r => r
           end.

(** [try: body / except <classes>: handler] *)
Definition try_except (body : stmt) (catches : exc_class -> bool)
    (handler : exn -> stmt) : stmt :=
  fun s => match body s with
           | (Throw e, s') =>
               if catches (exn_class e) then handler e s' else (Throw e, s')
           | r => r
           end.

(** [try: body / finally: fin]: when [fin] falls through, the way [body]
    ended stands; when [fin] returns or raises, that replaces it. *)
Definition try_finally (body fin : stmt) : stmt :=
  fun s => match body s with
           | (c, s1) =>
               match fin s1 with
               | (Fall, s2) => (c, s2)
               | r => r
               end
           end.

Definition emit (e : event) : stmt :=
  fun s => (Fall, Frame (trace s ++ [e]) (exc s)).

(** The wrapper object. [uiFunction] is the wrapped operation: called
    with positional and keyword arguments, it returns or raises. *)
Record undoableCaller := Mk {
  uiFunction : list val -> gmap string val -> result val;
  args : list val;
  kwargs : gmap string val;
  noArgs : val }.

Definition val_truthy (v : val) : bool :=
  match v with
  | VNone => false
  | VBool b => b
  | VInt z => negb (z =? 0)%Z
  | VStr s => truthy s
  end.

(** [__init__(self, uiFunction, *args, **kwargs)] *)
Definition init (f : list val -> gmap string val -> result val)
    (a : list val) (kw : gmap string val) : undoableCaller :=
  match kw !! "noArgs" with
  | Some v => Mk f a (delete "noArgs" kw) v
  | None => Mk f a kw (VBool true)
  end.

(** ['; '.join(args)]: every item must be a string. *)
Fixpoint join_args (l : list val) : result string :=
  match l with
  | [] => Ok ""
  | VStr s :: l' =>
      match l' with
      | [] => Ok s
      | _ => let* r := join_args l' in Ok (s ++ "; " ++ r)%string
      end
  | _ :: _ => Raise (error TypeError "sequence item: expected string")
  end.

(** [s.replace('\n', ' ')] *)
Fixpoint flatten (s : string) : string :=
  match s with
  | EmptyString => EmptyString
  | String c s' =>
      String (if Ascii.eqb c (ascii_of_nat 10) then " "%char else c) (flatten s')
  end.

Definition dquote : string := String (ascii_of_nat 34) EmptyString.

(** [r'error "%s: %s"' % (exc.__name__, '; '.join(excInst.args).replace('\n', ' '))] *)
Definition error_command (e : exn) : result string :=
  let* j := join_args (exn_args e) in
  Ok ("error " ++ dquote ++ class_name (exn_class e) ++ ": " ++ flatten j ++ dquote)%string.

(** The call of [self.uiFunction] with the merged arguments, as a
    statement. *)
Definition call (self : undoableCaller) (a : list val) (kw : gmap string val) : stmt :=
  fun s =>
    let s' := Frame (trace s ++ [Called a kw]) (exc s) in
    match uiFunction self a kw with
    | Ok _ => (Fall, s')
    | Raise e => (Throw e, s')
    end.

(** The [finally] block. *)
Definition cleanup : stmt :=
  seq (emit CloseChunk)
    (seq (fun s =>
            match exc s with
            | Some e =>
                match error_command e with
                | Ok cmd => emit (EvalDeferred cmd) s
                | Raise e' => (Throw e', s)
                end
            | None => (Fall, s)
            end)
         (fun s => (Return VNone, s))).

(** The positional arguments the wrapped call receives: the signal's
    own are dropped under [noArgs], the preset ones come first. *)
Definition call_args (self : undoableCaller) (a : list val) : list val :=
  let a := if val_truthy (noArgs self) then [] else a in
  match args self with [] => a | _ => args self ++ a end.

(** The keyword arguments: [kwargs.update(self.kwargs)]. *)
Definition call_kwargs (self : undoableCaller) (kw : gmap string val)
  : gmap string val :=
  if bool_decide (kwargs self = ∅) then kw else kwargs self ∪ kw.

(** [runUndoable(self, *args, **kwargs)]: what the caller gets, and the
    host trace. *)
Definition runUndoable (self : undoableCaller) (a : list val) (kw : gmap string val)
  : result val * list event :=
  let a := call_args self a in
  let kw := call_kwargs self kw in
  let body :=
    seq (emit OpenChunk)
      (seq (fun s => (Fall, Frame (trace s) None))
         (try_finally
            (try_except (call self a kw) is_Exception
               (fun e s => (Throw e, Frame (trace s) (Some e))))
            cleanup)) in
  match body (Frame [] None) with
  | (Fall, s) => (Ok VNone, trace s)
  | (Return v, s) => (Ok v, trace s)
  | (Throw e, s) => (Raise e, trace s)
  end.

(** How many times a trace closes the undo chunk. *)
Definition is_close (e : event) : bool :=
  match e with CloseChunk => true | _ => false end.
Definition closes (tr : list event) : nat := length (List.filter is_close tr).

(** Whether a value is a string. *)
Definition is_str (v : val) : bool :=
  match v with VStr _ => true | _ => false end.

End UI.

(** ** Operations on several units *)

Module Batch.
Import Py Scene Host FollicleJoint.

(** The offsets of unit [u] are free to change in [w]: neither locked
    nor driven by another unit. *)
Definition offsets_free (w : world) (u : t) : Prop :=
  forall (c a : string) (cl : cell),
    controlObj u = Ok (Some c) -> a = "ou" \/ a = "ov" ->
    w_attrs w !! (c, a) = Some cl -> c_free cl = true.

(** [w'] has the attributes of [w]. *)
Definition same_attributes (w w' : world) : Prop :=
  forall n a : string, attributeQuery w' n a = attributeQuery w n a.

(** An offset free to change in [w] is free to change in [w'], and
    zero there when it was zero. *)
Definition offsets_kept (w w' : world) : Prop :=
  forall (n a : string) (cl : cell),
    a = "ou" \/ a = "ov" -> w_attrs w !! (n, a) = Some cl -> c_free cl = true ->
    exists cl', w_attrs w' !! (n, a) = Some cl' /\ c_free cl' = true /\
                (c_value cl == 0 -> c_value cl' == 0).

Section WithEvaluation.

(** The host's re-evaluation after a write. *)
Variable settle : world -> world.

(** The loop of [freezeOffsets]: [for obj in folObjs], a unit being
    appended when [obj.freeze()] is true. *)
Fixpoint freeze_each (folObjs frozenObjs : list t) : M (list t) :=
  match folObjs with
  | [] => ret frozenObjs
  | obj :: rest =>
      let! r := Live.freeze settle obj in
      freeze_each rest
        (if UI.val_truthy r then frozenObjs ++ [obj] else frozenObjs)
  end.

(** [freezeOffsets(objs, useSelection)]. [folObjs] is what
    [getFollicleJoints(objs, useSelection=useSelection, strict=False)]
    yields. *)
Definition freezeOffsets (folObjs : result (list t)) : M (list t) :=
  let! folObjs := lift folObjs in
  freeze_each folObjs [].

End WithEvaluation.


Section WithScene.

Variable discover : string -> option (result t).




End WithScene.

End Batch.

(** ** A small scene

    Two units of type [t/f-j], named for the left and the right side,
    each with its follicle shape, transform and joint; the joint is the
    control node and carries the base parameters and the offsets, the
    follicle carries the resolved parameters (fed by the control node,
    so not free to change). *)

Module Sample.
Import Py Scene.

Definition jtype : FolJntType.t := FolJntType.Mk (Some "t/f-j") (Some "j").

Definition unit (n : string) : FollicleJoint.t :=
  FollicleJoint.Mk (Some (n ++ "Shape")%string) (Some n) (Some (n ++ "_J_")%string)
    (Some jtype) None None.

Definition left : FollicleJoint.t := unit "L_brow".
Definition right : FollicleJoint.t := unit "R_brow".

Definition sidePrefix : list string := ["L_"; "R_"; "M_"].

Definition discover (n : string) : option (result FollicleJoint.t) :=
  if String.eqb n "L_brow" then Some (Ok left)
  else if String.eqb n "R_brow" then Some (Ok right)
  else None.

(** The left unit sits at (0.2, 0.5) with offsets (0.25, 0.125); the
    right unit at (0.8, 0.5) with no offsets. [base_free] tells whether
    the left control node's base parameters are free to change. *)
Definition scene (base_free : bool) : world :=
  World (list_to_map
    [(("L_brow_J_", "pu"), Cell (1 # 5) base_free);
     (("L_brow_J_", "pv"), Cell (1 # 2) base_free);
     (("L_brow_J_", "ou"), Cell (1 # 4) true);
     (("L_brow_J_", "ov"), Cell (1 # 8) true);
     (("L_browShape", "pu"), Cell (9 # 20) false);
     (("L_browShape", "pv"), Cell (5 # 8) false);
     (("R_brow_J_", "pu"), Cell (4 # 5) true);
     (("R_brow_J_", "pv"), Cell (1 # 2) true);
     (("R_brow_J_", "ou"), Cell 0 true);
     (("R_brow_J_", "ov"), Cell 0 true);
     (("R_browShape", "pu"), Cell (4 # 5) false);
     (("R_browShape", "pv"), Cell (1 # 2) false)])
    [].

(** The parameter [p] of the follicle of unit [n] as the host resolves
    it: the control node's base parameter plus its offset [o] (a driver
    ratio of 1). A follicle parameter that is free to change is not
    driven, and stays. *)
Definition resolved (n p o : string) (m : gmap (string * string) cell)
  : gmap (string * string) cell :=
  match m !! ((n ++ "_J_")%string, p), m !! ((n ++ "_J_")%string, o),
        m !! ((n ++ "Shape")%string, p) with
  | Some b, Some d, Some s =>
      if c_free s then m
      else <[((n ++ "Shape")%string, p) := Cell (c_value b + c_value d) false]> m
  | _, _, _ => m
  end.

(** The host's re-evaluation of the small scene. *)
Definition settle (w : world) : world :=
  World (resolved "R_brow" "pv" "ov"
           (resolved "R_brow" "pu" "ou"
              (resolved "L_brow" "pv" "ov"
                 (resolved "L_brow" "pu" "ou" (w_attrs w)))))
        (w_conns w).

End Sample.

(** * Properties *)

(** ** The type descriptor *)

Section TypeDescriptor.
Import Py FolJntType.

Example describe_default : describe "t/f" = Ok (Row true false "t" "t" "f").
Proof. reflexivity. Qed.

Lemma in_list_In (x : string) (l : list string) : in_list x l = true <-> In x l.
Proof.
  unfold in_list. rewrite existsb_exists. split.
  - intros [y [Hy He]]. apply String.eqb_eq in He. now subst.
  - intros H. exists x. split; [assumption | apply String.eqb_refl].
Qed.

Lemma truthy_nonempty (s : string) : truthy s = true <-> s <> "".
Proof. destruct s; simpl; split; congruence. Qed.

(** C2, as the code has it: the table of section 4.2 holds for the four
    type strings except that the top transform of ["t-j/f"] is the
    transform ["t"], every non-empty string outside the four fails
    the assertion of [set], and the empty string constructs a descriptor
    that is left unset without failing. *)
Theorem C2_type_table :
  describe "t/f" = Ok (Row true false "t" "t" "f") /\
  describe "t/f-j" = Ok (Row true true "t" "t" "j") /\
  describe "t-j/f" = Ok (Row true true "t" "j" "j") /\
  describe "j/f" = Ok (Row false true "j" "j" "j") /\
  (forall s : string, s <> "" -> ~ In s validTypes ->
     raised (init (Some s)) AssertionError) /\
  init (Some "") = Ok (Mk None None).
Proof.
  repeat split; try reflexivity.
  intros s Hne Hnot. unfold init.
  apply truthy_nonempty in Hne. rewrite Hne. unfold set.
  destruct (in_list s validTypes) eqn:E.
  - apply in_list_In in E. contradiction.
  - eexists. reflexivity.
Qed.

Lemma C2_type_table_witness :
  "t-f" <> "" /\ ~ In "t-f" validTypes /\
  raised (init (Some "t-f")) AssertionError.
Proof.
  assert (H1 : "t-f" <> "") by discriminate.
  assert (H2 : ~ In "t-f" validTypes).
  { simpl. intros [H | [H | [H | [H | []]]]]; discriminate H. }
  split; [exact H1 | split; [exact H2 |]].
  exact (proj1 (proj2 (proj2 (proj2 (proj2 C2_type_table)))) "t-f" H1 H2).
Defined.

(** The table's row for ["t-j/f"] names the joint as top transform; the
    descriptor answers with the transform. *)
Lemma C2_reverse_type_top_transform :
  describe "t-j/f" <> Ok (Row true true "j" "j" "j") /\
  (let* d := init (Some "t-j/f") in topTransform d) = Ok "t".
Proof. split; [discriminate | reflexivity]. Qed.

End TypeDescriptor.

(** ** UV normalisation *)

Section Normalisation.
Import Py Surface.

Lemma py_div_nonzero (x y : Q) : ~ y == 0 -> py_div x y = Ok (x / y)%Q.
Proof.
  intros H. unfold py_div.
  destruct (Qeq_bool y 0) eqn:E; [| reflexivity].
  apply Qeq_bool_iff in E. contradiction.
Qed.

Lemma unit_range_test (minU maxU minV maxV : Q) :
  Qeq_bool minU 0 && Qeq_bool maxU 1 && Qeq_bool minV 0 && Qeq_bool maxV 1 = true
  <-> unit_range minU maxU minV maxV.
Proof.
  unfold unit_range. rewrite !andb_true_iff, !Qeq_bool_iff. tauto.
Qed.

(** C6: on a NURBS patch whose range is exactly [0,1] on both axes the
    uv comes back unchanged; on one whose range is not (the range being
    non-degenerate on both axes, as a NURBS parameter range is), with
    warning-only false, each axis yields raw / (range length) + range
    minimum, so the uv [1.0, 0.5] on a [0,2]x[0,1] surface yields
    [0.5, 0.5]; a patch that is not a NURBS surface fails with the
    "must be a nurbSurface" error. *)
Theorem C6_normalised_uv :
  (forall minU maxU minV maxV uv gw wo,
      unit_range minU maxU minV maxV ->
      normalisedNurbsUV (NurbsSurface minU maxU minV maxV) uv gw wo = Ok uv) /\
  (forall minU maxU minV maxV u v rest gw,
      ~ unit_range minU maxU minV maxV ->
      ~ maxU - minU == 0 -> ~ maxV - minV == 0 ->
      normalisedNurbsUV (NurbsSurface minU maxU minV maxV) (u :: v :: rest) gw false
      = Ok ((u / (maxU - minU) + minU) :: (v / (maxV - minV) + minV) :: rest)%Q) /\
  (forall gw, exists a b,
      normalisedNurbsUV (NurbsSurface 0 2 0 1) [1; 1 # 2]%Q gw false = Ok [a; b] /\
      a == 1 # 2 /\ b == 1 # 2) /\
  (forall p uv gw wo,
      (forall minU maxU minV maxV, p <> NurbsSurface minU maxU minV maxV) ->
      normalisedNurbsUV p uv gw wo
      = Raise (error StandardError "Patch must be a nurbSurface shape PyNode!")).
Proof.
  split; [| split; [| split]].
  - intros minU maxU minV maxV uv gw wo H.
    apply unit_range_test in H. unfold normalisedNurbsUV.
    rewrite H. reflexivity.
  - intros minU maxU minV maxV u v rest gw H HU HV.
    unfold normalisedNurbsUV.
    destruct (Qeq_bool minU 0 && Qeq_bool maxU 1 && Qeq_bool minV 0 && Qeq_bool maxV 1) eqn:E.
    + apply unit_range_test in E. contradiction.
    + cbn. rewrite (py_div_nonzero u _ HU). cbn.
      rewrite (py_div_nonzero v _ HV). reflexivity.
  - intros gw. eexists. eexists. split; [reflexivity |].
    split; reflexivity.
  - intros p uv gw wo H. destruct p; try reflexivity.
    exfalso. eapply H. reflexivity.
Qed.

Lemma C6_normalised_uv_witness :
  normalisedNurbsUV (NurbsSurface 0 1 0 1) [1 # 3; 2 # 3]%Q true false
  = Ok [1 # 3; 2 # 3]%Q /\
  normalisedNurbsUV (NurbsSurface 0 4 1 3) [2; 1]%Q true false
  = Ok [2 / (4 - 0) + 0; 1 / (3 - 1) + 1]%Q /\
  normalisedNurbsUV Mesh [2; 1]%Q true false
  = Raise (error StandardError "Patch must be a nurbSurface shape PyNode!").
Proof.
  split; [| split].
  - apply (proj1 C6_normalised_uv).
    unfold unit_range. repeat split; reflexivity.
  - apply (proj1 (proj2 C6_normalised_uv) 0 4 1 3 2 1 [] true)%Q.
    + unfold unit_range. intros [_ [H _]]. discriminate H.
    + intros H. discriminate H.
    + intros H. discriminate H.
  - apply (proj2 (proj2 (proj2 C6_normalised_uv))).
    intros minU maxU minV maxV H. discriminate H.
Defined.

End Normalisation.

(** ** Grid placement *)

Section GridPlacement.
Import Py Surface Grid.

Lemma normalised_warning_only (p : patch) (uv : list Q) (gw : bool) :
  (exists a b c d, p = NurbsSurface a b c d) ->
  normalisedNurbsUV p uv gw true = Ok uv.
Proof.
  intros [a [b [c [d ->]]]]. unfold normalisedNurbsUV.
  destruct (negb _); reflexivity.
Qed.

Lemma new_pair (p : patch) (u v : Q) (scene : list unit_uv) :
  new p [u; v] scene = (Ok (u, v), scene ++ [(u, v)]).
Proof.
  unfold new. destruct p; try reflexivity.
  rewrite normalised_warning_only by (do 4 eexists; reflexivity).
  reflexivity.
Qed.

Lemma check_rows_zero (r0 r1 e0 e1 : Z) :
  (r0 - e0 = 0 \/ r1 - e1 = 0)%Z ->
  check_rows [r0; r1] [e0; e1] [0; 1]%nat = Raise too_few_rows.
Proof.
  intros H. cbn.
  destruct (r0 - e0 =? 0)%Z eqn:E0; [reflexivity |].
  destruct (r1 - e1 =? 0)%Z eqn:E1; [reflexivity |].
  apply Z.eqb_neq in E0, E1. lia.
Qed.

(** C7, as the code has it: with rows [2,1] and edge flags [1,0] over
    the full unit square exactly two units are created, at (0, 0.5)
    and (1, 0.5); and every call in which the row count of some axis
    minus its edge flag is zero (an edge-bounded axis asking for
    exactly one row) fails with the "Minimum 2 rows" error before any
    unit is created. *)
Theorem C7_grid :
  (forall p scene, exists us,
      newFollicleGrid (Ok p) [2; 1]%Z [1; 0]%Z [None; None; None; None] scene
      = (Ok us, scene ++ us) /\
      Forall2 uv_eq us [(0, 1 # 2); (1, 1 # 2)]%Q) /\
  (forall found r0 r1 e0 e1 uvRange scene,
      (r0 - e0 = 0 \/ r1 - e1 = 0)%Z ->
      newFollicleGrid found [r0; r1] [e0; e1] uvRange scene
      = (Raise too_few_rows, scene)).
Proof.
  split.
  - intros p scene. exists [(0 # 2, 1 # 2); (2 # 2, 1 # 2)]%Q. split.
    + cbv -[new app]. rewrite new_pair. cbv -[new app].
      rewrite new_pair. cbn [app]. rewrite <- app_assoc. reflexivity.
    + repeat constructor; reflexivity.
  - intros found r0 r1 e0 e1 uvRange scene H.
    unfold newFollicleGrid. rewrite (check_rows_zero _ _ _ _ H). reflexivity.
Qed.

Lemma C7_grid_witness :
  newFollicleGrid (Ok Mesh) [5; 1]%Z [1; 1]%Z [None; None; None; None] []
  = (Raise too_few_rows, []).
Proof.
  apply (proj2 C7_grid (Ok Mesh) 5 1 1 1 [None; None; None; None] [])%Z.
  right. reflexivity.
Defined.

(** An edge-bounded axis that asks for no row at all passes the check:
    the call returns an empty list and raises nothing. *)
Lemma C7_zero_rows_edge_bounded_passes :
  newFollicleGrid (Ok Mesh) [0; 1]%Z [1; 0]%Z [None; None; None; None] []
  = (Ok [], []).
Proof. reflexivity. Qed.

End GridPlacement.

(** ** Joining a numbered name *)

Section JoinNumberedName.
Import Py Names.

Lemma format_drop_num (f : list piece) (pre x suf : string) :
  format f pre "" suf = format (drop_num f) pre x suf.
Proof.
  induction f as [| [s | | |] f IH]; simpl; try rewrite IH; reflexivity.
Qed.

Lemma replace_hash_empty (s : string) : replace_hash s "" = remove_hash s.
Proof.
  induction s as [| c s IH]; simpl; [reflexivity |].
  destruct (Ascii.eqb c "#"); simpl; rewrite IH; reflexivity.
Qed.

Lemma append_empty_r (s : string) : (s ++ "")%string = s.
Proof.
  induction s as [| c s IH]; [reflexivity |].
  change (String c (s ++ "")%string = String c s). now rewrite IH.
Qed.

Lemma numStr_no_number (num : option num_arg) (pad : nat) :
  no_number num -> numStr num pad = Ok "".
Proof. intros [-> | ->]; reflexivity. Qed.

Example join_joint_format :
  joinNumberedName (Some "L_brow") (Some (NStr "07")) None 3 format_j None
  = Ok "L_brow_J_007".
Proof. reflexivity. Qed.

(** C9: the two documented calls yield "pizza_023_order"; a template
    that is given (a non-empty string) and holds no '#' makes the call
    fail, with the template's [TypeError] whenever the number itself is
    acceptable; and when the number is none or empty the number segment
    is left out: the placeholders are removed from a template, and the
    format is filled as if it had no number field. *)
Theorem C9_join_numbered_name :
  joinNumberedName (Some "pizza_") (Some (NInt 23)) (Some "_order") 3 format_main None
  = Ok "pizza_023_order" /\
  joinNumberedName None (Some (NInt 23)) None 3 format_main (Some "pizza_#_order")
  = Ok "pizza_023_order" /\
  (forall prefix num suffix pad fmt nameDef,
      nameDef <> "" -> char_in "#" nameDef = false ->
      (exists e, joinNumberedName prefix num suffix pad fmt (Some nameDef) = Raise e) /\
      (forall ns, numStr num pad = Ok ns ->
         joinNumberedName prefix num suffix pad fmt (Some nameDef)
         = Raise no_placeholder)) /\
  (forall prefix num suffix pad fmt nameDef,
      no_number num -> nameDef <> "" -> char_in "#" nameDef = true ->
      joinNumberedName prefix num suffix pad fmt (Some nameDef)
      = Ok (remove_hash nameDef)) /\
  (forall prefix num suffix pad fmt x,
      no_number num ->
      joinNumberedName prefix num suffix pad fmt None
      = Ok (format (drop_num fmt) (default "" prefix) x (default "" suffix))) /\
  (forall prefix num suffix pad,
      no_number num ->
      joinNumberedName (Some prefix) num (Some suffix) pad format_main None
      = Ok (prefix ++ suffix)%string).
Proof.
  split; [reflexivity |]. split; [reflexivity |].
  split; [| split; [| split]].
  - intros prefix num suffix pad fmt nameDef Hne Hno.
    unfold joinNumberedName.
    destruct (numStr num pad) as [ns | e] eqn:E; simpl.
    + destruct nameDef as [| c nd]; [congruence |].
      simpl in *. rewrite Hno. simpl.
      split; [eexists; reflexivity |]. intros; reflexivity.
    + split; [eexists; reflexivity |]. intros ns Hns. discriminate Hns.
  - intros prefix num suffix pad fmt nameDef Hnum Hne Hhas.
    unfold joinNumberedName. rewrite (numStr_no_number _ _ Hnum). simpl.
    destruct nameDef as [| c nd]; [congruence |].
    simpl in *. rewrite Hhas. simpl.
    rewrite <- replace_hash_empty. reflexivity.
  - intros prefix num suffix pad fmt x Hnum.
    unfold joinNumberedName. rewrite (numStr_no_number _ _ Hnum). simpl.
    rewrite (format_drop_num fmt _ x). reflexivity.
  - intros prefix num suffix pad Hnum.
    unfold joinNumberedName. rewrite (numStr_no_number _ _ Hnum). simpl.
    rewrite append_empty_r. reflexivity.
Qed.

Lemma C9_join_numbered_name_witness :
  joinNumberedName (Some "a") (Some (NInt 5)) None 2 format_main (Some "pizza_order")
  = Raise no_placeholder /\
  joinNumberedName None None None 3 format_main (Some "pizza_#_order")
  = Ok "pizza__order" /\
  joinNumberedName (Some "pizza_") (Some (NStr "")) (Some "_order") 3 format_main None
  = Ok "pizza__order".
Proof.
  split; [| split].
  - assert (H1 : "pizza_order" <> "") by discriminate.
    assert (H2 : char_in "#" "pizza_order" = false) by reflexivity.
    apply (proj2 (proj1 (proj2 (proj2 C9_join_numbered_name))
             (Some "a") (Some (NInt 5)) None 2%nat format_main "pizza_order" H1 H2) "05").
    reflexivity.
  - assert (H0 : no_number None) by (left; reflexivity).
    assert (H1 : "pizza_#_order" <> "") by discriminate.
    assert (H2 : char_in "#" "pizza_#_order" = true) by reflexivity.
    exact (proj1 (proj2 (proj2 (proj2 C9_join_numbered_name)))
             None None None 3%nat format_main "pizza_#_order" H0 H1 H2).
  - assert (H0 : no_number (Some (NStr ""))) by (right; reflexivity).
    exact (proj2 (proj2 (proj2 (proj2 (proj2 C9_join_numbered_name))))
             "pizza_" (Some (NStr "")) "_order" 3%nat H0).
Defined.

End JoinNumberedName.

(** ** The reversible-call wrapper *)

Section ReversibleCall.
Import Py UI.

Lemma run_returns (self : undoableCaller) (a : list val) (kw : gmap string val) (v : val) :
  uiFunction self (call_args self a) (call_kwargs self kw) = Ok v ->
  runUndoable self a kw
  = (Ok VNone, [OpenChunk; Called (call_args self a) (call_kwargs self kw); CloseChunk]).
Proof.
  intros H. unfold runUndoable, seq, try_finally, try_except, call, cleanup, seq, emit.
  cbn. rewrite H. reflexivity.
Qed.

Lemma run_raises (self : undoableCaller) (a : list val) (kw : gmap string val) (e : exn) :
  uiFunction self (call_args self a) (call_kwargs self kw) = Raise e ->
  runUndoable self a kw
  = let tr := [OpenChunk; Called (call_args self a) (call_kwargs self kw); CloseChunk] in
    if is_Exception (exn_class e) then
      match error_command e with
      | Ok cmd => (Ok VNone, tr ++ [EvalDeferred cmd])
      | Raise e' => (Raise e', tr)
      end
    else (Ok VNone, tr).
Proof.
  intros H. unfold runUndoable, seq, try_finally, try_except, call, cleanup, seq, emit.
  cbn. rewrite H.
  destruct (is_Exception (exn_class e)); cbn; [| reflexivity].
  destruct (error_command e); reflexivity.
Qed.

Lemma join_args_strings (l : list val) :
  forallb is_str l = true -> exists j, join_args l = Ok j.
Proof.
  induction l as [| v l IH]; intros H; [eexists; reflexivity |].
  simpl in H. apply andb_true_iff in H as [Hv Hl].
  destruct v; try discriminate Hv. simpl.
  destruct (IH Hl) as [j Hj]. rewrite Hj.
  destruct l; eexists; reflexivity.
Qed.

(** [join_args] on strings is ['; '.join]. *)
Lemma join_args_concat (ss : list string) :
  join_args (map VStr ss) = Ok (String.concat "; " ss).
Proof.
  induction ss as [| s ss IH]; [reflexivity |].
  cbn [map join_args String.concat].
  destruct ss as [| s' ss]; [reflexivity |].
  cbn [map] in IH |- *. rewrite IH. reflexivity.
Qed.

Lemma all_strings (l : list val) :
  forallb is_str l = true -> exists ss, l = map VStr ss.
Proof.
  induction l as [| v l IH]; intros H; [now exists [] |].
  simpl in H. apply andb_true_iff in H as [Hv Hl].
  destruct v; try discriminate Hv.
  destruct (IH Hl) as [ss ->]. now exists (s :: ss).
Qed.

(** C1, as the code has it: every call of the wrapper closes the undo
    chunk exactly once, whether the wrapped function returns or raises;
    when it raises an [Exception] whose arguments are all strings, the
    wrapper queues the deferred host error command and then returns
    [None]: the [return] of the [finally] block discards the error,
    which does not reach the caller. The command queued is the text
    [error "<class name>: <arguments>"], the arguments joined by
    ['; '] with every line break replaced by a space. *)
Theorem C1_wrapper_closes_once_and_returns
    (self : undoableCaller) (a : list val) (kw : gmap string val) :
  closes (snd (runUndoable self a kw)) = 1%nat /\
  (forall v,
      uiFunction self (call_args self a) (call_kwargs self kw) = Ok v ->
      runUndoable self a kw
      = (Ok VNone,
         [OpenChunk; Called (call_args self a) (call_kwargs self kw); CloseChunk])) /\
  (forall e,
      uiFunction self (call_args self a) (call_kwargs self kw) = Raise e ->
      is_Exception (exn_class e) = true ->
      forallb is_str (exn_args e) = true ->
      exists cmd ss,
        exn_args e = map VStr ss /\
        cmd = ("error " ++ dquote ++ class_name (exn_class e) ++ ": "
               ++ flatten (String.concat "; " ss) ++ dquote)%string /\
        error_command e = Ok cmd /\
        runUndoable self a kw
        = (Ok VNone,
           [OpenChunk; Called (call_args self a) (call_kwargs self kw); CloseChunk;
            EvalDeferred cmd])).
Proof.
  split; [| split].
  - destruct (uiFunction self (call_args self a) (call_kwargs self kw)) as [v | e] eqn:E.
    + rewrite (run_returns _ _ _ _ E). reflexivity.
    + rewrite (run_raises _ _ _ _ E).
      destruct (is_Exception (exn_class e)); [| reflexivity].
      destruct (error_command e); reflexivity.
  - intros v H. exact (run_returns _ _ _ _ H).
  - intros e H Hexc Hstr.
    destruct (all_strings _ Hstr) as [ss Hss].
    assert (Hcmd : error_command e
                   = Ok ("error " ++ dquote ++ class_name (exn_class e) ++ ": "
                         ++ flatten (String.concat "; " ss) ++ dquote)%string).
    { unfold error_command. rewrite Hss, join_args_concat. reflexivity. }
    eexists. exists ss. split; [exact Hss |]. split; [reflexivity |].
    split; [exact Hcmd |].
    rewrite (run_raises _ _ _ _ H), Hexc, Hcmd. reflexivity.
Qed.

(** A wrapped operation that fails with two arguments, the second on
    two lines: the command queued names the class and holds both
    arguments on one line, inside double quotes. *)
Lemma C1_wrapper_closes_once_and_returns_witness :
  let e := Exn StandardError
             [VStr "No patch found";
              VStr ("select a surface" ++ String (ascii_of_nat 10) "or a mesh")] in
  let w := Mk (fun _ _ => Raise e) [] ∅ (VBool true) in
  runUndoable w [VBool true] ∅
  = (Ok VNone,
     [OpenChunk; Called [] ∅; CloseChunk;
      EvalDeferred
        ("error " ++ String (ascii_of_nat 34)
           "StandardError: No patch found; select a surface or a mesh"
         ++ String (ascii_of_nat 34) "")%string]).
Proof.
  intros e w.
  assert (H1 : uiFunction w (call_args w [VBool true]) (call_kwargs w ∅) = Raise e)
    by reflexivity.
  assert (H2 : is_Exception (exn_class e) = true) by reflexivity.
  assert (H3 : forallb is_str (exn_args e) = true) by reflexivity.
  destruct (proj2 (proj2 (C1_wrapper_closes_once_and_returns w [VBool true] ∅)) e H1 H2 H3)
    as (cmd & ss & Hss & Hcmd & _ & Hrun).
  subst e. cbn [exn_args] in Hss.
  destruct ss as [| s1 [| s2 [| s3 ss]]]; try discriminate Hss.
  injection Hss as <- <-.
  rewrite Hrun, Hcmd. reflexivity.
Defined.

(** The error the wrapped function raises is not what the caller of
    [runUndoable] gets: the call returns [None]. *)
Lemma C1_error_is_not_reraised :
  let e := error StandardError "Please select a follicle joint first!" in
  let w := Mk (fun _ _ => Raise e) [] ∅ (VBool true) in
  uiFunction w (call_args w []) (call_kwargs w ∅) = Raise e /\
  fst (runUndoable w [] ∅) = Ok VNone /\
  fst (runUndoable w [] ∅) <> Raise e.
Proof.
  intros e w. split; [reflexivity |].
  assert (H : fst (runUndoable w [] ∅) = Ok VNone) by (vm_compute; reflexivity).
  split; [exact H |]. rewrite H. discriminate.
Qed.

End ReversibleCall.

(** ** Moving a unit to another patch *)

Section TransferToPatch.
Import Py Scene Host FollicleJoint.

(** C5, on the code: relocating by closest point without an explicit uv
    reads the unbound name [outVals] right after the nearest uv was
    computed, so the call raises [NameError] and leaves the scene as it
    was: nothing is written and nothing is reconnected. *)
Theorem C5_closest_point_without_uv_raises
    (self : t) (p : string * Surface.patch) (useSmoothedMesh : bool)
    (uvs : list (list Q)) (w : world) :
  transferToPatch self (Ok p) None true useSmoothedMesh (Ok uvs) w
  = (Raise outVals_unbound, w) /\
  transferToPatch self (Ok p) (Some []) true useSmoothedMesh (Ok uvs) w
  = (Raise outVals_unbound, w).
Proof. split; reflexivity. Qed.

(** The path the batch operation takes, with the uv supplied: the base
    parameter becomes the new uv minus the offset between the
    follicle's live parameter and the control node's base parameter. *)
Example transfer_with_explicit_uv :
  let ty := FolJntType.Mk (Some "t/f-j") (Some "j") in
  let u := Mk (Some "aShape") (Some "a") (Some "a_J_") (Some ty) None None in
  let w := World (list_to_map
             [(("a_J_", "pu"), Cell (1 # 5) true); (("a_J_", "pv"), Cell (1 # 2) true);
              (("aShape", "pu"), Cell (1 # 4) false); (("aShape", "pv"), Cell (1 # 2) false)])
             [(("old", "worldMatrix[0]"), ("aShape", "inputWorldMatrix"));
              (("old", "local"), ("aShape", "inputSurface"))] in
  let '(r, w') := transferToPatch u (Ok ("new", Surface.Mesh)) (Some [3 # 4; 1 # 2])
                    true false (Ok []) w in
  r = Ok (VBool true) /\
  (exists c, w_attrs w' !! ("a_J_", "pu") = Some c /\ c_value c == (3 # 4) - ((1 # 4) - (1 # 5))) /\
  w_conns w' = [(("new", "worldMatrix[0]"), ("aShape", "inputWorldMatrix"));
                (("new", "outMesh"), ("aShape", "inputMesh"))].
Proof.
  vm_compute. split; [reflexivity |]. split; [| reflexivity].
  eexists. split; [reflexivity |]. reflexivity.
Qed.

End TransferToPatch.


(** ** Splitting a numbered name

    The loop of [splitNumberedName], for any set [fc] of number
    characters. *)

Section SplitLoop.
Import Py Names.

Variable fc : string.

Lemma chars_app (a b : string) : chars (a ++ b)%string = chars a ++ chars b.
Proof.
  induction a as [| c a IH]; [reflexivity |].
  change (c :: chars (a ++ b)%string = c :: (chars a ++ chars b)). now rewrite IH.
Qed.

Lemma chars_inj (a b : string) : chars a = chars b -> a = b.
Proof.
  intros H. rewrite <- (string_of_list_ascii_of_string a),
    <- (string_of_list_ascii_of_string b). unfold chars in H. now rewrite H.
Qed.

Lemma split_step_inv (st : split_state) (done : list ascii) (c : ascii) :
  split_inv fc st done -> split_inv fc (split_step fc st c) (c :: done).
Proof.
  intros (p & n & s & Hs & Hd & Hn & Hsf & Hph).
  destruct st as [i dl strs]. simpl in *. subst strs.
  unfold split_step; simpl.
  destruct Hph as [(-> & -> & -> & ->) | [(-> & -> & -> & Hne) | (-> & -> & Hne & Hp)]];
    simpl.
  - destruct (char_in c fc) eqn:E; simpl.
    + exists "", (String c ""), s. simpl in *. repeat split; try assumption.
      * now rewrite <- Hd.
      * unfold number_char. now rewrite E.
      * right. left. repeat split. discriminate.
    + exists "", "", (String c s). simpl in *. repeat split.
      * now rewrite <- Hd.
      * unfold number_char at 1. rewrite E. exact Hsf.
      * left. repeat split.
  - destruct (char_in c fc) eqn:E; simpl.
    + exists "", (String c n), s. simpl in *. repeat split; try assumption.
      * now rewrite <- Hd.
      * unfold number_char at 1. rewrite E. exact Hn.
      * right. left. repeat split. discriminate.
    + exists (String c ""), n, s. simpl in *. repeat split; try assumption.
      * now rewrite <- Hd.
      * right. right. repeat split; [assumption |].
        exists "", c. split; [reflexivity | exact E].
  - destruct Hp as (p' & c' & -> & Hc').
    exists (String c (p' ++ String c' "")), n, s. simpl in *.
    repeat split; try assumption.
    + now rewrite <- Hd.
    + right. right. repeat split; [assumption |].
      exists (String c p'), c'. split; [reflexivity | exact Hc'].
Qed.

Lemma split_fold_inv (l : list ascii) (st : split_state) (done : list ascii) :
  split_inv fc st done ->
  split_inv fc (fold_left (split_step fc) l st) (rev l ++ done).
Proof.
  revert st done. induction l as [| c l IH]; intros st done H; [exact H |].
  simpl. rewrite <- app_assoc. simpl. apply IH. now apply split_step_inv.
Qed.

Lemma split_loop_inv (name : string) :
  split_inv fc (split_loop fc name) (chars name).
Proof.
  unfold split_loop.
  pose proof (split_fold_inv (rev (list_ascii_of_string name)) split_init []) as H.
  rewrite rev_involutive, app_nil_r in H. apply H.
  exists "", "", "". repeat split. left. repeat split.
Qed.


Lemma forallb_negb_existsb (f : ascii -> bool) (l : list ascii) :
  forallb (fun c => negb (f c)) l = true -> existsb f l = false.
Proof.
  induction l as [| c l IH]; simpl; [reflexivity |].
  intros H. apply andb_true_iff in H as [Hc Hl].
  apply negb_true_iff in Hc. rewrite Hc. now apply IH.
Qed.

Lemma forallb_nonempty_existsb (f : ascii -> bool) (l : list ascii) :
  l <> [] -> forallb f l = true -> existsb f l = true.
Proof.
  destruct l as [| c l]; [congruence |]. simpl. intros _ H.
  apply andb_true_iff in H as [Hc _]. now rewrite Hc.
Qed.

Lemma chars_nonempty (s : string) : s <> "" -> chars s <> [].
Proof. destruct s; [congruence | discriminate]. Qed.

(** What the loop leaves in [splitStrs], read off the invariant. *)
Lemma split_loop_cases (name : string) :
  (existsb (number_char fc) (chars name) = false /\
   exists s, ss_strs (split_loop fc name) = [""; ""; s]) \/
  (existsb (number_char fc) (chars name) = true /\
   exists p n s, ss_strs (split_loop fc name) = [p; n; s] /\
                 last_run_split fc name p n s).
Proof.
  destruct (split_loop_inv name) as (p & n & s & Hs & Hd & Hn & Hsf & Hph).
  assert (Hname : name = (p ++ n ++ s)%string).
  { apply chars_inj. now rewrite !chars_app. }
  assert (Hex : n <> "" -> existsb (number_char fc) (chars name) = true).
  { intros Hne. rewrite <- Hd, !existsb_app.
    rewrite (forallb_nonempty_existsb _ _ (chars_nonempty _ Hne) Hn).
    now rewrite orb_true_r. }
  destruct Hph as [(_ & _ & -> & ->) | [(_ & _ & -> & Hne) | (_ & _ & Hne & Hp)]].
  - left. split; [| now exists s].
    rewrite <- Hd. simpl. now apply forallb_negb_existsb.
  - right. split; [now apply Hex |]. exists "", n, s.
    repeat split; try assumption. now left.
  - right. split; [now apply Hex |]. exists p, n, s.
    repeat split; try assumption. now right.
Qed.

Lemma truthy_true (s : string) : s <> "" -> truthy s = true.
Proof. destruct s; [congruence | reflexivity]. Qed.

Lemma split_with_number (name : string) :
  existsb (number_char fc) (chars name) = true ->
  exists p n s,
    (if truthy (default "" (ss_strs (split_loop fc name) !! 1%nat))
     then ss_strs (split_loop fc name) else [name; ""; ""]) = [p; n; s] /\
    last_run_split fc name p n s.
Proof.
  intros H. destruct (split_loop_cases name) as [[H' _] | [_ (p & n & s & Hs & Hsp)]];
    [congruence |].
  exists p, n, s. split; [| exact Hsp]. rewrite Hs. simpl.
  destruct Hsp as (_ & Hne & _). now rewrite (truthy_true _ Hne).
Qed.

Lemma split_without_number (name : string) :
  existsb (number_char fc) (chars name) = false ->
  (if truthy (default "" (ss_strs (split_loop fc name) !! 1%nat))
   then ss_strs (split_loop fc name) else [name; ""; ""]) = [name; ""; ""].
Proof.
  intros H. destruct (split_loop_cases name) as [[_ [s Hs]] | [H' _]]; [| congruence].
  rewrite Hs. reflexivity.
Qed.

(** A list is cut in one way only into a run of characters that pass a
    test and a rest that is empty or starts with one that fails it. *)
Lemma span_unique (f : ascii -> bool) (l1 l2 r1 r2 : list ascii) :
  forallb f l1 = true -> forallb f l2 = true ->
  (r1 = [] \/ exists c r, r1 = c :: r /\ f c = false) ->
  (r2 = [] \/ exists c r, r2 = c :: r /\ f c = false) ->
  l1 ++ r1 = l2 ++ r2 -> l1 = l2 /\ r1 = r2.
Proof.
  revert l2. induction l1 as [| a l1 IH]; intros [| b l2] H1 H2 Hr1 Hr2 E; simpl in *.
  - now split.
  - exfalso. apply andb_true_iff in H2 as [Hb _].
    destruct Hr1 as [-> | (c & r & -> & Hc)]; [discriminate E |].
    injection E as -> _. congruence.
  - exfalso. apply andb_true_iff in H1 as [Ha _].
    destruct Hr2 as [-> | (c & r & -> & Hc)]; [discriminate E |].
    injection E as <- _. congruence.
  - apply andb_true_iff in H1 as [_ H1]. apply andb_true_iff in H2 as [_ H2].
    injection E as -> E. destruct (IH l2 H1 H2 Hr1 Hr2 E) as [-> ->]. now split.
Qed.

Lemma forallb_rev (f : ascii -> bool) (l : list ascii) :
  forallb f (rev l) = forallb f l.
Proof.
  induction l as [| c l IH]; [reflexivity |].
  simpl. rewrite forallb_app, IH. simpl. rewrite andb_true_r. apply andb_comm.
Qed.

Lemma last_run_split_unique (name p n s p' n' s' : string) :
  last_run_split fc name p n s -> last_run_split fc name p' n' s' ->
  p = p' /\ n = n' /\ s = s'.
Proof.
  intros (E & Hne & Hn & Hs & Hp) (E' & Hne' & Hn' & Hs' & Hp').
  assert (R : rev (chars s) ++ (rev (chars n) ++ rev (chars p))
              = rev (chars s') ++ (rev (chars n') ++ rev (chars p'))).
  { rewrite <- !rev_app_distr, <- !app_assoc, <- !chars_app. now rewrite <- E, <- E'. }
  assert (Hhead : forall m q : string, m <> "" ->
            forallb (number_char fc) (chars m) = true ->
            exists c r, rev (chars m) ++ rev (chars q) = c :: r /\
                        negb (number_char fc c) = false).
  { intros m q Hm Hall. rewrite <- forallb_rev in Hall.
    destruct (rev (chars m)) as [| c r] eqn:Er.
    - exfalso. apply (chars_nonempty _ Hm).
      rewrite <- (rev_involutive (chars m)), Er. reflexivity.
    - exists c, (r ++ rev (chars q)). split; [reflexivity |].
      simpl in Hall. apply andb_true_iff in Hall as [Hc _]. now rewrite Hc. }
  assert (Hrest : forall q : string,
            (q = "" \/ exists q' c, q = (q' ++ String c "")%string /\
                                    number_char fc c = false) ->
            rev (chars q) = [] \/
            exists c r, rev (chars q) = c :: r /\ number_char fc c = false).
  { intros q [-> | (q' & c & -> & Hc)]; [now left | right].
    exists c, (rev (chars q')). split; [| exact Hc].
    rewrite chars_app, rev_app_distr. reflexivity. }
  destruct (span_unique (fun c => negb (number_char fc c)) _ _ _ _
              (eq_trans (forallb_rev _ _) Hs) (eq_trans (forallb_rev _ _) Hs')
              (or_intror (Hhead n p Hne Hn)) (or_intror (Hhead n' p' Hne' Hn')) R)
    as [ES R'].
  destruct (span_unique (number_char fc) _ _ _ _
              (eq_trans (forallb_rev _ _) Hn) (eq_trans (forallb_rev _ _) Hn')
              (Hrest p Hp) (Hrest p' Hp') R') as [EN EP].
  assert (inj : forall a b : string, rev (chars a) = rev (chars b) -> a = b).
  { intros a b H. apply chars_inj.
    rewrite <- (rev_involutive (chars a)), <- (rev_involutive (chars b)). now rewrite H. }
  repeat split; now apply inj.
Qed.

End SplitLoop.

Section SplitNumberedName.
Import Py Names.

Example findChars_default : findChars None = "0123456789".
Proof. reflexivity. Qed.

Lemma findChars_alternate (a : string) : a <> "" -> findChars (Some a) = a.
Proof. intros H. unfold findChars. now rewrite (truthy_true a H). Qed.

(** C8: [splitNumberedName] cuts a name that has a number character at
    its last run of number characters (the digits, or the alternate set
    when a non-empty one is given): the number is that run, the suffix
    what follows it, the prefix what precedes it, and no other cut has
    these properties; a name without number character comes back whole
    as the prefix.  So "this45name" gives ("this", "45", "name") and
    "noNumbers" gives ("noNumbers", "", ""). *)
Theorem C8_split_numbered_name (name : string) (alt : option string) :
  (findChars None = digits /\
   forall a, a <> "" -> findChars (Some a) = a) /\
  (existsb (number_char (findChars alt)) (chars name) = true ->
   exists p n s,
     splitNumberedName name alt = [p; n; s] /\
     last_run_split (findChars alt) name p n s /\
     forall p' n' s', last_run_split (findChars alt) name p' n' s' ->
                      p' = p /\ n' = n /\ s' = s) /\
  (existsb (number_char (findChars alt)) (chars name) = false ->
   splitNumberedName name alt = [name; ""; ""]) /\
  splitNumberedName "this45name" None = ["this"; "45"; "name"] /\
  splitNumberedName "noNumbers" None = ["noNumbers"; ""; ""].
Proof.
  split; [split; [reflexivity | exact findChars_alternate] |].
  split; [| split; [| split; reflexivity]].
  - intros H. unfold splitNumberedName.
    destruct (split_with_number (findChars alt) name H) as (p & n & s & Hs & Hl).
    exists p, n, s. split; [exact Hs |]. split; [exact Hl |].
    intros p' n' s' Hl'.
    exact (last_run_split_unique _ _ _ _ _ _ _ _ Hl' Hl).
  - intros H. unfold splitNumberedName. now apply split_without_number.
Qed.

Lemma C8_split_numbered_name_witness :
  existsb (number_char (findChars None)) (chars "L_arm12_fol3_jnt") = true /\
  exists p n s,
    splitNumberedName "L_arm12_fol3_jnt" None = [p; n; s] /\
    last_run_split (findChars None) "L_arm12_fol3_jnt" p n s.
Proof.
  split; [reflexivity |].
  destruct (C8_split_numbered_name "L_arm12_fol3_jnt" None) as (_ & H & _).
  destruct (H eq_refl) as (p & n & s & Hs & Hl & _).
  exists p, n, s. split; assumption.
Defined.

Example split_last_run :
  splitNumberedName "L_arm12_fol3_jnt" None = ["L_arm12_fol"; "3"; "_jnt"].
Proof. reflexivity. Qed.

Example split_alternate :
  splitNumberedName "fol_##_jnt" (Some "#") = ["fol_"; "##"; "_jnt"].
Proof. reflexivity. Qed.

(** C10: the three parts [splitNumberedName] returns, put end to end,
    are the name it was given, whatever the set of number characters. *)
Theorem C10_split_concatenates (name : string) (alt : option string) :
  exists p n s,
    splitNumberedName name alt = [p; n; s] /\ (p ++ n ++ s)%string = name.
Proof.
  unfold splitNumberedName.
  destruct (split_loop_cases (findChars alt) name)
    as [[_ [s Hs]] | [_ (p & n & s & Hs & Hl)]].
  - exists name, "", "". rewrite Hs. split; [reflexivity |].
    change ((name ++ "")%string = name). apply append_empty_r.
  - exists p, n, s. rewrite Hs. simpl.
    destruct Hl as (E & Hne & _). rewrite (truthy_true _ Hne).
    split; [reflexivity | now symmetry].
Qed.

End SplitNumberedName.

(** ** Freezing the offsets into the base parameters *)

Section Freeze.
Import Py Scene Host FollicleJoint.

Lemma attr_of_some (n a : string) (w : world) (cl : cell) :
  w_attrs w !! (n, a) = Some cl -> attr_of (Some n) a w = (Ok (n, a), w).
Proof.
  intros H. unfold attr_of, attributeQuery.
  rewrite bool_decide_eq_true_2; [reflexivity | now exists cl].
Qed.

Lemma getAttr_some (a : attr) (w : world) (cl : cell) :
  w_attrs w !! a = Some cl -> getAttr a w = (Ok (c_value cl), w).
Proof. intros H. unfold getAttr. now rewrite H. Qed.

Lemma setAttr_free (a : attr) (v : Q) (w : world) (cl : cell) :
  w_attrs w !! a = Some cl -> c_free cl = true ->
  setAttr a v w = (Ok tt, World (<[a := Cell v true]> (w_attrs w)) (w_conns w)).
Proof. intros H F. unfold setAttr. now rewrite H, F. Qed.

Lemma setAttr_locked (a : attr) (v : Q) (w : world) (cl : cell) :
  w_attrs w !! a = Some cl -> c_free cl = false ->
  exists e, setAttr a v w = (Raise e, w) /\ exn_class e = RuntimeError.
Proof. intros H F. unfold setAttr. rewrite H, F. eexists. split; reflexivity. Qed.

Lemma attributeQuery_some (w : world) (n a : string) (cl : cell) :
  w_attrs w !! (n, a) = Some cl -> attributeQuery w n a = true.
Proof. intros H. unfold attributeQuery. apply bool_decide_eq_true_2. now exists cl. Qed.

(** What [freeze] does up to the [try]: the test of the control node,
    the test of the offsets, and the capture of the follicle's values. *)
Lemma freeze_head (self : t) (c f : string) (w : world)
    (cpu cou cov fpu fpv : cell) :
  controlObj self = Ok (Some c) -> fol self = Some f -> c <> f ->
  w_attrs w !! (c, "pu") = Some cpu ->
  w_attrs w !! (c, "ou") = Some cou ->
  w_attrs w !! (c, "ov") = Some cov ->
  w_attrs w !! (f, "pu") = Some fpu ->
  w_attrs w !! (f, "pv") = Some fpv ->
  freeze self w =
  if offsets_nonzero (c_value cou) (c_value cov) then
    try_except_else
      (let! ou := attr_of (Some c) "ou" in
       let! _ := setAttr ou 0 in
       let! ov := attr_of (Some c) "ov" in
       setAttr ov 0)
      (fun k => match k with RuntimeError => true | _ => false end)
      (fun _ => raise (not_frozen c))
      (fun _ =>
         let! pu := attr_of (Some c) "pu" in
         let! _ := setAttr pu (c_value fpu) in
         let! pv := attr_of (Some c) "pv" in
         let! _ := setAttr pv (c_value fpv) in
         ret (VBool true)) w
  else (Ok VNone, w).
Proof.
  intros Hc Hf Hne Hpu Hou Hov Hfpu Hfpv.
  unfold offsets_nonzero.
  cbv [freeze mbind lift ret]. rewrite Hc, Hf. cbv beta iota.
  rewrite bool_decide_eq_true_2 by congruence.
  rewrite (attributeQuery_some _ _ _ _ Hpu).
  rewrite (attr_of_some _ _ _ _ Hou). cbv beta iota.
  rewrite (getAttr_some _ _ _ Hou). cbv beta iota.
  destruct (Qeq_bool (c_value cou) 0); cbv beta iota delta [negb orb].
  - rewrite (attr_of_some _ _ _ _ Hov). cbv beta iota.
    rewrite (getAttr_some _ _ _ Hov). cbv beta iota.
    destruct (Qeq_bool (c_value cov) 0); cbv beta iota delta [negb orb];
      [reflexivity |].
    rewrite (attr_of_some _ _ _ _ Hfpu). cbv beta iota.
    rewrite (getAttr_some _ _ _ Hfpu). cbv beta iota.
    rewrite (attr_of_some _ _ _ _ Hfpv). cbv beta iota.
    rewrite (getAttr_some _ _ _ Hfpv). reflexivity.
  - rewrite (attr_of_some _ _ _ _ Hfpu). cbv beta iota.
    rewrite (getAttr_some _ _ _ Hfpu). cbv beta iota.
    rewrite (attr_of_some _ _ _ _ Hfpv). cbv beta iota.
    rewrite (getAttr_some _ _ _ Hfpv). reflexivity.
Qed.

Lemma offsets_nonzero_false (ou ov : Q) :
  offsets_nonzero ou ov = false <-> ou == 0 /\ ov == 0.
Proof.
  unfold offsets_nonzero. rewrite orb_false_iff, !negb_false_iff, !Qeq_bool_iff.
  reflexivity.
Qed.

Lemma other_attr (c a b : string) : a <> b -> (c, a) <> (c, b).
Proof. congruence. Qed.

(** One call on the host, read off the hypotheses on the scene. *)
Ltac host_lookup :=
  cbn [w_attrs w_conns];
  rewrite ?lookup_insert_ne by (apply other_attr; discriminate);
  eassumption.

Ltac host_step :=
  cbv beta iota; cbn [w_attrs w_conns];
  first [ erewrite attr_of_some by host_lookup
        | erewrite setAttr_free by host_lookup ].

End Freeze.

(** ** Freezing on the host that re-evaluates *)

Section FreezeLive.
Import Py Scene Host FollicleJoint.

Variable settle : world -> world.
Hypothesis settles : Live.evaluation settle.

(** On the host that re-evaluates nothing, [Live.freeze] is [freeze]. *)
Lemma freeze_at_rest (self : t) (w : world) :
  Live.freeze (fun w => w) self w = freeze self w.
Proof. reflexivity. Qed.

Lemma written_self (a : attr) (v : Q) (w : world) :
  w_attrs (Live.written settle a v w) !! a = Some (Cell v true).
Proof.
  destruct settles as (_ & _ & K & _). unfold Live.written.
  apply K; [| reflexivity]. cbn [w_attrs]. apply lookup_insert_eq.
Qed.

Lemma written_free (a b : attr) (v : Q) (w : world) (c : cell) :
  w_attrs w !! b = Some c -> c_free c = true -> a <> b ->
  w_attrs (Live.written settle a v w) !! b = Some c.
Proof.
  intros H F N. destruct settles as (_ & _ & K & _). unfold Live.written.
  apply K; [| exact F]. cbn [w_attrs]. now rewrite lookup_insert_ne.
Qed.

Lemma written_held (a b : attr) (v : Q) (w : world) (c : cell) :
  w_attrs w !! b = Some c -> c_free c = false -> a <> b ->
  exists c', w_attrs (Live.written settle a v w) !! b = Some c' /\ c_free c' = false.
Proof.
  intros H F N. destruct settles as (_ & _ & _ & K). unfold Live.written.
  apply (K _ b c); [| exact F]. cbn [w_attrs]. now rewrite lookup_insert_ne.
Qed.

Lemma written_some (a b : attr) (v : Q) (w : world) (c : cell) :
  w_attrs w !! b = Some c -> a <> b ->
  exists c', w_attrs (Live.written settle a v w) !! b = Some c' /\
             c_free c' = c_free c.
Proof.
  intros H N. destruct (c_free c) eqn:F.
  - exists c. split; [now apply written_free | exact F].
  - now apply (written_held a b v w c).
Qed.

Lemma live_setAttr_free (a : attr) (v : Q) (w : world) (cl : cell) :
  w_attrs w !! a = Some cl -> c_free cl = true ->
  Live.setAttr settle a v w = (Ok tt, Live.written settle a v w).
Proof. intros H F. unfold Live.setAttr. now rewrite H, F. Qed.

Lemma live_setAttr_locked (a : attr) (v : Q) (w : world) (cl : cell) :
  w_attrs w !! a = Some cl -> c_free cl = false ->
  Live.setAttr settle a v w
  = (Raise (error RuntimeError
       "setAttr: The attribute is locked or connected and cannot be modified."), w).
Proof. intros H F. unfold Live.setAttr. now rewrite H, F. Qed.

(** What [freeze] does up to the [try]: nothing is written yet, so the
    host that re-evaluates reads what the host at rest reads. *)
Lemma live_freeze_head (self : t) (c f : string) (w : world)
    (cpu cou cov fpu fpv : cell) :
  controlObj self = Ok (Some c) -> fol self = Some f -> c <> f ->
  w_attrs w !! (c, "pu") = Some cpu ->
  w_attrs w !! (c, "ou") = Some cou ->
  w_attrs w !! (c, "ov") = Some cov ->
  w_attrs w !! (f, "pu") = Some fpu ->
  w_attrs w !! (f, "pv") = Some fpv ->
  Live.freeze settle self w =
  if offsets_nonzero (c_value cou) (c_value cov) then
    try_except_else
      (let! ou := attr_of (Some c) "ou" in
       let! _ := Live.setAttr settle ou 0 in
       let! ov := attr_of (Some c) "ov" in
       Live.setAttr settle ov 0)
      (fun k => match k with RuntimeError => true | _ => false end)
      (fun _ => raise (not_frozen c))
      (fun _ =>
         let! pu := attr_of (Some c) "pu" in
         let! _ := Live.setAttr settle pu (c_value fpu) in
         let! pv := attr_of (Some c) "pv" in
         let! _ := Live.setAttr settle pv (c_value fpv) in
         ret (VBool true)) w
  else (Ok VNone, w).
Proof.
  intros Hc Hf Hne Hpu Hou Hov Hfpu Hfpv.
  unfold offsets_nonzero.
  cbv [Live.freeze mbind lift ret]. rewrite Hc, Hf. cbv beta iota.
  rewrite bool_decide_eq_true_2 by congruence.
  rewrite (attributeQuery_some _ _ _ _ Hpu).
  rewrite (attr_of_some _ _ _ _ Hou). cbv beta iota.
  rewrite (getAttr_some _ _ _ Hou). cbv beta iota.
  destruct (Qeq_bool (c_value cou) 0); cbv beta iota delta [negb orb].
  - rewrite (attr_of_some _ _ _ _ Hov). cbv beta iota.
    rewrite (getAttr_some _ _ _ Hov). cbv beta iota.
    destruct (Qeq_bool (c_value cov) 0); cbv beta iota delta [negb orb];
      [reflexivity |].
    rewrite (attr_of_some _ _ _ _ Hfpu). cbv beta iota.
    rewrite (getAttr_some _ _ _ Hfpu). cbv beta iota.
    rewrite (attr_of_some _ _ _ _ Hfpv). cbv beta iota.
    rewrite (getAttr_some _ _ _ Hfpv). reflexivity.
  - rewrite (attr_of_some _ _ _ _ Hfpu). cbv beta iota.
    rewrite (getAttr_some _ _ _ Hfpu). cbv beta iota.
    rewrite (attr_of_some _ _ _ _ Hfpv). cbv beta iota.
    rewrite (getAttr_some _ _ _ Hfpv). reflexivity.
Qed.

(** The [try] block: both offsets are set to zero, each write followed
    by the host's re-evaluation. *)
Lemma zeroing (c : string) (w : world) (cou cov : cell) :
  w_attrs w !! (c, "ou") = Some cou -> w_attrs w !! (c, "ov") = Some cov ->
  (let! ou := attr_of (Some c) "ou" in
   let! _ := Live.setAttr settle ou 0 in
   let! ov := attr_of (Some c) "ov" in
   Live.setAttr settle ov 0) w
  = if c_free cou then
      if c_free cov
      then (Ok tt, Live.written settle (c, "ov") 0 (Live.written settle (c, "ou") 0 w))
      else (Raise (error RuntimeError
              "setAttr: The attribute is locked or connected and cannot be modified."),
            Live.written settle (c, "ou") 0 w)
    else (Raise (error RuntimeError
            "setAttr: The attribute is locked or connected and cannot be modified."), w).
Proof.
  intros Hou Hov. cbv [mbind].
  rewrite (attr_of_some _ _ _ _ Hou). cbv beta iota.
  destruct (c_free cou) eqn:Fou.
  2: { now rewrite (live_setAttr_locked _ 0 _ _ Hou Fou). }
  rewrite (live_setAttr_free _ 0 _ _ Hou Fou). cbv beta iota.
  destruct (written_some (c, "ou") (c, "ov") 0 w cov Hov) as (cov' & Hov' & Fov');
    [apply other_attr; discriminate |].
  rewrite (attr_of_some _ _ _ _ Hov'). cbv beta iota.
  destruct (c_free cov) eqn:Fov.
  - now rewrite (live_setAttr_free _ 0 _ _ Hov' Fov').
  - now rewrite (live_setAttr_locked _ 0 _ _ Hov' Fov').
Qed.

(** The [else] block: the captured values [endU], [endV] are written
    to the base parameters. *)
Lemma writing (c : string) (endU endV : Q) (w : world) (cpu cpv : cell) :
  w_attrs w !! (c, "pu") = Some cpu -> w_attrs w !! (c, "pv") = Some cpv ->
  (let! pu := attr_of (Some c) "pu" in
   let! _ := Live.setAttr settle pu endU in
   let! pv := attr_of (Some c) "pv" in
   let! _ := Live.setAttr settle pv endV in
   ret (VBool true)) w
  = if c_free cpu then
      if c_free cpv
      then (Ok (VBool true),
            Live.written settle (c, "pv") endV (Live.written settle (c, "pu") endU w))
      else (Raise (error RuntimeError
              "setAttr: The attribute is locked or connected and cannot be modified."),
            Live.written settle (c, "pu") endU w)
    else (Raise (error RuntimeError
            "setAttr: The attribute is locked or connected and cannot be modified."), w).
Proof.
  intros Hpu Hpv. cbv [mbind ret].
  rewrite (attr_of_some _ _ _ _ Hpu). cbv beta iota.
  destruct (c_free cpu) eqn:Fpu.
  2: { now rewrite (live_setAttr_locked _ endU _ _ Hpu Fpu). }
  rewrite (live_setAttr_free _ endU _ _ Hpu Fpu). cbv beta iota.
  destruct (written_some (c, "pu") (c, "pv") endU w cpv Hpv) as (cpv' & Hpv' & Fpv');
    [apply other_attr; discriminate |].
  rewrite (attr_of_some _ _ _ _ Hpv'). cbv beta iota.
  destruct (c_free cpv) eqn:Fpv.
  - now rewrite (live_setAttr_free _ endV _ _ Hpv' Fpv').
  - now rewrite (live_setAttr_locked _ endV _ _ Hpv' Fpv').
Qed.

(** An attribute of the control node other than the offsets, after the
    offsets were zeroed: still there, as free as it was, and unchanged
    when free. *)
Lemma after_zeroing (c a : string) (w : world) (cl : cell) :
  w_attrs w !! (c, a) = Some cl -> a <> "ou" -> a <> "ov" ->
  exists cl',
    w_attrs (Live.written settle (c, "ov") 0 (Live.written settle (c, "ou") 0 w))
      !! (c, a) = Some cl' /\
    c_free cl' = c_free cl /\ (c_free cl = true -> cl' = cl).
Proof.
  intros H Nou Nov.
  assert (N1 : (c, "ou") <> (c, a)) by congruence.
  assert (N2 : (c, "ov") <> (c, a)) by congruence.
  destruct (c_free cl) eqn:F.
  - exists cl. split; [| now split].
    apply written_free; [| exact F | exact N2].
    now apply written_free.
  - destruct (written_held (c, "ou") (c, a) 0 w cl H F N1) as (c1 & H1 & F1).
    destruct (written_held (c, "ov") (c, a) 0 _ c1 H1 F1 N2) as (c2 & H2 & F2).
    exists c2. split; [exact H2 |]. split; [exact F2 | discriminate].
Qed.

(** C3: for a unit whose control node [c] differs from its follicle [f]
    and carries the base parameters and the offsets, on a host that
    re-evaluates the scene after every write. When the offsets are not
    both zero and the control node's offsets and base parameters can
    all be set, [freeze] returns [True] after four writes, in this
    order: both offsets to 0, then the base parameters to the values
    the follicle had at the call, before the offsets were zeroed
    (whatever the follicle shows after that); in the scene it leaves,
    the offsets are 0 and the base parameters hold these values. When
    the offsets are not both zero and one of them cannot be set, it
    raises the "not able to be frozen" error and writes no base
    parameter: the scene is the given one, or the given one with the
    first offset zeroed, and a base parameter free to change is as
    before. When both offsets are zero it returns [None] and the scene
    is as before. When the offsets can be set but a base parameter
    cannot, the host's [RuntimeError] leaves [freeze] after the offsets
    were zeroed, and the offsets stay zero. *)
Theorem C3_freeze (self : t) (c f : string) (w : world)
    (cpu cpv cou cov fpu fpv : cell) :
  controlObj self = Ok (Some c) -> fol self = Some f -> c <> f ->
  w_attrs w !! (c, "pu") = Some cpu ->
  w_attrs w !! (c, "pv") = Some cpv ->
  w_attrs w !! (c, "ou") = Some cou ->
  w_attrs w !! (c, "ov") = Some cov ->
  w_attrs w !! (f, "pu") = Some fpu ->
  w_attrs w !! (f, "pv") = Some fpv ->
  let zeroed :=
    Live.written settle (c, "ov") 0 (Live.written settle (c, "ou") 0 w) in
  (~ (c_value cou == 0 /\ c_value cov == 0) ->
   c_free cou = true -> c_free cov = true ->
   c_free cpu = true -> c_free cpv = true ->
   let w' := Live.written settle (c, "pv") (c_value fpv)
               (Live.written settle (c, "pu") (c_value fpu) zeroed) in
   Live.freeze settle self w = (Ok (VBool true), w') /\
   w_attrs w' !! (c, "ou") = Some (Cell 0 true) /\
   w_attrs w' !! (c, "ov") = Some (Cell 0 true) /\
   w_attrs w' !! (c, "pu") = Some (Cell (c_value fpu) true) /\
   w_attrs w' !! (c, "pv") = Some (Cell (c_value fpv) true)) /\
  (~ (c_value cou == 0 /\ c_value cov == 0) ->
   c_free cou = false \/ c_free cov = false ->
   let w' := if c_free cou then Live.written settle (c, "ou") 0 w else w in
   Live.freeze settle self w = (Raise (not_frozen c), w') /\
   exn_class (not_frozen c) = StandardError /\
   (c_free cpu = true -> w_attrs w' !! (c, "pu") = Some cpu) /\
   (c_free cpv = true -> w_attrs w' !! (c, "pv") = Some cpv)) /\
  (c_value cou == 0 /\ c_value cov == 0 -> Live.freeze settle self w = (Ok VNone, w)) /\
  (~ (c_value cou == 0 /\ c_value cov == 0) ->
   c_free cou = true -> c_free cov = true ->
   c_free cpu = false \/ c_free cpv = false ->
   let w' := if c_free cpu
             then Live.written settle (c, "pu") (c_value fpu) zeroed
             else zeroed in
   exists e,
     Live.freeze settle self w = (Raise e, w') /\
     exn_class e = RuntimeError /\
     w_attrs w' !! (c, "ou") = Some (Cell 0 true) /\
     w_attrs w' !! (c, "ov") = Some (Cell 0 true)).
Proof.
  intros Hc Hf Hne Hpu Hpv Hou Hov Hfpu Hfpv zeroed.
  rewrite (live_freeze_head self c f w cpu cou cov fpu fpv Hc Hf Hne Hpu Hou Hov Hfpu Hfpv).
  destruct (offsets_nonzero (c_value cou) (c_value cov)) eqn:Enz.
  2: { apply offsets_nonzero_false in Enz.
       split; [intros H; contradiction |]. split; [intros H; contradiction |].
       split; [reflexivity | intros H; contradiction]. }
  assert (Hnz : ~ (c_value cou == 0 /\ c_value cov == 0)).
  { intros H. apply offsets_nonzero_false in H. congruence. }
  assert (Zou : w_attrs zeroed !! (c, "ou") = Some (Cell 0 true)).
  { subst zeroed. apply written_free; [apply written_self | reflexivity |].
    apply other_attr; discriminate. }
  assert (Zov : w_attrs zeroed !! (c, "ov") = Some (Cell 0 true)).
  { subst zeroed. apply written_self. }
  destruct (after_zeroing c "pu" w cpu Hpu) as (cpu' & Hpu' & Fpu' & Epu);
    [discriminate | discriminate |].
  destruct (after_zeroing c "pv" w cpv Hpv) as (cpv' & Hpv' & Fpv' & Epv);
    [discriminate | discriminate |].
  fold zeroed in Hpu', Hpv'.
  unfold try_except_else. rewrite (zeroing c w cou cov Hou Hov).
  split; [| split; [| split]].
  - intros _ Fou Fov Fpu Fpv. rewrite Fou, Fov. fold zeroed.
    rewrite (writing c _ _ zeroed cpu' cpv' Hpu' Hpv'), Fpu', Fpv', Fpu, Fpv.
    split; [reflexivity |].
    split; [| split; [| split]].
    + apply written_free; [| reflexivity | apply other_attr; discriminate].
      apply written_free; [exact Zou | reflexivity | apply other_attr; discriminate].
    + apply written_free; [| reflexivity | apply other_attr; discriminate].
      apply written_free; [exact Zov | reflexivity | apply other_attr; discriminate].
    + apply written_free; [apply written_self | reflexivity |].
      apply other_attr; discriminate.
    + apply written_self.
  - intros _ Hlocked.
    destruct (c_free cou) eqn:Fou.
    + destruct Hlocked as [Fou' | Fov]; [discriminate |]. rewrite Fov.
      cbn [exn_class error]. split; [reflexivity |]. split; [reflexivity |].
      split; intros F.
      * apply written_free; [exact Hpu | exact F | apply other_attr; discriminate].
      * apply written_free; [exact Hpv | exact F | apply other_attr; discriminate].
    + cbn [exn_class error]. split; [reflexivity |]. split; [reflexivity |].
      split; intros _; assumption.
  - intros H. contradiction.
  - intros _ Fou Fov Hlocked. rewrite Fou, Fov. fold zeroed.
    rewrite (writing c _ _ zeroed cpu' cpv' Hpu' Hpv'), Fpu', Fpv'.
    destruct (c_free cpu) eqn:Fpu.
    + destruct Hlocked as [F | Fpv]; [discriminate |]. rewrite Fpv.
      eexists. split; [reflexivity |]. split; [reflexivity |].
      split; (apply written_free; [assumption | reflexivity |
                                   apply other_attr; discriminate]).
    + eexists. split; [reflexivity |]. split; [reflexivity |].
      split; assumption.
Qed.

End FreezeLive.

Section FreezeSample.
Import Py Scene Host FollicleJoint.

Lemma resolved_none (n p o : string) (m : gmap (string * string) cell) (a : attr) :
  m !! a = None -> Sample.resolved n p o m !! a = None.
Proof.
  intros H. unfold Sample.resolved.
  destruct (m !! ((n ++ "_J_")%string, p)); [| exact H].
  destruct (m !! ((n ++ "_J_")%string, o)); [| exact H].
  destruct (m !! ((n ++ "Shape")%string, p)) as [s |] eqn:E; [| exact H].
  destruct (c_free s); [exact H |].
  rewrite lookup_insert_ne; [exact H |]. intros <-.
  pose proof (eq_trans (eq_sym E) H) as X. discriminate X.
Qed.

Lemma resolved_free (n p o : string) (m : gmap (string * string) cell) (a : attr)
    (c : cell) :
  m !! a = Some c -> c_free c = true -> Sample.resolved n p o m !! a = Some c.
Proof.
  intros H F. unfold Sample.resolved.
  destruct (m !! ((n ++ "_J_")%string, p)); [| exact H].
  destruct (m !! ((n ++ "_J_")%string, o)); [| exact H].
  destruct (m !! ((n ++ "Shape")%string, p)) as [s |] eqn:E; [| exact H].
  destruct (c_free s) eqn:Fs; [exact H |].
  rewrite lookup_insert_ne; [exact H |]. intros <-.
  pose proof (eq_trans (eq_sym E) H) as X. injection X as ->. congruence.
Qed.

Lemma resolved_held (n p o : string) (m : gmap (string * string) cell) (a : attr)
    (c : cell) :
  m !! a = Some c -> c_free c = false ->
  exists c', Sample.resolved n p o m !! a = Some c' /\ c_free c' = false.
Proof.
  intros H F. unfold Sample.resolved.
  destruct (m !! ((n ++ "_J_")%string, p)); [| now exists c].
  destruct (m !! ((n ++ "_J_")%string, o)); [| now exists c].
  destruct (m !! ((n ++ "Shape")%string, p)) as [s |] eqn:E; [| now exists c].
  destruct (c_free s) eqn:Fs; [now exists c |].
  destruct (decide (((n ++ "Shape")%string, p) = a)) as [<- | N].
  - rewrite lookup_insert_eq. eexists. split; reflexivity.
  - rewrite lookup_insert_ne by exact N. now exists c.
Qed.

(** The re-evaluation of the small scene is one. *)
Lemma sample_settles : Live.evaluation Sample.settle.
Proof.
  unfold Live.evaluation, Sample.settle. cbn [w_attrs w_conns].
  split; [reflexivity |]. split; [| split].
  - intros w a H. now repeat apply resolved_none.
  - intros w a c H F. now repeat apply resolved_free.
  - intros w a c H F.
    destruct (resolved_held "L_brow" "pu" "ou" _ a c H F) as (c1 & H1 & F1).
    destruct (resolved_held "L_brow" "pv" "ov" _ a c1 H1 F1) as (c2 & H2 & F2).
    destruct (resolved_held "R_brow" "pu" "ou" _ a c2 H2 F2) as (c3 & H3 & F3).
    exact (resolved_held "R_brow" "pv" "ov" _ a c3 H3 F3).
Qed.

(** The left unit of the small scene, frozen. *)
Lemma C3_freeze_witness :
  let w' := Live.written Sample.settle ("L_brow_J_", "pv") (5 # 8)
              (Live.written Sample.settle ("L_brow_J_", "pu") (9 # 20)
                 (Live.written Sample.settle ("L_brow_J_", "ov") 0
                    (Live.written Sample.settle ("L_brow_J_", "ou") 0
                       (Sample.scene true)))) in
  Live.freeze Sample.settle Sample.left (Sample.scene true) = (Ok (VBool true), w') /\
  w_attrs w' !! ("L_brow_J_", "ou") = Some (Cell 0 true) /\
  w_attrs w' !! ("L_brow_J_", "ov") = Some (Cell 0 true) /\
  w_attrs w' !! ("L_brow_J_", "pu") = Some (Cell (9 # 20) true) /\
  w_attrs w' !! ("L_brow_J_", "pv") = Some (Cell (5 # 8) true).
Proof.
  refine (proj1 (C3_freeze Sample.settle sample_settles
                   Sample.left "L_brow_J_" "L_browShape" (Sample.scene true)
                   (Cell (1 # 5) true) (Cell (1 # 2) true)
                   (Cell (1 # 4) true) (Cell (1 # 8) true)
                   (Cell (9 # 20) false) (Cell (5 # 8) false)
                   _ _ _ _ _ _ _ _ _) _ _ _ _ _).
  - reflexivity.
  - reflexivity.
  - discriminate.
  - vm_compute; reflexivity.
  - vm_compute; reflexivity.
  - vm_compute; reflexivity.
  - vm_compute; reflexivity.
  - vm_compute; reflexivity.
  - vm_compute; reflexivity.
  - intros [H _]. discriminate H.
  - reflexivity.
  - reflexivity.
  - reflexivity.
  - reflexivity.
Defined.

(** The order shows in the small scene: once the offsets are zeroed the
    follicle's parameters have moved to the base parameters, (1/5, 1/2);
    what [freeze] writes is what the follicle showed before, (9/20, 5/8),
    and with it the follicle is back where it was. *)
Example freeze_captures_before_zeroing :
  let zeroed := Live.written Sample.settle ("L_brow_J_", "ov") 0
                  (Live.written Sample.settle ("L_brow_J_", "ou") 0
                     (Sample.scene true)) in
  let w' := snd (Live.freeze Sample.settle Sample.left (Sample.scene true)) in
  (exists c, w_attrs zeroed !! ("L_browShape", "pu") = Some c /\ c_value c == 1 # 5) /\
  (exists c, w_attrs zeroed !! ("L_browShape", "pv") = Some c /\ c_value c == 1 # 2) /\
  w_attrs w' !! ("L_brow_J_", "pu") = Some (Cell (9 # 20) true) /\
  w_attrs w' !! ("L_brow_J_", "pv") = Some (Cell (5 # 8) true) /\
  (exists c, w_attrs w' !! ("L_browShape", "pu") = Some c /\ c_value c == 9 # 20) /\
  (exists c, w_attrs w' !! ("L_browShape", "pv") = Some c /\ c_value c == 5 # 8).
Proof.
  vm_compute.
  repeat split; try reflexivity; eexists; (split; [reflexivity |]); reflexivity.
Qed.

(** With the offsets free to change but the base parameters locked,
    the host's error leaves [freeze] after the offsets were zeroed: the
    error is not the "not able to be frozen" one, the captured values
    are not written, and the follicle has moved. *)
Lemma C3_locked_base_parameter_escapes :
  let '(r, w') := Live.freeze Sample.settle Sample.left (Sample.scene false) in
  (exists e, r = Raise e /\ exn_class e = RuntimeError) /\
  w_attrs w' !! ("L_brow_J_", "ou") = Some (Cell 0 true) /\
  w_attrs w' !! ("L_brow_J_", "ov") = Some (Cell 0 true) /\
  w_attrs w' !! ("L_brow_J_", "pu") = Some (Cell (1 # 5) false) /\
  w_attrs w' !! ("L_brow_J_", "pv") = Some (Cell (1 # 2) false) /\
  (exists c, w_attrs w' !! ("L_browShape", "pu") = Some c /\ c_value c == 1 # 5).
Proof.
  vm_compute. split; [eexists; split; reflexivity |].
  repeat split; try reflexivity. eexists. split; reflexivity.
Qed.

End FreezeSample.

(** ** Copying values to the mirror unit *)

Section MirrorEntries.
Import Py Scene Host FollicleJoint.

Lemma reads_ret {A} (a : A) : reads (ret a).
Proof. intros w. reflexivity. Qed.

Lemma reads_raise {A} (e : exn) : reads (@raise A e).
Proof. intros w. reflexivity. Qed.

Lemma reads_lift {A} (r : result A) : reads (lift r).
Proof. intros w. reflexivity. Qed.

Lemma reads_attr_of (n : option string) (a : string) : reads (attr_of n a).
Proof.
  intros w. unfold attr_of. destruct n as [n |]; [| reflexivity].
  destruct (attributeQuery w n a); reflexivity.
Qed.

Lemma reads_uvDriverAttrs (self : t) : reads (uvDriverAttrs self).
Proof.
  intros w. unfold uvDriverAttrs. destruct (controlObj self) as [[c |] | e]; reflexivity.
Qed.

Lemma reads_mbind {A B} (m : M A) (k : A -> M B) :
  reads m -> (forall a, reads (k a)) -> reads (mbind m k).
Proof.
  intros Hm Hk w. unfold mbind. specialize (Hm w).
  destruct (m w) as [[a | e] w1]; simpl in Hm; subst w1; [apply Hk | reflexivity].
Qed.

Lemma mbind_reads {A B} (m : M A) (k : A -> M B) (w : world) :
  reads m ->
  mbind m k w = match fst (m w) with
                | Ok a => k a w
                | Raise e => (Raise e, w)
                end.
Proof.
  intros Hm. unfold mbind. specialize (Hm w).
  destruct (m w) as [[a | e] w1]; simpl in *; now subst w1.
Qed.

Ltac split_cases :=
  repeat match goal with
         | |- context [match ?x with _ => _ end] =>
             destruct x eqn:?; cbn [fst snd] in *; try discriminate
         | H : context [match ?x with _ => _ end] |- _ =>
             destruct x eqn:?; cbn [fst snd] in *; try discriminate
         end.

Lemma attr_of_ok (n : option string) (a : string) (w : world) (x : attr) :
  fst (attr_of n a w) = Ok x -> snd x = a.
Proof.
  unfold attr_of. intros H. split_cases. now injection H as <-.
Qed.

Ltac reads_tac :=
  repeat first [apply reads_attr_of | apply reads_lift | apply reads_ret
               | apply reads_raise | apply reads_uvDriverAttrs
               | apply reads_mbind | intros ?].

Ltac bind_step :=
  rewrite mbind_reads by reads_tac;
  match goal with
  | |- context [match fst ?x with _ => _ end] => destruct (fst x) eqn:?
  end; cbn [fst snd]; try discriminate.

Lemma base_entries_dest (self : t) (mirCtrl : option string) (midVal : Q)
    (uvRange : Q * Q) (w : world) (es : list entry) :
  fst (base_entries self mirCtrl midVal uvRange w) = Ok es ->
  Forall (dest_in ["pu"; "pv"]) es.
Proof.
  unfold base_entries. repeat bind_step.
  intros H. injection H as <-.
  constructor; [| constructor; [| constructor]];
    unfold dest_in; cbn [toAttr];
    erewrite attr_of_ok by eassumption; cbn [In]; auto.
Qed.

Lemma radius_entries_dest (self mirrorObj : t) (w : world) (es : list entry) :
  fst (radius_entries self mirrorObj w) = Ok es ->
  Forall (dest_in ["radius"]) es.
Proof.
  unfold radius_entries.
  destruct (jnt self), (jnt mirrorObj);
    try (intros H; injection H as <-; constructor).
  repeat bind_step. intros H. injection H as <-.
  constructor; [| constructor].
  unfold dest_in; cbn [toAttr].
  erewrite attr_of_ok by eassumption. cbn [In]. auto.
Qed.

Lemma reads_ratio_entry (opp : bool) (i : nat) (u m : option string) :
  reads (ratio_entry opp i u m).
Proof. unfold ratio_entry. destruct u, m; reads_tac. Qed.

Lemma ratio_entry_dest (opp : bool) (i : nat) (u m : option string)
    (w : world) (es : list entry) :
  fst (ratio_entry opp i u m w) = Ok es -> Forall (dest_in ["i2"]) es.
Proof.
  unfold ratio_entry.
  destruct u, m; try (intros H; injection H as <-; constructor).
  repeat bind_step. intros H. injection H as <-.
  constructor; [| constructor].
  unfold dest_in; cbn [toAttr].
  erewrite attr_of_ok by eassumption. cbn [In]. auto.
Qed.

Lemma ratio_entries_dest (opp : bool) (u m : option string * option string)
    (w : world) (es : list entry) :
  fst (ratio_entries opp u m w) = Ok es -> Forall (dest_in ["i2"]) es.
Proof.
  unfold ratio_entries.
  rewrite mbind_reads by apply reads_ratio_entry.
  destruct (fst (ratio_entry opp 0 _ _ w)) as [e0 | e] eqn:E0; [| discriminate].
  rewrite mbind_reads by apply reads_ratio_entry.
  destruct (fst (ratio_entry opp 1 _ _ w)) as [e1 | e] eqn:E1; [| discriminate].
  intros H. injection H as <-. apply Forall_app. split.
  - exact (ratio_entry_dest _ _ _ _ _ _ E0).
  - exact (ratio_entry_dest _ _ _ _ _ _ E1).
Qed.

Lemma link_entries_dest (us ms : list attr) :
  Forall (fun e => In (toAttr e) ms) (link_entries us ms).
Proof.
  revert ms. induction us as [| u us IH]; intros [| m ms]; cbn [link_entries];
    try constructor.
  - cbn [toAttr In]. auto.
  - eapply List.Forall_impl; [| apply IH]. cbn [In]. auto.
Qed.

Lemma all_link_entries_dest (self m : t) :
  Forall (fun e => exists l, _linkRatioAttrs m = Some l /\
                             In (toAttr e) (fst l ++ snd l))
    (all_link_entries self m).
Proof.
  unfold all_link_entries.
  destruct (_linkRatioAttrs self) as [u |]; [| constructor].
  destruct (_linkRatioAttrs m) as [l |]; [| constructor].
  apply Forall_app. split.
  - eapply List.Forall_impl; [| apply link_entries_dest].
    intros e He. exists l. split; [reflexivity |]. apply in_or_app. now left.
  - eapply List.Forall_impl; [| apply link_entries_dest].
    intros e He. exists l. split; [reflexivity |]. apply in_or_app. now right.
Qed.

Lemma reads_base_entries (self : t) (mc : option string) (mid : Q) (rng : Q * Q) :
  reads (base_entries self mc mid rng).
Proof. unfold base_entries. reads_tac. Qed.

Lemma reads_offset_entries (self : t) (mc : option string) (opp : bool) :
  reads (offset_entries self mc opp).
Proof. unfold offset_entries. reads_tac. destruct opp; reads_tac. Qed.

Lemma reads_radius_entries (self m : t) : reads (radius_entries self m).
Proof. unfold radius_entries. destruct (jnt self), (jnt m); reads_tac. Qed.

Lemma reads_ratio_entries (opp : bool) (u m : option string * option string) :
  reads (ratio_entries opp u m).
Proof.
  unfold ratio_entries.
  repeat first [apply reads_ratio_entry | apply reads_ret | apply reads_mbind | intros ?].
Qed.

Lemma reads_build_entries (self m : t) (bv ofs : bool) (mid : Q) (rng : Q * Q)
    (opp jr dr lr : bool) :
  reads (build_entries self m bv ofs mid rng opp jr dr lr).
Proof.
  unfold build_entries.
  apply reads_mbind; [apply reads_lift | intros mc].
  apply reads_mbind;
    [destruct bv; [apply reads_base_entries | apply reads_ret] | intros base].
  apply reads_mbind.
  { destruct ofs; [| apply reads_ret].
    apply reads_mbind; [apply reads_uvDriverAttrs | intros [|]];
      [apply reads_uvDriverAttrs | apply reads_ret]. }
  intros [|].
  - apply reads_mbind; [apply reads_offset_entries | intros o].
    apply reads_mbind;
      [destruct jr; [apply reads_radius_entries | apply reads_ret] | intros r].
    apply reads_mbind; [| intros d; apply reads_ret].
    destruct dr; [| apply reads_ret].
    destruct (_driverRatioNodes self), (_driverRatioNodes m);
      first [apply reads_ratio_entries | apply reads_ret].
  - apply reads_mbind; [apply reads_ret | intros o].
    apply reads_mbind;
      [destruct jr; [apply reads_radius_entries | apply reads_ret] | intros r].
    apply reads_mbind; [| intros d; apply reads_ret].
    destruct dr; [| apply reads_ret].
    destruct (_driverRatioNodes self), (_driverRatioNodes m);
      first [apply reads_ratio_entries | apply reads_ret].
Qed.

(** An entry writes its destination and nothing else. *)
Lemma apply_entry_frame (ax : nat) (e : entry) (w w' : world) (r : result unit)
    (a : attr) :
  apply_entry ax e w = (r, w') -> a <> toAttr e ->
  w_attrs w' !! a = w_attrs w !! a.
Proof.
  unfold apply_entry, mbind, isFreeToChange, getAttr, setAttr, ret.
  intros H Ha.
  destruct (w_attrs w !! toAttr e) as [d |] eqn:Ed;
    [| injection H as _ <-; reflexivity].
  destruct (c_free d) eqn:Fd; [| injection H as _ <-; reflexivity].
  destruct (w_attrs w !! fromAttr e) as [s |] eqn:Es;
    [| injection H as _ <-; reflexivity].
  rewrite Ed, Fd in H. injection H as _ <-.
  cbn [w_attrs]. now rewrite lookup_insert_ne by congruence.
Qed.

Lemma apply_entries_frame (ax : nat) (es : list entry) (w w' : world)
    (r : result unit) (a : attr) :
  Forall (fun e => a <> toAttr e) es ->
  apply_entries ax es w = (r, w') ->
  w_attrs w' !! a = w_attrs w !! a.
Proof.
  revert w. induction es as [| e es IH]; intros w Hes H.
  - injection H as _ <-. reflexivity.
  - apply Forall_cons in Hes as [He Hes]. cbn [apply_entries] in H.
    unfold mbind in H.
    destruct (apply_entry ax e w) as [[[] | x] w1] eqn:E1.
    + rewrite (IH w1 Hes H). exact (apply_entry_frame _ _ _ _ _ _ E1 He).
    + injection H as _ <-. exact (apply_entry_frame _ _ _ _ _ _ E1 He).
Qed.

Lemma apply_entries_app (ax : nat) (l1 l2 : list entry) (w : world) :
  apply_entries ax (l1 ++ l2) w =
  match apply_entries ax l1 w with
  | (Ok _, w1) => apply_entries ax l2 w1
  | (Raise e, w1) => (Raise e, w1)
  end.
Proof.
  revert w. induction l1 as [| e l1 IH]; intros w; [reflexivity |].
  cbn [app apply_entries]. unfold mbind.
  destruct (apply_entry ax e w) as [[[] | x] w1]; [apply IH | reflexivity].
Qed.

(** An entry without mid value whose destination is free. *)
Lemma apply_entry_free (ax : nat) (e : entry) (w : world) (d s : cell) :
  w_attrs w !! toAttr e = Some d -> c_free d = true ->
  w_attrs w !! fromAttr e = Some s -> mid_range e = None ->
  apply_entry ax e w =
  (Ok tt,
   World (<[toAttr e :=
              Cell (if (uvIndex e =? ax)%nat then (2 * 0 - c_value s)%Q
                    else c_value s) true]> (w_attrs w))
         (w_conns w)).
Proof.
  intros Hd Fd Hs Hm.
  unfold apply_entry, mbind, isFreeToChange, getAttr, setAttr, ret.
  rewrite Hd, Fd, Hs, Hm. cbv beta iota. now rewrite Hd, Fd.
Qed.

Lemma uvDriverAttrs_true (self : t) (c : string) (w : world) (ou ov : cell) :
  controlObj self = Ok (Some c) ->
  w_attrs w !! (c, "ou") = Some ou -> w_attrs w !! (c, "ov") = Some ov ->
  uvDriverAttrs self w = (Ok true, w).
Proof.
  intros Hc Hou Hov. unfold uvDriverAttrs. rewrite Hc.
  now rewrite (attributeQuery_some _ _ _ _ Hou), (attributeQuery_some _ _ _ _ Hov).
Qed.

Lemma offset_entries_eval (self : t) (c mc : string) (opp : bool) (w : world)
    (cou cov mou mov : cell) :
  controlObj self = Ok (Some c) ->
  w_attrs w !! (c, "ou") = Some cou -> w_attrs w !! (c, "ov") = Some cov ->
  w_attrs w !! (mc, "ou") = Some mou -> w_attrs w !! (mc, "ov") = Some mov ->
  offset_entries self (Some mc) opp w =
  (Ok [Entry (mc, "ou") (c, "ou") (if opp then 2 else 0)%nat None;
       Entry (mc, "ov") (c, "ov") (if opp then 2 else 1)%nat None], w).
Proof.
  intros Hc Hou Hov Hmou Hmov.
  unfold offset_entries, mbind, lift, ret. rewrite Hc.
  rewrite (attr_of_some _ _ _ _ Hmou). cbv beta iota.
  rewrite (attr_of_some _ _ _ _ Hou). cbv beta iota.
  rewrite (attr_of_some _ _ _ _ Hmov). cbv beta iota.
  rewrite (attr_of_some _ _ _ _ Hov). cbv beta iota.
  destruct opp; reflexivity.
Qed.

(** The list [toFromAttrs] when the offsets are asked for and both
    control nodes carry them: the base entries, the two offset entries,
    then the entries of the optional settings. *)
Lemma build_entries_shape (self m : t) (c mc : string) (bv : bool) (mid : Q)
    (rng : Q * Q) (opp jr dr lr : bool) (w : world) (cou cov mou mov : cell)
    (es : list entry) :
  controlObj self = Ok (Some c) -> controlObj m = Ok (Some mc) ->
  w_attrs w !! (c, "ou") = Some cou -> w_attrs w !! (c, "ov") = Some cov ->
  w_attrs w !! (mc, "ou") = Some mou -> w_attrs w !! (mc, "ov") = Some mov ->
  fst (build_entries self m bv true mid rng opp jr dr lr w) = Ok es ->
  exists base rest,
    es = base ++
         [Entry (mc, "ou") (c, "ou") (if opp then 2 else 0)%nat None;
          Entry (mc, "ov") (c, "ov") (if opp then 2 else 1)%nat None] ++ rest /\
    Forall (dest_in ["pu"; "pv"]) base /\
    Forall (fun e => dest_in ["radius"; "i2"] e \/
                     (lr = true /\
                      exists l, _linkRatioAttrs m = Some l /\
                                In (toAttr e) (fst l ++ snd l))) rest /\
    (bv = false -> base = []) /\
    (jr = false -> dr = false -> lr = false -> rest = []).
Proof.
  intros Hc Hmc Hou Hov Hmou Hmov.
  assert (Hofs : (let! a := uvDriverAttrs self in
                  if a : bool then uvDriverAttrs m else ret false) w = (Ok true, w)).
  { unfold mbind. rewrite (uvDriverAttrs_true self c w cou cov Hc Hou Hov).
    exact (uvDriverAttrs_true m mc w mou mov Hmc Hmou Hmov). }
  unfold build_entries.
  rewrite mbind_reads by apply reads_lift. unfold lift at 1. cbn [fst]. rewrite Hmc.
  rewrite mbind_reads by (destruct bv; [apply reads_base_entries | apply reads_ret]).
  destruct (fst ((if bv then base_entries self (Some mc) mid rng else ret []) w))
    as [base | x] eqn:Eb; [| discriminate].
  unfold mbind at 1. rewrite Hofs.
  unfold mbind at 1.
  rewrite (offset_entries_eval self c mc opp w cou cov mou mov Hc Hou Hov Hmou Hmov).
  rewrite mbind_reads by (destruct jr; [apply reads_radius_entries | apply reads_ret]).
  destruct (fst ((if jr then radius_entries self m else ret []) w))
    as [rad | x] eqn:Er; [| discriminate].
  set (drvM := if dr then _ else _).
  assert (Hdrv : reads drvM).
  { subst drvM. destruct dr; [| apply reads_ret].
    destruct (_driverRatioNodes self), (_driverRatioNodes m);
      first [apply reads_ratio_entries | apply reads_ret]. }
  rewrite mbind_reads by exact Hdrv.
  destruct (fst (drvM w)) as [drv | x] eqn:Ed; [| discriminate].
  cbv [ret fst]. intros H. injection H as <-.
  exists base, (rad ++ drv ++ (if lr then all_link_entries self m else [])).
  split; [reflexivity |].
  assert (Hbase : Forall (dest_in ["pu"; "pv"]) base /\ (bv = false -> base = [])).
  { destruct bv.
    - split; [exact (base_entries_dest _ _ _ _ _ _ Eb) | discriminate].
    - injection Eb as <-. split; [constructor | reflexivity]. }
  assert (Hrad : Forall (dest_in ["radius"]) rad /\ (jr = false -> rad = [])).
  { destruct jr.
    - split; [exact (radius_entries_dest _ _ _ _ Er) | discriminate].
    - injection Er as <-. split; [constructor | reflexivity]. }
  assert (Hd : Forall (dest_in ["i2"]) drv /\ (dr = false -> drv = [])).
  { subst drvM. destruct dr.
    - split; [| discriminate].
      destruct (_driverRatioNodes self) as [u |];
        [| injection Ed as <-; constructor].
      destruct (_driverRatioNodes m) as [m0 |];
        [| injection Ed as <-; constructor].
      exact (ratio_entries_dest _ _ _ _ _ Ed).
    - injection Ed as <-. split; [constructor | reflexivity]. }
  destruct Hbase as [Hb1 Hb2], Hrad as [Hr1 Hr2], Hd as [Hd1 Hd2].
  split; [exact Hb1 |]. split; [| split; [exact Hb2 |]].
  - apply Forall_app. split; [| apply Forall_app; split].
    + eapply List.Forall_impl; [| exact Hr1].
      intros e [He | []]. left. unfold dest_in. rewrite <- He. cbn [In]. auto.
    + eapply List.Forall_impl; [| exact Hd1].
      intros e [He | []]. left. unfold dest_in. rewrite <- He. cbn [In]. auto.
    + destruct lr; [| constructor].
      eapply List.Forall_impl; [| apply all_link_entries_dest].
      intros e He. right. split; [reflexivity | exact He].
  - intros -> -> ->. rewrite (Hr2 eq_refl), (Hd2 eq_refl). reflexivity.
Qed.

End MirrorEntries.

Section MirrorOffsets.
Import Py Scene Host FollicleJoint.

Variable sidePrefix : list string.
Variable discover : string -> option (result t).

(** The call once the unit has a side and its mirror unit is found:
    the entries are built, then applied in order. *)
Lemma copy_with_mirror (self m : t) (bv ofs : bool) (axis : string) (mid : Q)
    (rng : Q * Q) (strict warnings opp jr dr lr : bool) (w : world) :
  isSide sidePrefix self = Ok true ->
  getMirrorObject sidePrefix discover self strict = Ok (Some m) ->
  copyValuesToMirror sidePrefix discover self bv ofs axis mid rng
    strict warnings opp jr dr lr w =
  match fst (build_entries self m bv ofs mid rng opp jr dr lr w) with
  | Ok es =>
      match apply_entries (if String.eqb axis "v" then 1 else 0)%nat es w with
      | (Ok _, w') => (Ok (Some m), w')
      | (Raise e, w') => (Raise e, w')
      end
  | Raise e => (Raise e, w)
  end.
Proof.
  intros Hs Hm. unfold copyValuesToMirror.
  unfold mbind at 1. unfold lift at 1. rewrite Hs. cbn [negb].
  unfold mbind at 1. unfold lift at 1. rewrite Hm.
  unfold mbind at 1. unfold ret at 1.
  rewrite mbind_reads by apply reads_build_entries.
  destruct (fst (build_entries self m bv ofs mid rng opp jr dr lr w)) as [es | e];
    [| reflexivity].
  unfold mbind, ret.
  destruct (apply_entries _ es w) as [[[] | e] w']; reflexivity.
Qed.

Lemma build_entries_offsets_only (self m : t) (c mc : string) (mid : Q)
    (rng : Q * Q) (opp : bool) (w : world) (cou cov mou mov : cell) :
  controlObj self = Ok (Some c) -> controlObj m = Ok (Some mc) ->
  w_attrs w !! (c, "ou") = Some cou -> w_attrs w !! (c, "ov") = Some cov ->
  w_attrs w !! (mc, "ou") = Some mou -> w_attrs w !! (mc, "ov") = Some mov ->
  build_entries self m false true mid rng opp false false false w =
  (Ok [Entry (mc, "ou") (c, "ou") (if opp then 2 else 0)%nat None;
       Entry (mc, "ov") (c, "ov") (if opp then 2 else 1)%nat None], w).
Proof.
  intros Hc Hmc Hou Hov Hmou Hmov.
  unfold build_entries.
  unfold mbind at 1. unfold lift at 1. rewrite Hmc.
  unfold mbind at 1. unfold ret at 1.
  unfold mbind at 1. unfold mbind at 1.
  rewrite (uvDriverAttrs_true self c w cou cov Hc Hou Hov).
  rewrite (uvDriverAttrs_true m mc w mou mov Hmc Hmou Hmov).
  unfold mbind at 1.
  rewrite (offset_entries_eval self c mc opp w cou cov mou mov Hc Hou Hov Hmou Hmov).
  reflexivity.
Qed.

Lemma dest_in_ne (names : list string) (e : entry) (n a : string) :
  dest_in names e -> ~ In a names -> (n, a) <> toAttr e.
Proof. unfold dest_in. intros H Ha E. apply Ha. now rewrite <- E in H. Qed.

(** C4: for a unit with a side whose mirror unit is found, both control
    nodes carrying the offsets and the mirror's offsets free to change:
    whenever a call with the offsets selected returns, it returns the
    mirror unit and the mirror's offsets hold, under [opposingOffsets],
    the unit's offsets as they are, and without it, the unit's offset
    negated (2*0 - value) on the mirror axis ('v' when the axis is "v",
    'u' otherwise) and as it is on the other axis; and a call that
    selects the offsets alone does return, in the scene that differs
    from the given one in these two attributes only. *)
Theorem C4_mirror_offsets (self m : t) (c mc : string) (w : world)
    (cou cov mou mov : cell) (baseValues : bool) (axis : string) (midVal : Q)
    (uvRange : Q * Q)
    (strict warnings opposingOffsets jntRadius uvDriverRatio drivenOffsetRatios : bool) :
  isSide sidePrefix self = Ok true ->
  getMirrorObject sidePrefix discover self strict = Ok (Some m) ->
  controlObj self = Ok (Some c) -> controlObj m = Ok (Some mc) ->
  w_attrs w !! (c, "ou") = Some cou -> w_attrs w !! (c, "ov") = Some cov ->
  w_attrs w !! (mc, "ou") = Some mou -> w_attrs w !! (mc, "ov") = Some mov ->
  c_free mou = true -> c_free mov = true ->
  (drivenOffsetRatios = true ->
   forall l, _linkRatioAttrs m = Some l ->
             ~ In (mc, "ou") (fst l ++ snd l) /\ ~ In (mc, "ov") (fst l ++ snd l)) ->
  let ou' := if opposingOffsets then c_value cou
             else if String.eqb axis "v" then c_value cou
                  else (2 * 0 - c_value cou)%Q in
  let ov' := if opposingOffsets then c_value cov
             else if String.eqb axis "v" then (2 * 0 - c_value cov)%Q
                  else c_value cov in
  (forall r w',
      copyValuesToMirror sidePrefix discover self baseValues true axis midVal
        uvRange strict warnings opposingOffsets jntRadius uvDriverRatio
        drivenOffsetRatios w = (Ok r, w') ->
      r = Some m /\
      w_attrs w' !! (mc, "ou") = Some (Cell ou' true) /\
      w_attrs w' !! (mc, "ov") = Some (Cell ov' true)) /\
  copyValuesToMirror sidePrefix discover self false true axis midVal
    uvRange strict warnings opposingOffsets false false false w =
  (Ok (Some m),
   World (<[(mc, "ov") := Cell ov' true]>
          (<[(mc, "ou") := Cell ou' true]> (w_attrs w)))
         (w_conns w)).
Proof.
  intros Hs Hm Hc Hmc Hou Hov Hmou Hmov Fou Fov Hlink ou' ov'.
  set (ax := (if String.eqb axis "v" then 1 else 0)%nat).
  set (eou := Entry (mc, "ou") (c, "ou") (if opposingOffsets then 2 else 0)%nat None).
  set (eov := Entry (mc, "ov") (c, "ov") (if opposingOffsets then 2 else 1)%nat None).
  assert (Vou : (if (uvIndex eou =? ax)%nat then (2 * 0 - c_value cou)%Q
                 else c_value cou) = ou').
  { subst eou ax ou'. cbn [uvIndex].
    destruct opposingOffsets, (String.eqb axis "v"); reflexivity. }
  assert (Vov : (if (uvIndex eov =? ax)%nat then (2 * 0 - c_value cov)%Q
                 else c_value cov) = ov').
  { subst eov ax ov'. cbn [uvIndex].
    destruct opposingOffsets, (String.eqb axis "v"); reflexivity. }
  assert (Two : forall w1 : world,
            w_attrs w1 !! (c, "ou") = Some cou -> w_attrs w1 !! (c, "ov") = Some cov ->
            w_attrs w1 !! (mc, "ou") = Some mou -> w_attrs w1 !! (mc, "ov") = Some mov ->
            forall rest,
              apply_entries ax (eou :: eov :: rest) w1 =
              apply_entries ax rest
                (World (<[(mc, "ov") := Cell ov' true]>
                        (<[(mc, "ou") := Cell ou' true]> (w_attrs w1)))
                       (w_conns w1))).
  { intros w1 H1 H2 H3 H4 rest. cbn [apply_entries]. unfold mbind at 1.
    rewrite (apply_entry_free ax eou w1 mou cou H3 Fou H1 eq_refl), Vou.
    unfold mbind at 1.
    erewrite (apply_entry_free ax eov _ mov cov); [rewrite Vov; reflexivity | | | |].
    - unfold eou, eov. cbn [w_attrs toAttr].
      now rewrite lookup_insert_ne by (apply other_attr; discriminate).
    - exact Fov.
    - unfold eou, eov. cbn [w_attrs fromAttr toAttr].
      now rewrite lookup_insert_ne by (intros E; injection E; discriminate).
    - reflexivity. }
  split.
  - intros r w' H.
    rewrite (copy_with_mirror self m _ _ _ _ _ _ _ _ _ _ _ w Hs Hm) in H.
    fold ax in H.
    destruct (fst (build_entries self m baseValues true midVal uvRange
                     opposingOffsets jntRadius uvDriverRatio drivenOffsetRatios w))
      as [es | e] eqn:Eb; [| discriminate].
    destruct (build_entries_shape _ _ _ _ _ _ _ _ _ _ _ _ _ _ _ _ _
                Hc Hmc Hou Hov Hmou Hmov Eb)
      as (base & rest & -> & Hbase & Hrest & _ & _).
    fold eou eov in H. rewrite apply_entries_app in H.
    destruct (apply_entries ax base w) as [[[] | e] w1] eqn:E1; [| discriminate].
    assert (Fr : forall n a, a = "ou" \/ a = "ov" ->
                   w_attrs w1 !! (n, a) = w_attrs w !! (n, a)).
    { intros n a Ha. eapply apply_entries_frame; [| exact E1].
      eapply List.Forall_impl; [| exact Hbase].
      intros e He. apply (dest_in_ne _ _ _ _ He).
      cbn [In]. destruct Ha as [-> | ->]; intros [D | [D | []]]; discriminate D. }
    cbn [app] in H.
    rewrite (Two w1) in H by (rewrite Fr by auto; assumption).
    match type of H with
    | match apply_entries _ _ ?x with _ => _ end = _ => set (w3 := x) in *
    end.
    destruct (apply_entries ax rest w3) as [[[] | e] w4] eqn:E4; [| discriminate].
    injection H as <- <-.
    assert (Fw : forall a, a = "ou" \/ a = "ov" ->
                   w_attrs w4 !! (mc, a) = w_attrs w3 !! (mc, a)).
    { intros a Ha. eapply apply_entries_frame; [| exact E4].
      eapply List.Forall_impl; [| exact Hrest].
      intros e [He | (Hlr & l & Hl & Hin)].
      - apply (dest_in_ne _ _ _ _ He).
        cbn [In]. destruct Ha as [-> | ->]; intros [D | [D | []]]; discriminate D.
      - destruct (Hlink Hlr l Hl) as [N1 N2].
        intros E. rewrite <- E in Hin. destruct Ha as [-> | ->]; contradiction. }
    split; [reflexivity |].
    rewrite !Fw by auto. subst w3. cbn [w_attrs]. split.
    + rewrite lookup_insert_ne by (apply other_attr; discriminate).
      apply lookup_insert_eq.
    + apply lookup_insert_eq.
  - rewrite (copy_with_mirror self m _ _ _ _ _ _ _ _ _ _ _ w Hs Hm).
    rewrite (build_entries_offsets_only self m c mc midVal uvRange opposingOffsets
               w cou cov mou mov Hc Hmc Hou Hov Hmou Hmov).
    cbn [fst]. fold ax eou eov.
    rewrite (Two w Hou Hov Hmou Hmov []). reflexivity.
Qed.

End MirrorOffsets.

Section MirrorSample.
Import Py Scene Host FollicleJoint.

Lemma C4_mirror_offsets_witness :
  copyValuesToMirror Sample.sidePrefix Sample.discover Sample.left
    false true "v" (1 # 2) (0, 1)%Q true true false false false false
    (Sample.scene true) =
  (Ok (Some Sample.right),
   World (<[("R_brow_J_", "ov") := Cell (2 * 0 - (1 # 8)) true]>
          (<[("R_brow_J_", "ou") := Cell (1 # 4) true]>
             (w_attrs (Sample.scene true))))
         []).
Proof.
  refine (proj2 (C4_mirror_offsets Sample.sidePrefix Sample.discover
                   Sample.left Sample.right "L_brow_J_" "R_brow_J_"
                   (Sample.scene true)
                   (Cell (1 # 4) true) (Cell (1 # 8) true)
                   (Cell 0 true) (Cell 0 true)
                   false "v" (1 # 2) (0, 1)%Q true true false false false false
                   _ _ _ _ _ _ _ _ _ _ _)).
  - vm_compute; reflexivity.
  - vm_compute; reflexivity.
  - reflexivity.
  - reflexivity.
  - vm_compute; reflexivity.
  - vm_compute; reflexivity.
  - vm_compute; reflexivity.
  - vm_compute; reflexivity.
  - reflexivity.
  - reflexivity.
  - intros H. discriminate H.
Defined.

(** The left unit's u offset is 1/4 and the mirror axis is 'u': with
    [opposingOffsets] the mirror's u offset becomes 1/4, the value as
    it is; without it, -1/4. *)
Lemma C4_opposing_offsets_are_copied_verbatim :
  let call opp :=
    copyValuesToMirror Sample.sidePrefix Sample.discover Sample.left
      false true "u" (1 # 2) (0, 1)%Q true true opp false false false
      (Sample.scene true) in
  fst (call true) = Ok (Some Sample.right) /\
  (exists cl, w_attrs (snd (call true)) !! ("R_brow_J_", "ou") = Some cl /\
              c_value cl == 1 # 4 /\ ~ c_value cl == - (1 # 4)) /\
  fst (call false) = Ok (Some Sample.right) /\
  (exists cl, w_attrs (snd (call false)) !! ("R_brow_J_", "ou") = Some cl /\
              c_value cl == - (1 # 4) /\ ~ c_value cl == 1 # 4).
Proof.
  cbv zeta. split; [vm_compute; reflexivity |]. split.
  - eexists. split; [vm_compute; reflexivity |].
    split; [reflexivity | intros H; discriminate H].
  - split; [vm_compute; reflexivity |].
    eexists. split; [vm_compute; reflexivity |].
    split; [reflexivity | intros H; discriminate H].
Qed.

End MirrorSample.

(** * Further properties of the code *)

(** ** The wrapper's arguments and the errors it does not report *)

Section WrapperArguments.
Import Py UI.

Lemma preset_first (a x : list val) :
  match a with [] => x | _ => a ++ x end = a ++ x.
Proof. destruct a; reflexivity. Qed.

Lemma preset_kwargs (m kw : gmap string val) :
  (if bool_decide (m = ∅) then kw else m ∪ kw) = m ∪ kw.
Proof.
  destruct (bool_decide (m = ∅)) eqn:E; [| reflexivity].
  apply bool_decide_eq_true_1 in E. subst m. now rewrite (left_id_L ∅ (∪)).
Qed.

Lemma run_trace (self : undoableCaller) (a : list val) (kw : gmap string val) :
  exists rest,
    snd (runUndoable self a kw) =
    OpenChunk :: Called (call_args self a) (call_kwargs self kw) :: CloseChunk :: rest.
Proof.
  destruct (uiFunction self (call_args self a) (call_kwargs self kw)) as [v | e] eqn:E.
  - rewrite (run_returns _ _ _ _ E). now exists [].
  - rewrite (run_raises _ _ _ _ E). cbv zeta.
    destruct (is_Exception (exn_class e)); [| now exists []].
    destruct (error_command e); eexists; reflexivity.
Qed.

(** X1: a wrapper built by [undoableCaller(f, *a, **kw)] and then run
    with the signal's arguments calls [f] between the opening and the
    closing of the undo chunk with the preset positional arguments
    first, followed by the signal's only when [noArgs] was given and is
    false (by default the signal's are dropped), and with the preset
    keyword arguments, [noArgs] itself taken out, overriding the
    signal's. *)
Theorem X1_wrapper_arguments
    (f : list val -> gmap string val -> result val)
    (a : list val) (kw : gmap string val) (sig : list val) (skw : gmap string val) :
  exists rest,
    snd (runUndoable (init f a kw) sig skw) =
    OpenChunk ::
    Called (a ++ (if val_truthy (default (VBool true) (kw !! "noArgs"))
                  then [] else sig))
           (delete "noArgs" kw ∪ skw) ::
    CloseChunk :: rest.
Proof.
  destruct (run_trace (init f a kw) sig skw) as [rest Hr].
  exists rest. rewrite Hr. unfold call_args, call_kwargs, init.
  destruct (kw !! "noArgs") as [v |] eqn:E; cbn [args kwargs noArgs default].
  - now rewrite preset_first, preset_kwargs.
  - rewrite preset_first, preset_kwargs.
    now rewrite (delete_id kw "noArgs" E).
Qed.

Lemma join_args_not_strings (l : list val) :
  forallb is_str l = false ->
  exists e, join_args l = Raise e /\ exn_class e = TypeError.
Proof.
  induction l as [| v l IH]; intros H; [discriminate H |].
  cbn [forallb] in H. destruct v; try (eexists; split; reflexivity).
  cbn [is_str andb] in H. destruct (IH H) as (e & He & Hc).
  cbn [join_args]. destruct l as [| v' l']; [discriminate H |].
  rewrite He. exists e. split; [reflexivity | exact Hc].
Qed.

(** X2: two errors of the wrapped function that the wrapper does not
    report. One that is not an [Exception] (a [KeyboardInterrupt]) is
    lost: the chunk is closed, no error command is queued and the
    wrapper returns [None]. An [Exception] whose arguments are not all
    strings makes the wrapper itself raise [TypeError] while it builds
    the message: the chunk has been closed, and no error command is
    queued. *)
Theorem X2_wrapper_unreported_errors
    (self : undoableCaller) (a : list val) (kw : gmap string val) (e : exn) :
  uiFunction self (call_args self a) (call_kwargs self kw) = Raise e ->
  let tr := [OpenChunk; Called (call_args self a) (call_kwargs self kw); CloseChunk] in
  (is_Exception (exn_class e) = false ->
   runUndoable self a kw = (Ok VNone, tr)) /\
  (is_Exception (exn_class e) = true -> forallb is_str (exn_args e) = false ->
   exists e', runUndoable self a kw = (Raise e', tr) /\ exn_class e' = TypeError).
Proof.
  intros H tr. rewrite (run_raises _ _ _ _ H). cbv zeta. split.
  - intros ->. reflexivity.
  - intros -> Hs. destruct (join_args_not_strings _ Hs) as (e' & He & Hc).
    unfold error_command. rewrite He. cbn [bind].
    exists e'. split; [reflexivity | exact Hc].
Qed.

Lemma X2_wrapper_unreported_errors_witness :
  let interrupted := Mk (fun _ _ => Raise (Exn KeyboardInterrupt [])) [] ∅ (VBool true) in
  let missing := Mk (fun _ _ => Raise (Exn KeyError [VInt 5])) [] ∅ (VBool true) in
  runUndoable interrupted [] ∅ = (Ok VNone, [OpenChunk; Called [] ∅; CloseChunk]) /\
  exists e', runUndoable missing [] ∅ = (Raise e', [OpenChunk; Called [] ∅; CloseChunk]) /\
             exn_class e' = TypeError.
Proof.
  intros interrupted missing. split.
  - assert (H : uiFunction interrupted (call_args interrupted []) (call_kwargs interrupted ∅)
                = Raise (Exn KeyboardInterrupt [])) by reflexivity.
    exact (proj1 (X2_wrapper_unreported_errors interrupted [] ∅ _ H) eq_refl).
  - assert (H : uiFunction missing (call_args missing []) (call_kwargs missing ∅)
                = Raise (Exn KeyError [VInt 5])) by reflexivity.
    exact (proj2 (X2_wrapper_unreported_errors missing [] ∅ _ H) eq_refl eq_refl).
Defined.

End WrapperArguments.

(** ** Numbers in names: text and value *)

Section Numerals.
Import Py Names.

Lemma number_char_digit (c : ascii) : number_char digits c = is_digit c.
Proof. destruct c as [[|] [|] [|] [|] [|] [|] [|] [|]]; reflexivity. Qed.

Lemma digit_uint_of_char (c : ascii) (d : Decimal.uint) :
  is_digit c = true -> exists d', uint_of_char c (Some d) = Some d'.
Proof.
  destruct c as [[|] [|] [|] [|] [|] [|] [|] [|]]; intros H;
    try discriminate H; eexists; reflexivity.
Qed.

(** A run of digits is the text of a numeral. *)
Lemma digits_numeral (s : string) :
  all_digits s = true -> exists u, NilEmpty.string_of_uint u = s.
Proof.
  unfold all_digits. induction s as [| c s IH]; intros H.
  - now exists Decimal.Nil.
  - cbn [chars list_ascii_of_string forallb] in H.
    apply andb_true_iff in H as [Hc Hs].
    destruct (IH Hs) as [u Hu].
    destruct (digit_uint_of_char c u Hc) as [d' Hd'].
    exists d'. apply NilEmpty.sus. cbn [NilEmpty.uint_of_string].
    now rewrite <- Hu, NilEmpty.usu.
Qed.

Lemma numeral_digits (u : Decimal.uint) :
  all_digits (NilEmpty.string_of_uint u) = true.
Proof. unfold all_digits. induction u; cbn; auto. Qed.

Lemma fold_value (u : Decimal.uint) (acc : Z) :
  fold_left (fun a c => 10 * a + Z.of_nat (nat_of_ascii c - 48))%Z
    (chars (NilEmpty.string_of_uint u)) acc = uint_value u acc.
Proof.
  revert acc. induction u; intros acc; cbn [NilEmpty.string_of_uint chars
    list_ascii_of_string fold_left uint_value]; [reflexivity | ..];
    rewrite IHu; f_equal; vm_compute (Z.of_nat _); lia.
Qed.

Lemma digits_value_numeral (u : Decimal.uint) :
  digits_value (chars (NilEmpty.string_of_uint u)) = uint_value u 0.
Proof. apply fold_value. Qed.

Lemma of_uint_acc_value (u : Decimal.uint) (p : positive) :
  Zpos (Pos.of_uint_acc u p) = uint_value u (Zpos p).
Proof.
  revert p. induction u; intros p; cbn [Pos.of_uint_acc uint_value];
    [reflexivity | ..]; rewrite IHu; f_equal; lia.
Qed.

Lemma of_uint_value (u : Decimal.uint) : Z.of_uint u = uint_value u 0.
Proof.
  unfold Z.of_uint. induction u; cbn [Pos.of_uint uint_value];
    [reflexivity | exact IHu | ..];
    cbn [Z.of_N]; rewrite of_uint_acc_value; reflexivity.
Qed.

(** [str] of the value of a numeral: the numeral without its leading
    zeros. *)
Lemma py_str_value (u : Decimal.uint) :
  py_str (uint_value u 0) = NilZero.string_of_uint (Decimal.unorm u).
Proof.
  unfold py_str. rewrite <- of_uint_value.
  change (Z.of_uint u) with (Z.of_int (Decimal.Pos u)).
  rewrite DecimalZ.to_of. reflexivity.
Qed.

(** Padding the text of a numeral's value to the numeral's own width
    gives the numeral back: the leading zeros return. *)
Lemma pad_restores (u : Decimal.uint) :
  u <> Decimal.Nil ->
  let s := NilEmpty.string_of_uint u in
  let t := NilZero.string_of_uint (Decimal.unorm u) in
  (String.length t <= String.length s)%nat /\
  (repeat_char "0" (String.length s - String.length t) ++ t)%string = s.
Proof.
  induction u as [| u IH | u _ | u _ | u _ | u _ | u _ | u _ | u _ | u _ | u _];
    intros Hne; [congruence | | split; cbn; try lia; now rewrite Nat.sub_diag ..].
  cbv zeta. change (Decimal.unorm (Decimal.D0 u)) with (Decimal.unorm u).
  destruct u as [| | | | | | | | | |] eqn:Eu; [split; cbn; [lia | reflexivity] | ..];
    rewrite <- Eu in *;
    (assert (Hu : u <> Decimal.Nil) by (rewrite Eu; discriminate));
    destruct (IH Hu) as [Hl Hs]; cbv zeta in Hl, Hs;
    cbn [NilEmpty.string_of_uint String.length];
    (split; [lia |]);
    rewrite Nat.sub_succ_l by exact Hl; cbn [repeat_char];
    change (String "0" (repeat_char "0"
              (String.length (NilEmpty.string_of_uint u) -
               String.length (NilZero.string_of_uint (Decimal.unorm u))) ++
               NilZero.string_of_uint (Decimal.unorm u))%string
            = String "0" (NilEmpty.string_of_uint u));
    now rewrite Hs.
Qed.

Lemma zero_pad_numeral (n : string) :
  all_digits n = true -> n <> "" ->
  zero_pad (digits_value (chars n)) (String.length n) = n.
Proof.
  intros Hd Hne. destruct (digits_numeral n Hd) as [u Hu]. subst n.
  assert (Hnil : u <> Decimal.Nil) by (intros ->; now apply Hne).
  rewrite digits_value_numeral. unfold zero_pad. rewrite py_str_value.
  exact (proj2 (pad_restores u Hnil)).
Qed.

Lemma digit_not_space (c : ascii) : is_digit c = true -> is_space c = false.
Proof.
  destruct c as [[|] [|] [|] [|] [|] [|] [|] [|]]; intros H;
    try discriminate H; reflexivity.
Qed.

Lemma lstrip_digits (l : list ascii) : forallb is_digit l = true -> lstrip l = l.
Proof.
  destruct l as [| c l]; [reflexivity |]. cbn [forallb lstrip]. intros H.
  apply andb_true_iff in H as [Hc _]. now rewrite (digit_not_space c Hc).
Qed.

Lemma strip_digits (l : list ascii) : forallb is_digit l = true -> strip l = l.
Proof.
  intros H. unfold strip. rewrite (lstrip_digits l H).
  rewrite lstrip_digits by now rewrite forallb_rev.
  apply rev_involutive.
Qed.

(** [int] of a non-empty run of digits is its value. *)
Lemma py_int_digits (n : string) :
  all_digits n = true -> n <> "" -> py_int n = Ok (digits_value (chars n)).
Proof.
  unfold all_digits. intros Hd Hne. unfold py_int.
  fold (chars n). rewrite (strip_digits _ Hd).
  destruct n as [| c n]; [congruence |].
  cbn [chars list_ascii_of_string] in *. fold (chars n) in *.
  assert (Hc : is_digit c = true).
  { cbn [forallb] in Hd. now apply andb_true_iff in Hd as [Hc _]. }
  destruct c as [[|] [|] [|] [|] [|] [|] [|] [|]]; try discriminate Hc;
    cbv beta iota zeta; rewrite Hd; now rewrite Z.mul_1_l.
Qed.

End Numerals.

(** ** Splitting and joining numbered names *)

Section NameRoundTrips.
Import Py Names.

Lemma forallb_ext_ascii (f g : ascii -> bool) (l : list ascii) :
  (forall c, f c = g c) -> forallb f l = forallb g l.
Proof. intros H. induction l as [| c l IH]; cbn; [reflexivity |]. now rewrite H, IH. Qed.

Lemma run_all_digits (n : string) :
  forallb (number_char digits) (chars n) = all_digits n.
Proof. apply forallb_ext_ascii, number_char_digit. Qed.

Lemma suffix_no_digit (s : string) :
  forallb (fun c => negb (number_char digits c)) (chars s) = no_digit s.
Proof. apply forallb_ext_ascii. intros c. now rewrite number_char_digit. Qed.

Lemma split_digits (name : string) :
  splitNumberedName name None =
  (if truthy (default "" (ss_strs (split_loop digits name) !! 1%nat))
   then ss_strs (split_loop digits name) else [name; ""; ""]).
Proof. reflexivity. Qed.

Lemma join_main (p s : string) (z : Z) (pad : nat) :
  joinNumberedName (Some p) (Some (NInt z)) (Some s) pad format_main None
  = Ok (p ++ zero_pad z pad ++ s)%string.
Proof.
  cbv -[zero_pad String.append]. now rewrite (append_empty_r s).
Qed.

(** X3: a name that holds a digit comes back from [joinNumberedName]
    when it is given the three parts [splitNumberedName] cut it into,
    the number as the integer [int] reads from the number part (or as
    that text itself) and the padding as the number part's length, in
    the main name format: leading zeros survive the round trip. This is
    how [rename] re-derives a unit's current name. *)
Theorem X3_split_then_join (name : string) :
  existsb (number_char digits) (chars name) = true ->
  exists p n s z,
    splitNumberedName name None = [p; n; s] /\
    py_int n = Ok z /\
    joinNumberedName (Some p) (Some (NInt z)) (Some s) (String.length n)
      format_main None = Ok name /\
    joinNumberedName (Some p) (Some (NStr n)) (Some s) (String.length n)
      format_main None = Ok name.
Proof.
  intros H. destruct (split_with_number digits name H) as (p & n & s & Hs & Hl).
  destruct Hl as (Hname & Hne & Hn & _).
  rewrite run_all_digits in Hn.
  exists p, n, s, (digits_value (chars n)).
  split; [rewrite split_digits; exact Hs |].
  split; [exact (py_int_digits n Hn Hne) |].
  assert (J : joinNumberedName (Some p) (Some (NInt (digits_value (chars n)))) (Some s)
                (String.length n) format_main None = Ok name).
  { rewrite join_main, (zero_pad_numeral n Hn Hne). now rewrite Hname. }
  split; [exact J |].
  rewrite <- J. unfold joinNumberedName. cbn [numStr].
  rewrite (truthy_true n Hne), (py_int_digits n Hn Hne). reflexivity.
Qed.

Lemma X3_split_then_join_witness :
  exists p n s z,
    splitNumberedName "L_brow_007_jnt" None = [p; n; s] /\
    py_int n = Ok z /\
    joinNumberedName (Some p) (Some (NInt z)) (Some s) (String.length n)
      format_main None = Ok "L_brow_007_jnt" /\
    joinNumberedName (Some p) (Some (NStr n)) (Some s) (String.length n)
      format_main None = Ok "L_brow_007_jnt".
Proof. apply (X3_split_then_join "L_brow_007_jnt"). reflexivity. Defined.

Lemma all_digits_app (a b : string) :
  all_digits (a ++ b) = all_digits a && all_digits b.
Proof. unfold all_digits. now rewrite chars_app, forallb_app. Qed.

Lemma zeros_digits (k : nat) : all_digits (repeat_char "0" k) = true.
Proof. induction k as [| k IH]; [reflexivity |]. exact IH. Qed.

Lemma zeros_value (k : nat) (t : string) :
  digits_value (chars (repeat_char "0" k ++ t)) = digits_value (chars t).
Proof. induction k as [| k IH]; [reflexivity |]. exact IH. Qed.

Lemma length_app_string (a b : string) :
  String.length (a ++ b) = (String.length a + String.length b)%nat.
Proof.
  induction a as [| c a IH]; [reflexivity |].
  change (S (String.length (a ++ b)) = S (String.length a + String.length b)).
  now rewrite IH.
Qed.

Lemma length_zeros (k : nat) : String.length (repeat_char "0" k) = k.
Proof.
  induction k as [| k IH]; [reflexivity |].
  change (S (String.length (repeat_char "0" k)) = S k). now rewrite IH.
Qed.

(** The text of a number that is not negative: a non-empty run of
    digits, at least as wide as the padding, that [int] reads back. *)
Lemma zero_pad_text (z : Z) (pad : nat) :
  (0 <= z)%Z ->
  all_digits (zero_pad z pad) = true /\ zero_pad z pad <> "" /\
  digits_value (chars (zero_pad z pad)) = z /\
  (pad <= String.length (zero_pad z pad))%nat.
Proof.
  intros Hz.
  assert (Hd : exists d, d <> Decimal.Nil /\ Z.to_int z = Decimal.Pos d).
  { destruct z as [| p | p]; [| | lia].
    - exists Decimal.zero. split; [discriminate | reflexivity].
    - exists (Pos.to_uint p). split; [apply DecimalPos.Unsigned.to_uint_nonnil | reflexivity]. }
  destruct Hd as (d & Hnil & Hd).
  assert (Hs : py_str z = NilEmpty.string_of_uint d).
  { unfold py_str. rewrite Hd. destruct d; [congruence | reflexivity ..]. }
  assert (Hv : uint_value d 0 = z).
  { rewrite <- of_uint_value. change (Z.of_uint d) with (Z.of_int (Decimal.Pos d)).
    rewrite <- Hd. apply DecimalZ.of_to. }
  unfold zero_pad. rewrite Hs. repeat split.
  - now rewrite all_digits_app, zeros_digits, numeral_digits.
  - destruct d; [congruence | ..];
      destruct (repeat_char _ _); discriminate.
  - now rewrite zeros_value, digits_value_numeral.
  - rewrite length_app_string, length_zeros. lia.
Qed.

Lemma existsb_middle (f : ascii -> bool) (p n s : string) :
  n <> "" -> forallb f (chars n) = true ->
  existsb f (chars (p ++ n ++ s)) = true.
Proof.
  intros Hne Hn. rewrite !chars_app, !existsb_app.
  rewrite (forallb_nonempty_existsb f _ (chars_nonempty n Hne) Hn).
  now rewrite orb_true_r.
Qed.

(** A cut with the properties of the last run is the one the split
    returns. *)
Lemma split_is_last_run (alt : option string) (name p n s : string) :
  last_run_split (findChars alt) name p n s ->
  splitNumberedName name alt = [p; n; s].
Proof.
  intros Hl. pose proof Hl as (Hname & Hne & Hn & _).
  assert (He : existsb (number_char (findChars alt)) (chars name) = true).
  { rewrite Hname. now apply existsb_middle. }
  destruct (split_with_number (findChars alt) name He) as (p' & n' & s' & Hs & Hl').
  destruct (last_run_split_unique _ _ _ _ _ _ _ _ Hl Hl') as (-> & -> & ->).
  exact Hs.
Qed.

(** X4: the name [joinNumberedName] builds in the main format from a
    prefix that does not end in a digit, a number that is not negative
    and a suffix without digits splits back into that prefix, the padded
    number and that suffix; the number part is at least as wide as the
    padding and [int] reads the number back from it. *)
Theorem X4_join_then_split (p s : string) (z : Z) (pad : nat) :
  (0 <= z)%Z ->
  (p = "" \/ exists p' c, p = (p' ++ String c "")%string /\ is_digit c = false) ->
  no_digit s = true ->
  exists name n,
    joinNumberedName (Some p) (Some (NInt z)) (Some s) pad format_main None = Ok name /\
    splitNumberedName name None = [p; n; s] /\
    py_int n = Ok z /\
    (pad <= String.length n)%nat.
Proof.
  intros Hz Hp Hs.
  destruct (zero_pad_text z pad Hz) as (Hd & Hne & Hv & Hlen).
  exists (p ++ zero_pad z pad ++ s)%string, (zero_pad z pad).
  split; [apply join_main |]. split; [| split; [| exact Hlen]].
  - apply split_is_last_run. cbn [findChars]. repeat split.
    + exact Hne.
    + now rewrite run_all_digits.
    + now rewrite suffix_no_digit.
    + destruct Hp as [-> | (p' & c & -> & Hc)]; [now left | right].
      exists p', c. split; [reflexivity |]. now rewrite number_char_digit.
  - rewrite (py_int_digits _ Hd Hne). now rewrite Hv.
Qed.

Lemma X4_join_then_split_witness :
  exists name n,
    joinNumberedName (Some "R_brow_") (Some (NInt 23)) (Some "_jnt") 3 format_main None
    = Ok name /\
    splitNumberedName name None = ["R_brow_"; n; "_jnt"] /\
    py_int n = Ok 23%Z /\
    (3 <= String.length n)%nat.
Proof.
  apply (X4_join_then_split "R_brow_" "_jnt" 23 3).
  - lia.
  - right. exists "R_brow", "_"%char. split; reflexivity.
  - reflexivity.
Defined.

Lemma no_hash_cons (c : ascii) (s : string) :
  no_hash (String c s) = negb (Ascii.eqb "#" c) && no_hash s.
Proof. unfold no_hash. cbn [char_in]. apply negb_orb. Qed.

Lemma no_hash_run (s : string) :
  forallb (fun c => negb (number_char "#" c)) (chars s) = no_hash s.
Proof.
  induction s as [| c s IH]; [reflexivity |].
  rewrite no_hash_cons, <- IH. cbn [chars list_ascii_of_string forallb].
  unfold number_char at 1. cbn [char_in].
  now rewrite orb_false_r, Ascii.eqb_sym.
Qed.

Lemma replace_hash_none (s by_ : string) : no_hash s = true -> replace_hash s by_ = s.
Proof.
  induction s as [| c s IH]; [reflexivity |].
  rewrite no_hash_cons. intros H. apply andb_true_iff in H as [Hc Hs].
  cbn [replace_hash]. rewrite Ascii.eqb_sym. apply negb_true_iff in Hc.
  now rewrite Hc, (IH Hs).
Qed.

Lemma replace_hash_one (a b by_ : string) :
  no_hash a = true -> no_hash b = true ->
  replace_hash (a ++ "#" ++ b) by_ = (a ++ by_ ++ b)%string.
Proof.
  intros Ha Hb. induction a as [| c a IH].
  - change (replace_hash (String "#" b) by_ = (by_ ++ b)%string).
    cbn [replace_hash]. cbn [Ascii.eqb Bool.eqb]. now rewrite (replace_hash_none b by_ Hb).
  - rewrite no_hash_cons in Ha. apply andb_true_iff in Ha as [Hc Ha].
    change (replace_hash (String c (a ++ "#" ++ b)) by_ = String c (a ++ by_ ++ b)).
    cbn [replace_hash]. rewrite Ascii.eqb_sym. apply negb_true_iff in Hc.
    now rewrite Hc, (IH Ha).
Qed.

Lemma hash_in_template (a b : string) :
  truthy (a ++ "#" ++ b) = true /\ char_in "#" (a ++ "#" ++ b) = true.
Proof.
  split; [now destruct a |].
  induction a as [| c a IH]; [reflexivity |].
  change (char_in "#" (String c (a ++ "#" ++ b)) = true).
  cbn [char_in]. now rewrite IH, orb_true_r.
Qed.

Lemma string_snoc (s : string) :
  s <> "" -> exists s' c, s = (s' ++ String c "")%string.
Proof.
  induction s as [| c s IH]; [congruence |]. intros _.
  destruct s as [| d s].
  - now exists "", c.
  - destruct IH as (s' & e & Hs); [discriminate |].
    exists (String c s'), e. now rewrite Hs.
Qed.

Lemma no_hash_app (a b : string) : no_hash (a ++ b) = no_hash a && no_hash b.
Proof.
  induction a as [| c a IH]; [reflexivity |].
  change (no_hash (String c (a ++ b)) = no_hash (String c a) && no_hash b).
  now rewrite !no_hash_cons, IH, andb_assoc.
Qed.

(** X5: for a template with a single ['#'], the two ways of filling it
    agree: [splitNumberedName] with ['#'] as the number character cuts
    it at the ['#'], and [joinNumberedName] given the template yields
    what it yields in the main format given the text before and
    after the ['#'] as prefix and suffix, for every number and padding
    (also when the number is refused). *)
Theorem X5_single_hash_template
    (a b : string) (num : option num_arg) (pad : nat) :
  no_hash a = true -> no_hash b = true ->
  splitNumberedName (a ++ "#" ++ b) (Some "#") = [a; "#"; b] /\
  joinNumberedName None num None pad format_main (Some (a ++ "#" ++ b)%string)
  = joinNumberedName (Some a) num (Some b) pad format_main None.
Proof.
  intros Ha Hb. split.
  - apply split_is_last_run. cbn [findChars truthy]. repeat split.
    + discriminate.
    + now rewrite no_hash_run.
    + destruct a as [| c a]; [now left | right].
      destruct (string_snoc (String c a)) as (a' & e & Hs); [discriminate |].
      exists a', e. split; [exact Hs |].
      rewrite Hs, no_hash_app, no_hash_cons in Ha.
      apply andb_true_iff in Ha as [_ Ha]. apply andb_true_iff in Ha as [Ha _].
      unfold number_char. cbn [char_in]. rewrite orb_false_r, Ascii.eqb_sym.
      now apply negb_true_iff.
  - unfold joinNumberedName. destruct (numStr num pad) as [ns | e]; [| reflexivity].
    cbv [bind default from_option id]. destruct (hash_in_template a b) as [-> ->].
    cbn [negb truthy]. unfold format_main. cbn [format].
    now rewrite (replace_hash_one a b ns Ha Hb), (append_empty_r b).
Qed.

Lemma X5_single_hash_template_witness :
  splitNumberedName "brow_#_fol" (Some "#") = ["brow_"; "#"; "_fol"] /\
  joinNumberedName None (Some (NInt 4)) None 2 format_main (Some "brow_#_fol")
  = joinNumberedName (Some "brow_") (Some (NInt 4)) (Some "_fol") 2 format_main None.
Proof.
  apply (X5_single_hash_template "brow_" "_fol" (Some (NInt 4)) 2); reflexivity.
Defined.

End NameRoundTrips.

(** ** The grid as a whole *)

Section GridProduct.
Import Py Surface Grid.

Lemma norm_ok (i rows eb : Z) :
  (rows - eb <> 0)%Z ->
  norm i rows eb = Ok ((inject_Z i + inject_Z (1 - eb) / 2) / inject_Z (rows - eb))%Q.
Proof.
  intros H. unfold norm. apply py_div_nonzero.
  intros E. apply H. unfold Qeq in E. cbn in E. lia.
Qed.

Lemma filled_range (r0 r1 r2 r3 : option Q) :
  (if has_None [r0; r1; r2; r3] then fill_range [r0; r1; r2; r3] [0; 1; 2; 3]%nat
   else Ok [r0; r1; r2; r3])
  = Ok [Some (default 0%Q r0); Some (default 1%Q r1);
        Some (default 0%Q r2); Some (default 1%Q r3)].
Proof. destruct r0, r1, r2, r3; reflexivity. Qed.

(** One turn of the inner loop, once the row's parameter is known. *)
Lemma loop_v_cons (p : patch) (rows1 eb1 : Z) (l0 h0 l1 h1 u x : Q)
    (j : Z) (js : list Z) (nf sc : list unit_uv) :
  (rows1 - eb1 <> 0)%Z ->
  loop_v p rows1 eb1 [Some l0; Some h0; Some l1; Some h1] (j :: js)
    (LoopState [u; x] nf sc) =
  loop_v p rows1 eb1 [Some l0; Some h0; Some l1; Some h1] js
    (LoopState [u; row_param j rows1 eb1 l1 h1]
       (nf ++ [(u, row_param j rows1 eb1 l1 h1)])
       (sc ++ [(u, row_param j rows1 eb1 l1 h1)])).
Proof.
  intros H. cbn [loop_v]. rewrite (norm_ok j rows1 eb1 H).
  cbn [bind range_at index lookup list_lookup ls_uv ls_scene ls_newFols].
  change (<[1%nat := ?v]> [u; x]) with [u; v].
  rewrite new_pair. reflexivity.
Qed.

Lemma loop_v_product (p : patch) (rows1 eb1 : Z) (l0 h0 l1 h1 u : Q) (js : list Z) :
  (rows1 - eb1 <> 0)%Z ->
  forall (x : Q) (nf sc : list unit_uv),
  exists x',
    loop_v p rows1 eb1 [Some l0; Some h0; Some l1; Some h1] js
      (LoopState [u; x] nf sc) =
    (Ok tt,
     LoopState [u; x']
       (nf ++ map (fun j => (u, row_param j rows1 eb1 l1 h1)) js)
       (sc ++ map (fun j => (u, row_param j rows1 eb1 l1 h1)) js)).
Proof.
  intros H. induction js as [| j js IH]; intros x nf sc.
  - exists x. cbn [loop_v map]. now rewrite !app_nil_r.
  - rewrite (loop_v_cons p rows1 eb1 l0 h0 l1 h1 u x j js nf sc H).
    destruct (IH (row_param j rows1 eb1 l1 h1)
                 (nf ++ [(u, row_param j rows1 eb1 l1 h1)])
                 (sc ++ [(u, row_param j rows1 eb1 l1 h1)])) as [x' Hx].
    exists x'. rewrite Hx. cbn [map]. now rewrite <- !app_assoc.
Qed.

Lemma loop_u_cons (p : patch) (rows0 eb0 rows1 eb1 : Z) (l0 h0 l1 h1 x y : Q)
    (i : Z) (ixs : list Z) (nf sc : list unit_uv) :
  (rows0 - eb0 <> 0)%Z -> (rows1 - eb1 <> 0)%Z ->
  exists y',
    loop_u p rows0 eb0 rows1 eb1 [Some l0; Some h0; Some l1; Some h1] (i :: ixs)
      (LoopState [x; y] nf sc) =
    loop_u p rows0 eb0 rows1 eb1 [Some l0; Some h0; Some l1; Some h1] ixs
      (LoopState [row_param i rows0 eb0 l0 h0; y']
         (nf ++ u_row rows0 eb0 rows1 eb1 l0 h0 l1 h1 i)
         (sc ++ u_row rows0 eb0 rows1 eb1 l0 h0 l1 h1 i)).
Proof.
  intros H0 H1.
  destruct (loop_v_product p rows1 eb1 l0 h0 l1 h1 (row_param i rows0 eb0 l0 h0)
              (range rows1) H1 y nf sc) as [y' Hv].
  exists y'. cbn [loop_u]. rewrite (norm_ok i rows0 eb0 H0).
  cbn [bind range_at index lookup list_lookup ls_uv ls_scene ls_newFols].
  change (<[0%nat := ?v]> [x; y]) with [v; y].
  etransitivity;
    [exact (f_equal
              (fun r : result unit * loop_state =>
                 match r with
                 | (Raise e, st2) => (Raise e, st2)
                 | (Ok _, st2) =>
                     loop_u p rows0 eb0 rows1 eb1
                       [Some l0; Some h0; Some l1; Some h1] ixs st2
                 end) Hv) |].
  reflexivity.
Qed.

Lemma loop_u_product (p : patch) (rows0 eb0 rows1 eb1 : Z) (l0 h0 l1 h1 : Q)
    (ixs : list Z) :
  (rows0 - eb0 <> 0)%Z -> (rows1 - eb1 <> 0)%Z ->
  forall (x y : Q) (nf sc : list unit_uv),
  exists x' y',
    loop_u p rows0 eb0 rows1 eb1 [Some l0; Some h0; Some l1; Some h1] ixs
      (LoopState [x; y] nf sc) =
    (Ok tt,
     LoopState [x'; y']
       (nf ++ flat_map (u_row rows0 eb0 rows1 eb1 l0 h0 l1 h1) ixs)
       (sc ++ flat_map (u_row rows0 eb0 rows1 eb1 l0 h0 l1 h1) ixs)).
Proof.
  intros H0 H1. induction ixs as [| i ixs IH]; intros x y nf sc.
  - exists x, y. cbn [loop_u flat_map]. now rewrite !app_nil_r.
  - destruct (loop_u_cons p rows0 eb0 rows1 eb1 l0 h0 l1 h1 x y i ixs nf sc H0 H1)
      as [y1 Hc].
    rewrite Hc.
    destruct (IH (row_param i rows0 eb0 l0 h0) y1
                 (nf ++ u_row rows0 eb0 rows1 eb1 l0 h0 l1 h1 i)
                 (sc ++ u_row rows0 eb0 rows1 eb1 l0 h0 l1 h1 i)) as (x' & y' & Hx).
    exists x', y'. rewrite Hx. cbn [flat_map]. now rewrite <- !app_assoc.
Qed.

Lemma length_range (n : Z) : length (range n) = Z.to_nat n.
Proof. unfold range. now rewrite length_map, length_seq. Qed.

Lemma length_grid (rows0 eb0 rows1 eb1 : Z) (l0 h0 l1 h1 : Q) (ixs : list Z) :
  length (flat_map (u_row rows0 eb0 rows1 eb1 l0 h0 l1 h1) ixs)
  = (length ixs * Z.to_nat rows1)%nat.
Proof.
  induction ixs as [| i ixs IH]; [reflexivity |].
  cbn [flat_map length]. rewrite length_app, IH.
  unfold u_row. rewrite length_map, length_range. lia.
Qed.

(** X6: whenever neither axis has its row count equal to its edge
    flag, [newFollicleGrid] over a patch that was found succeeds and
    creates exactly the product of the u rows and the v rows, the v
    rows running fastest, each unit at the parameters of its own two
    rows (a missing bound of the range read as 0 or 1): the list [uv]
    the loops share carries nothing over from one unit to the next.
    The units are appended to the scene in that order and there are
    rows-in-u times rows-in-v of them. *)
Theorem X6_grid_is_product (p : patch) (rows0 eb0 rows1 eb1 : Z)
    (r0 r1 r2 r3 : option Q) (scene : list unit_uv) :
  (rows0 - eb0 <> 0)%Z -> (rows1 - eb1 <> 0)%Z ->
  let pts := grid_points rows0 eb0 rows1 eb1
               (default 0%Q r0) (default 1%Q r1) (default 0%Q r2) (default 1%Q r3) in
  newFollicleGrid (Ok p) [rows0; rows1] [eb0; eb1] [r0; r1; r2; r3] scene
  = (Ok pts, scene ++ pts) /\
  length pts = (Z.to_nat rows0 * Z.to_nat rows1)%nat.
Proof.
  intros H0 H1 pts. split.
  - unfold newFollicleGrid.
    assert (Hc : check_rows [rows0; rows1] [eb0; eb1] [0; 1]%nat = Ok tt).
    { cbn. apply Z.eqb_neq in H0, H1. now rewrite H0, H1. }
    rewrite Hc. cbn [bind]. rewrite filled_range.
    cbn [bind index lookup list_lookup].
    destruct (loop_u_product p rows0 eb0 rows1 eb1
                (default 0%Q r0) (default 1%Q r1) (default 0%Q r2) (default 1%Q r3)
                (range rows0) H0 H1 0%Q 0%Q [] scene) as (x' & y' & Hl).
    etransitivity;
      [exact (f_equal
                (fun r : result unit * loop_state =>
                   match r with
                   | (Raise e, st) => (Raise e, ls_scene st)
                   | (Ok _, st) => (Ok (ls_newFols st), ls_scene st)
                   end) Hl) |].
    reflexivity.
  - subst pts. unfold grid_points. now rewrite length_grid, length_range.
Qed.

Lemma X6_grid_is_product_witness :
  newFollicleGrid (Ok Mesh) [3; 2]%Z [1; 0]%Z [None; Some (1 # 2); None; None] []
  = (Ok (grid_points 3 1 2 0 0 (1 # 2) 0 1), [] ++ grid_points 3 1 2 0 0 (1 # 2) 0 1) /\
  length (grid_points 3 1 2 0 0 (1 # 2) 0 1) = (Z.to_nat 3 * Z.to_nat 2)%nat.
Proof.
  apply (X6_grid_is_product Mesh 3 1 2 0 None (Some (1 # 2)) None None []);
    discriminate.
Defined.

End GridProduct.

(** ** What copying to the mirror never touches *)

Section MirrorFrame.
Import Py Scene Host FollicleJoint.

Lemma writes_free_only_refl (w : world) : writes_free_only w w.
Proof. split; [reflexivity | intros a; now left]. Qed.

Lemma writes_free_only_trans (w1 w2 w3 : world) :
  writes_free_only w1 w2 -> writes_free_only w2 w3 -> writes_free_only w1 w3.
Proof.
  intros [C1 A1] [C2 A2]. split; [congruence |]. intros a.
  destruct (A1 a) as [E1 | (c & c' & H1 & F1 & H1' & F1')],
           (A2 a) as [E2 | (d & d' & H2 & F2 & H2' & F2')].
  - left. congruence.
  - right. exists d, d'. repeat split; congruence.
  - right. exists c, c'. repeat split; congruence.
  - right. exists c, d'. repeat split; congruence.
Qed.

Lemma keeps_reads {A} (m : M A) : reads m -> keeps m.
Proof. intros H w. rewrite (H w). apply writes_free_only_refl. Qed.

Lemma keeps_mbind {A B} (m : M A) (k : A -> M B) :
  keeps m -> (forall a, keeps (k a)) -> keeps (mbind m k).
Proof.
  intros Hm Hk w. unfold mbind. specialize (Hm w).
  destruct (m w) as [[a | e] w1]; cbn [snd] in *; [| exact Hm].
  exact (writes_free_only_trans _ _ _ Hm (Hk a w1)).
Qed.

Lemma keeps_setAttr (a : attr) (v : Q) : keeps (setAttr a v).
Proof.
  intros w. unfold setAttr.
  destruct (w_attrs w !! a) as [c |] eqn:E; [| apply writes_free_only_refl].
  destruct (c_free c) eqn:F; [| apply writes_free_only_refl].
  split; [reflexivity |]. intros b. cbn [snd w_attrs].
  destruct (decide (a = b)) as [<- | Hne].
  - right. exists c, (Cell v true). rewrite lookup_insert_eq. now repeat split.
  - left. now rewrite lookup_insert_ne.
Qed.

Lemma reads_isFreeToChange (a : attr) : reads (isFreeToChange a).
Proof. intros w. unfold isFreeToChange. now destruct (w_attrs w !! a). Qed.

Lemma reads_getAttr (a : attr) : reads (getAttr a).
Proof. intros w. unfold getAttr. now destruct (w_attrs w !! a). Qed.

Lemma keeps_apply_entry (ax : nat) (e : entry) : keeps (apply_entry ax e).
Proof.
  unfold apply_entry.
  apply keeps_mbind; [apply keeps_reads, reads_isFreeToChange | intros [|]].
  - apply keeps_mbind; [apply keeps_reads, reads_getAttr | intros v].
    apply keeps_setAttr.
  - apply keeps_reads, reads_ret.
Qed.

Lemma keeps_apply_entries (ax : nat) (es : list entry) : keeps (apply_entries ax es).
Proof.
  induction es as [| e es IH]; cbn [apply_entries].
  - apply keeps_reads, reads_ret.
  - apply keeps_mbind; [apply keeps_apply_entry | intros _; exact IH].
Qed.

End MirrorFrame.

(** ** Sides and mirrored names *)

Section MirrorNames.
Import Py FollicleJoint.

Lemma prefix_two (a x c : ascii) (s : string) :
  String.prefix (two a x) (String c s) = true <->
  c = a /\ exists s', s = String x s'.
Proof.
  unfold two. split.
  - cbn [String.prefix].
    destruct (ascii_dec a c) as [<- | N]; [| intros H; discriminate H].
    destruct s as [| d s]; cbn [String.prefix]; [intros H; discriminate H |].
    destruct (ascii_dec x d) as [<- | N]; [| intros H; discriminate H].
    intros _. split; [reflexivity | now exists s].
  - intros [-> (s' & ->)]. cbn [String.prefix].
    destruct (ascii_dec a a) as [_ | N]; [| congruence].
    destruct (ascii_dec x x) as [_ | N]; [| congruence]. now destruct s'.
Qed.

Lemma replace_hit (a b x : ascii) (s : string) :
  replace_from (two a x) (two b x) (String a (String x s)) 0
  = String b (String x (replace_from (two a x) (two b x) s 0)).
Proof.
  assert (H : String.prefix (two a x) (String a (String x s)) = true).
  { apply prefix_two. split; [reflexivity | now exists s]. }
  cbn [replace_from]. rewrite H. reflexivity.
Qed.

Lemma replace_miss (a b x c : ascii) (s : string) :
  String.prefix (two a x) (String c s) = false ->
  replace_from (two a x) (two b x) (String c s) 0
  = String c (replace_from (two a x) (two b x) s 0).
Proof. intros H. cbn [replace_from]. now rewrite H. Qed.

(** Where the replaced text starts with the shared second character,
    the text did. *)
Lemma replace_head (a b x : ascii) (s s' : string) :
  b <> x ->
  replace_from (two a x) (two b x) s 0 = String x s' ->
  exists s'', s = String x s''.
Proof.
  intros Hbx H. destruct s as [| c s0]; [discriminate H |].
  destruct (String.prefix (two a x) (String c s0)) eqn:E.
  - apply prefix_two in E as [-> (s1 & ->)]. rewrite replace_hit in H.
    injection H as Hb _. congruence.
  - rewrite (replace_miss a b x c s0 E) in H. injection H as -> _. now exists s0.
Qed.

Lemma contains_cons (sub : string) (c : ascii) (s : string) :
  contains sub (String c s) = false ->
  String.prefix sub (String c s) = false /\ contains sub s = false.
Proof. cbn [contains]. intros H. now apply orb_false_iff in H. Qed.

(** Replacing one prefix by the other and back gives the text again
    when the text did not hold the other prefix. *)
Lemma replace_back (a b x : ascii) :
  a <> b -> b <> x ->
  forall (n : nat) (s : string),
    (String.length s <= n)%nat -> contains (two b x) s = false ->
    replace_from (two b x) (two a x) (replace_from (two a x) (two b x) s 0) 0 = s.
Proof.
  intros Hab Hbx. induction n as [| n IH]; intros s Hlen Hc.
  - destruct s; [reflexivity | cbn in Hlen; lia].
  - destruct s as [| c s0]; [reflexivity |].
    cbn [String.length] in Hlen.
    apply contains_cons in Hc as [Hp Hc0].
    destruct (String.prefix (two a x) (String c s0)) eqn:E.
    + apply prefix_two in E as [-> (s1 & ->)].
      rewrite replace_hit, replace_hit.
      apply contains_cons in Hc0 as [_ Hc1].
      cbn [String.length] in Hlen.
      rewrite (IH s1) by (lia || exact Hc1). reflexivity.
    + rewrite (replace_miss a b x c s0 E).
      assert (Hq : String.prefix (two b x)
                     (String c (replace_from (two a x) (two b x) s0 0)) = false).
      { destruct (String.prefix (two b x)
                    (String c (replace_from (two a x) (two b x) s0 0))) eqn:Eq;
          [| reflexivity].
        apply prefix_two in Eq as [-> (s1 & Hs1)].
        destruct (replace_head a b x s0 s1 Hbx Hs1) as [s2 ->].
        assert (Ht : String.prefix (two b x) (String b (String x s2)) = true).
        { apply prefix_two. split; [reflexivity | now exists s2]. }
        congruence. }
      rewrite (replace_miss b a x c _ Hq).
      rewrite (IH s0) by (lia || exact Hc0). reflexivity.
Qed.

(** The side of a named unit under the class's prefixes. *)
Lemma side_default (self : t) (n : string) :
  nameObj self = Ok (Some n) -> n <> "" ->
  side sidePrefix_default self
  = Ok (Some (if String.prefix "L_" n then "l"
              else if String.prefix "R_" n then "r" else "m")).
Proof.
  intros Hn Hne. unfold side, name. rewrite Hn. cbn [bind default].
  unfold id. rewrite (truthy_true n Hne). cbn [bind]. rewrite (truthy_true n Hne).
  unfold sidePrefix_default, _sideChars. cbn [side_scan].
  destruct (String.prefix "L_" n); [reflexivity |].
  destruct (String.prefix "R_" n); [reflexivity |].
  destruct (String.prefix "M_" n); reflexivity.
Qed.

End MirrorNames.

Section MirrorNameTheorem.
Import Py FollicleJoint.

Lemma prefix_nonempty (p n : string) :
  p <> "" -> String.prefix p n = true -> n <> "".
Proof.
  intros Hp H ->. destruct p; [congruence | discriminate H].
Qed.

(** The mirrored name of a unit on the left. *)
Lemma justName_left (self : t) (n : string) (strict : bool) :
  nameObj self = Ok (Some n) -> String.prefix "L_" n = true ->
  side sidePrefix_default self = Ok (Some "l") /\
  getMirrorObject_justName sidePrefix_default self strict
  = Ok (Some (replace_from "L_" "R_" n 0)).
Proof.
  intros Hn Hp.
  assert (Hne : n <> "") by (apply (prefix_nonempty "L_"); [discriminate | exact Hp]).
  pose proof (side_default self n Hn Hne) as Hs. rewrite Hp in Hs.
  split; [exact Hs |].
  unfold getMirrorObject_justName. rewrite Hs, Hn. reflexivity.
Qed.

(** The mirrored name of a unit on the right. *)
Lemma justName_right (self : t) (n : string) (strict : bool) :
  nameObj self = Ok (Some n) ->
  String.prefix "L_" n = false -> String.prefix "R_" n = true ->
  side sidePrefix_default self = Ok (Some "r") /\
  getMirrorObject_justName sidePrefix_default self strict
  = Ok (Some (replace_from "R_" "L_" n 0)).
Proof.
  intros Hn Hl Hp.
  assert (Hne : n <> "") by (apply (prefix_nonempty "R_"); [discriminate | exact Hp]).
  pose proof (side_default self n Hn Hne) as Hs. rewrite Hl, Hp in Hs.
  split; [exact Hs |].
  unfold getMirrorObject_justName. rewrite Hs, Hn. reflexivity.
Qed.

Lemma prefix_two_hit (a x : ascii) (s : string) :
  String.prefix (two a x) (String a (String x s)) = true.
Proof. apply prefix_two. split; [reflexivity | now exists s]. Qed.

Lemma prefix_two_miss (a x c : ascii) (s : string) :
  c <> a -> String.prefix (two a x) (String c s) = false.
Proof.
  intros N. destruct (String.prefix (two a x) (String c s)) eqn:E; [| reflexivity].
  apply prefix_two in E as [-> _]. congruence.
Qed.

Lemma isSide_of_side (self : t) (s : string) :
  side sidePrefix_default self = Ok (Some s) -> s = "l" \/ s = "r" ->
  isSide sidePrefix_default self = Ok true.
Proof.
  intros Hs H. unfold isSide. rewrite Hs. now destruct H as [-> | ->].
Qed.

(** X9: a unit whose name starts with the left or the right prefix has
    a mirrored name, whatever [strict] is. Any unit of that name is on
    a side, the opposite one, and, when the first name holds the other
    prefix nowhere, its own mirrored name is the first name again. *)
Theorem X9_mirror_name (self : t) (n : string) (strict : bool) :
  nameObj self = Ok (Some n) ->
  String.prefix "L_" n = true \/ String.prefix "R_" n = true ->
  exists m,
    getMirrorObject_justName sidePrefix_default self strict = Ok (Some m) /\
    forall (self' : t) (strict' : bool),
      nameObj self' = Ok (Some m) ->
      isSide sidePrefix_default self' = Ok true /\
      side sidePrefix_default self' <> side sidePrefix_default self /\
      (contains (if String.prefix "L_" n then "R_" else "L_") n = false ->
       getMirrorObject_justName sidePrefix_default self' strict' = Ok (Some n)).
Proof.
  intros Hn Hside.
  destruct (String.prefix "L_" n) eqn:Hl.
  - destruct (justName_left self n strict Hn Hl) as [Hs Hm].
    exists (replace_from "L_" "R_" n 0). split; [exact Hm |].
    intros self' strict' Hn'.
    change "L_" with (two "L" "_") in Hl, Hn' |- *.
    change "R_" with (two "R" "_") in Hn' |- *.
    destruct n as [| c n0]; [discriminate Hl |].
    apply prefix_two in Hl as [-> (n1 & ->)].
    rewrite replace_hit in Hn'.
    destruct (justName_right self' _ strict' Hn'
                (prefix_two_miss "L" "_" "R" _ ltac:(discriminate))
                (prefix_two_hit "R" "_" _)) as [Hs' Hm'].
    split; [exact (isSide_of_side self' "r" Hs' (or_intror eq_refl)) |].
    split; [rewrite Hs', Hs; discriminate |].
    intros Hc. rewrite Hm'. do 2 f_equal.
    rewrite <- replace_hit.
    exact (replace_back "L" "R" "_" ltac:(discriminate) ltac:(discriminate)
             _ _ (le_n _) Hc).
  - destruct Hside as [Hside | Hr]; [discriminate Hside |].
    destruct (justName_right self n strict Hn Hl Hr) as [Hs Hm].
    exists (replace_from "R_" "L_" n 0). split; [exact Hm |].
    intros self' strict' Hn'.
    change "L_" with (two "L" "_") in Hn' |- *.
    change "R_" with (two "R" "_") in Hr, Hn' |- *.
    destruct n as [| c n0]; [discriminate Hr |].
    apply prefix_two in Hr as [-> (n1 & ->)].
    rewrite replace_hit in Hn'.
    destruct (justName_left self' _ strict' Hn' (prefix_two_hit "L" "_" _))
      as [Hs' Hm'].
    split; [exact (isSide_of_side self' "l" Hs' (or_introl eq_refl)) |].
    split; [rewrite Hs', Hs; discriminate |].
    intros Hc. rewrite Hm'. do 2 f_equal.
    rewrite <- replace_hit.
    exact (replace_back "R" "L" "_" ltac:(discriminate) ltac:(discriminate)
             _ _ (le_n _) Hc).
Qed.

Lemma X9_mirror_name_witness :
  exists m,
    getMirrorObject_justName sidePrefix_default Sample.left true = Ok (Some m) /\
    forall (self' : t) (strict' : bool),
      nameObj self' = Ok (Some m) ->
      isSide sidePrefix_default self' = Ok true /\
      side sidePrefix_default self' <> side sidePrefix_default Sample.left /\
      (contains (if String.prefix "L_" "L_brow" then "R_" else "L_") "L_brow" = false ->
       getMirrorObject_justName sidePrefix_default self' strict' = Ok (Some "L_brow")).
Proof.
  apply (X9_mirror_name Sample.left "L_brow" true).
  - reflexivity.
  - left. reflexivity.
Defined.

End MirrorNameTheorem.

(** ** Freezing twice *)

Section Inversion.
Import Py Scene Host.

Lemma mbind_ok_inv {A B} (m : M A) (k : A -> M B) (w w' : world) (b : B) :
  mbind m k w = (Ok b, w') ->
  exists a w0, m w = (Ok a, w0) /\ k a w0 = (Ok b, w').
Proof.
  unfold mbind. destruct (m w) as [[a | e] w0]; [| discriminate].
  intros H. now exists a, w0.
Qed.

Lemma attributeQuery_lookup (w : world) (n a : string) :
  attributeQuery w n a = true -> exists cl, w_attrs w !! (n, a) = Some cl.
Proof.
  unfold attributeQuery. intros H. apply bool_decide_eq_true_1 in H.
  destruct H as [cl H]. now exists cl.
Qed.

Lemma attr_of_ok_inv (n : option string) (a : string) (w w' : world) (x : attr) :
  attr_of n a w = (Ok x, w') ->
  exists s cl, n = Some s /\ x = (s, a) /\ w' = w /\ w_attrs w !! (s, a) = Some cl.
Proof.
  unfold attr_of, attributeQuery. destruct n as [s |]; [| discriminate].
  destruct (bool_decide (is_Some (w_attrs w !! (s, a)))) eqn:E; [| discriminate].
  apply bool_decide_eq_true_1 in E as [cl E].
  intros H. injection H as <- <-. now exists s, cl.
Qed.

Lemma getAttr_ok_inv (a : attr) (w w' : world) (v : Q) :
  getAttr a w = (Ok v, w') ->
  exists cl, w_attrs w !! a = Some cl /\ v = c_value cl /\ w' = w.
Proof.
  unfold getAttr. destruct (w_attrs w !! a) as [cl |]; [| discriminate].
  intros H. injection H as <- <-. now exists cl.
Qed.

Lemma setAttr_ok_inv (a : attr) (v : Q) (w w' : world) (u : unit) :
  setAttr a v w = (Ok u, w') ->
  exists cl, w_attrs w !! a = Some cl /\ c_free cl = true /\
             w' = World (<[a := Cell v true]> (w_attrs w)) (w_conns w).
Proof.
  unfold setAttr. destruct (w_attrs w !! a) as [cl |]; [| discriminate].
  destruct (c_free cl) eqn:F; [| discriminate].
  intros H. injection H as <-. now exists cl.
Qed.

Lemma try_ok_inv {A B} (body : M A) (catches : exc_class -> bool)
    (handler : exn -> M B) (orelse : A -> M B) (w w' : world) (b : B) :
  try_except_else body catches handler orelse w = (Ok b, w') ->
  (exists a w0, body w = (Ok a, w0) /\ orelse a w0 = (Ok b, w')) \/
  (exists e w0, body w = (Raise e, w0) /\ catches (exn_class e) = true /\
                handler e w0 = (Ok b, w')).
Proof.
  unfold try_except_else. destruct (body w) as [[a | e] w0].
  - intros H. left. now exists a, w0.
  - destruct (catches (exn_class e)) eqn:E; [| discriminate].
    intros H. right. now exists e, w0.
Qed.

End Inversion.

Section FreezeTwice.
Import Py Scene Host FollicleJoint.

(** What a [freeze] that returns [True] has found and done. *)
Lemma freeze_true_inv (self : t) (w w1 : world) :
  freeze self w = (Ok (VBool true), w1) ->
  exists (c f : string) (cpu cou cov fpu fpv : cell),
    controlObj self = Ok (Some c) /\ fol self = Some f /\ c <> f /\
    w_attrs w !! (c, "pu") = Some cpu /\
    w_attrs w !! (c, "ou") = Some cou /\
    w_attrs w !! (c, "ov") = Some cov /\
    w_attrs w !! (f, "pu") = Some fpu /\
    w_attrs w !! (f, "pv") = Some fpv /\
    w1 = World (<[(c, "pv") := Cell (c_value fpv) true]>
                (<[(c, "pu") := Cell (c_value fpu) true]>
                 (<[(c, "ov") := Cell 0 true]>
                  (<[(c, "ou") := Cell 0 true]> (w_attrs w)))))
               (w_conns w).
Proof.
  intros H. unfold freeze in H.
  apply mbind_ok_inv in H as (ctrl & w0 & H0 & H).
  unfold lift in H0. injection H0 as Hc <-.
  apply mbind_ok_inv in H as (hasPu & w0 & Hh & H).
  destruct hasPu; [| discriminate H].
  destruct (bool_decide (ctrl <> fol self)) eqn:Hne; [| discriminate Hh].
  apply bool_decide_eq_true_1 in Hne.
  destruct ctrl as [c |]; [| discriminate Hh].
  injection Hh as Qpu <-.
  destruct (attributeQuery_lookup _ _ _ Qpu) as [cpu Hpu].
  apply mbind_ok_inv in H as (ou & w0 & Hou & H).
  apply attr_of_ok_inv in Hou as (c' & cou & Ec & -> & -> & Hou).
  injection Ec as <-.
  apply mbind_ok_inv in H as (ouVal & w0 & Hv & H).
  apply getAttr_ok_inv in Hv as (cou' & Hou' & -> & ->).
  apply mbind_ok_inv in H as (nonzero & w0 & Hnz & H).
  assert (E0 : w0 = w).
  { destruct (negb (Qeq_bool (c_value cou') 0)); [now injection Hnz |].
    apply mbind_ok_inv in Hnz as (ov & w2 & Hov & Hnz).
    apply attr_of_ok_inv in Hov as (? & ? & _ & -> & -> & _).
    apply mbind_ok_inv in Hnz as (ovVal & w3 & Hv & Hnz).
    apply getAttr_ok_inv in Hv as (? & _ & _ & ->).
    now injection Hnz. }
  subst w0. clear Hnz.
  destruct nonzero; [| discriminate H].
  apply mbind_ok_inv in H as (fpu' & w0 & Hfpu & H).
  apply attr_of_ok_inv in Hfpu as (f & fpu & Hf & -> & -> & Hfpu).
  apply mbind_ok_inv in H as (endU & w0 & Hv & H).
  apply getAttr_ok_inv in Hv as (fpu2 & Hfpu2 & -> & ->).
  apply mbind_ok_inv in H as (fpv' & w0 & Hfpv & H).
  apply attr_of_ok_inv in Hfpv as (f' & fpv & Hf' & -> & -> & Hfpv).
  apply mbind_ok_inv in H as (endV & w0 & Hv & H).
  apply getAttr_ok_inv in Hv as (fpv2 & Hfpv2 & -> & ->).
  assert (f' = f) by congruence. subst f'.
  pose proof (eq_trans (eq_sym Hfpu2) Hfpu) as E2. injection E2 as ->.
  pose proof (eq_trans (eq_sym Hfpv2) Hfpv) as E2. injection E2 as ->.
  apply try_ok_inv in H as [(a & w0 & Hb & H) | (e & w0 & _ & _ & H)];
    [| discriminate H].
  apply mbind_ok_inv in Hb as (ou & w2 & Hat & Hb).
  apply attr_of_ok_inv in Hat as (? & ? & E & -> & -> & _). injection E as <-.
  apply mbind_ok_inv in Hb as (u1 & w2 & Hs & Hb).
  apply setAttr_ok_inv in Hs as (? & _ & _ & ->).
  apply mbind_ok_inv in Hb as (ov & w2 & Hat & Hb).
  apply attr_of_ok_inv in Hat as (? & cov & E & -> & -> & Hov). injection E as <-.
  cbn [w_attrs] in Hov. rewrite lookup_insert_ne in Hov by (apply other_attr; discriminate).
  apply setAttr_ok_inv in Hb as (? & _ & _ & ->).
  cbn [w_attrs w_conns] in H.
  apply mbind_ok_inv in H as (pu & w2 & Hat & H).
  apply attr_of_ok_inv in Hat as (? & ? & E & -> & -> & _). injection E as <-.
  apply mbind_ok_inv in H as (u2 & w2 & Hs & H).
  apply setAttr_ok_inv in Hs as (? & _ & _ & ->).
  apply mbind_ok_inv in H as (pv & w2 & Hat & H).
  apply attr_of_ok_inv in Hat as (? & ? & E & -> & -> & _). injection E as <-.
  apply mbind_ok_inv in H as (u3 & w2 & Hs & H).
  apply setAttr_ok_inv in Hs as (? & _ & _ & ->).
  injection H as <-.
  cbn [w_attrs w_conns].
  exists c, f, cpu, cou, cov, fpu, fpv.
  repeat split; try assumption; congruence.
Qed.

(** After a [freeze] that returned [True] the unit is skipped. *)
Lemma freeze_true_again (self : t) (w w1 : world) :
  freeze self w = (Ok (VBool true), w1) ->
  freeze self w1 = (Ok VNone, w1).
Proof.
  intros H.
  destruct (freeze_true_inv self w w1 H)
    as (c & f & cpu & cou & cov & fpu & fpv & Hc & Hf & Hne & Hpu & Hou & Hov
        & Hfpu & Hfpv & ->).
  assert (Nf : forall a b : string, (f, a) <> (c, b)) by congruence.
  rewrite (freeze_head self c f _ (Cell (c_value fpu) true) (Cell 0 true) (Cell 0 true)
             fpu fpv Hc Hf Hne).
  - reflexivity.
  - cbn [w_attrs]. rewrite lookup_insert_ne by (apply other_attr; discriminate).
    apply lookup_insert_eq.
  - cbn [w_attrs]. rewrite !lookup_insert_ne by (apply other_attr; discriminate).
    apply lookup_insert_eq.
  - cbn [w_attrs]. rewrite !lookup_insert_ne by (apply other_attr; discriminate).
    apply lookup_insert_eq.
  - cbn [w_attrs]. rewrite !lookup_insert_ne by (apply not_eq_sym, Nf). exact Hfpu.
  - cbn [w_attrs]. rewrite !lookup_insert_ne by (apply not_eq_sym, Nf). exact Hfpv.
Qed.

(** X10: a [freeze] that has returned [True] leaves a scene on which
    the next [freeze] of the unit finds the offsets zero: it returns
    [None] and changes nothing. *)
Theorem X10_freeze_twice (self : t) (w w1 : world) :
  freeze self w = (Ok (VBool true), w1) ->
  freeze self w1 = (Ok VNone, w1).
Proof. exact (freeze_true_again self w w1). Qed.

Lemma X10_freeze_twice_witness :
  freeze Sample.left
    (World (<[("L_brow_J_", "pv") := Cell (5 # 8) true]>
            (<[("L_brow_J_", "pu") := Cell (9 # 20) true]>
             (<[("L_brow_J_", "ov") := Cell 0 true]>
              (<[("L_brow_J_", "ou") := Cell 0 true]>
                 (w_attrs (Sample.scene true))))))
           [])
  = (Ok VNone,
     (World (<[("L_brow_J_", "pv") := Cell (5 # 8) true]>
            (<[("L_brow_J_", "pu") := Cell (9 # 20) true]>
             (<[("L_brow_J_", "ov") := Cell 0 true]>
              (<[("L_brow_J_", "ou") := Cell 0 true]>
                 (w_attrs (Sample.scene true))))))
           [])).
Proof.
  apply (X10_freeze_twice Sample.left (Sample.scene true)).
  vm_compute. reflexivity.
Defined.

End FreezeTwice.

(** ** Transfer to a patch *)

Section Connections.
Import Py Scene Host.

Lemma attr_eqb_eq (a b : attr) : attr_eqb a b = true <-> a = b.
Proof.
  destruct a as [an aa], b as [bn ba]. unfold attr_eqb. cbn [fst snd].
  rewrite andb_true_iff, !String.eqb_eq. split.
  - intros [-> ->]. reflexivity.
  - intros E. now injection E.
Qed.

Lemma attr_eqb_refl (a : attr) : attr_eqb a a = true.
Proof. now apply attr_eqb_eq. Qed.

Lemma attr_eqb_ne (a b : attr) : a <> b -> attr_eqb a b = false.
Proof.
  intros N. destruct (attr_eqb a b) eqn:E; [| reflexivity].
  apply attr_eqb_eq in E. contradiction.
Qed.

Lemma filter_none {A} (f : A -> bool) (l : list A) :
  (forall x, In x l -> f x = false) -> List.filter f l = [].
Proof.
  induction l as [| x l IH]; intros H; [reflexivity |].
  cbn [List.filter]. rewrite (H x (or_introl eq_refl)).
  apply IH. intros y Hy. apply H. now right.
Qed.

(** After a forced connection into [dst], [dst] has one input. *)
Lemma inputs_connect_same (src dst : attr) (w : world) :
  inputs (snd (connectAttr_f src dst w)) dst = [fst src].
Proof.
  unfold inputs, connectAttr_f. cbn [snd w_conns].
  rewrite List.filter_app. cbn [List.filter snd]. rewrite attr_eqb_refl.
  rewrite filter_none; [reflexivity |].
  intros x Hx. apply List.filter_In in Hx as [_ Hx].
  now apply negb_true_iff in Hx.
Qed.

(** It leaves the inputs of every other attribute as they were. *)
Lemma inputs_connect_other (src dst dst' : attr) (w : world) :
  dst' <> dst ->
  inputs (snd (connectAttr_f src dst w)) dst' = inputs w dst'.
Proof.
  intros N. unfold inputs, connectAttr_f. cbn [snd w_conns].
  rewrite List.filter_app. cbn [List.filter snd].
  rewrite (attr_eqb_ne dst dst') by congruence.
  rewrite app_nil_r. f_equal.
  induction (w_conns w) as [| x l IH]; [reflexivity |].
  cbn [List.filter]. destruct (attr_eqb (snd x) dst) eqn:E; cbn [negb List.filter].
  - apply attr_eqb_eq in E. rewrite E, (attr_eqb_ne dst dst') by congruence.
    exact IH.
  - destruct (attr_eqb (snd x) dst'); [now rewrite IH | exact IH].
Qed.

End Connections.

Section TransferValues.
Import Py Scene Host FollicleJoint.

Lemma geometry_connect (p f : string) (nurb smooth : bool) :
  (if nurb then connectAttr_f (p, "local") (f, "inputSurface")
   else if smooth then connectAttr_f (p, "outSmoothMesh") (f, "inputMesh")
   else connectAttr_f (p, "outMesh") (f, "inputMesh"))
  = connectAttr_f (p, geometry_output nurb smooth) (f, geometry_input nurb).
Proof. now destruct nurb, smooth. Qed.

Lemma reconnected_inputs (p f : string) (nurb smooth : bool) (w : world) :
  inputs (reconnected p f nurb smooth w) (f, "inputWorldMatrix") = [p] /\
  inputs (reconnected p f nurb smooth w) (f, geometry_input nurb) = [p] /\
  w_attrs (reconnected p f nurb smooth w) = w_attrs w.
Proof.
  unfold reconnected. split; [| split].
  - rewrite inputs_connect_other by (destruct nurb; discriminate).
    apply inputs_connect_same.
  - apply inputs_connect_same.
  - reflexivity.
Qed.

Ltac look :=
  cbn [w_attrs w_conns];
  rewrite ?lookup_insert_ne by (apply other_attr; discriminate);
  eassumption.

(** X11: relocating by closest point with the uv supplied (at least
    two values), on a unit whose control node's base parameters are
    free to change: [transferToPatch] returns [True]; each base
    parameter becomes the supplied value minus the offset between the
    follicle's parameter and the base parameter as they were at the
    call; nothing else is written; and afterwards the follicle's world
    matrix input and its geometry input are each fed by the new patch
    alone. What [getClosestUVs] would yield is not used. *)
Theorem X11_transfer_with_uv (self : t) (p : string) (k : Surface.patch)
    (u v : Q) (rest : list Q) (useSmoothedMesh : bool)
    (closest : result (list (list Q))) (c f : string) (w : world)
    (cpu cpv fpu fpv : cell) :
  controlObj self = Ok (Some c) -> fol self = Some f ->
  w_attrs w !! (c, "pu") = Some cpu -> w_attrs w !! (c, "pv") = Some cpv ->
  w_attrs w !! (f, "pu") = Some fpu -> w_attrs w !! (f, "pv") = Some fpv ->
  c_free cpu = true -> c_free cpv = true ->
  exists w',
    transferToPatch self (Ok (p, k)) (Some (u :: v :: rest)) true useSmoothedMesh
      closest w = (Ok (VBool true), w') /\
    w_attrs w' = <[(c, "pv") := Cell (v - (c_value fpv - c_value cpv)) true]>
                  (<[(c, "pu") := Cell (u - (c_value fpu - c_value cpu)) true]>
                     (w_attrs w)) /\
    inputs w' (f, "inputWorldMatrix") = [p] /\
    inputs w' (f, geometry_input (is_nurbs k)) = [p].
Proof.
  intros Hc Hf Hcpu Hcpv Hfpu Hfpv Fpu Fpv.
  unfold transferToPatch.
  cbv [mbind lift ret disconnectFromPatch]. rewrite Hf, Hc.
  cbn [andb no_uv fst snd]. cbv beta iota.
  change (Surface.index (u :: v :: rest) 0) with (Ok u).
  change (Surface.index (u :: v :: rest) 1) with (Ok v).
  repeat (cbv beta iota; cbn [w_attrs w_conns];
          first [ erewrite attr_of_some by look
                | erewrite getAttr_some by look
                | erewrite setAttr_free by look ]).
  cbv beta iota. rewrite geometry_connect. cbn [w_attrs w_conns].
  fold (is_nurbs k).
  match goal with
  | |- context [connectAttr_f (p, "worldMatrix[0]") _ ?x] => set (w2 := x)
  end.
  exists (reconnected p f (is_nurbs k) useSmoothedMesh w2).
  destruct (reconnected_inputs p f (is_nurbs k) useSmoothedMesh w2) as (I1 & I2 & I3).
  split; [reflexivity |]. split; [exact I3 |]. split; [exact I1 | exact I2].
Qed.

Lemma X11_transfer_with_uv_witness :
  exists w',
    transferToPatch Sample.left (Ok ("browPatchShape", Surface.Mesh))
      (Some [3 # 4; 1 # 2]) true false (Ok []) (Sample.scene true)
    = (Ok (VBool true), w') /\
    w_attrs w' = <[("L_brow_J_", "pv") := Cell ((1 # 2) - ((5 # 8) - (1 # 2))) true]>
                  (<[("L_brow_J_", "pu") := Cell ((3 # 4) - ((9 # 20) - (1 # 5))) true]>
                     (w_attrs (Sample.scene true))) /\
    inputs w' ("L_browShape", "inputWorldMatrix") = ["browPatchShape"] /\
    inputs w' ("L_browShape", geometry_input (is_nurbs Surface.Mesh)) = ["browPatchShape"].
Proof.
  apply (X11_transfer_with_uv Sample.left "browPatchShape" Surface.Mesh (3 # 4) (1 # 2) []
           false (Ok []) "L_brow_J_" "L_browShape" (Sample.scene true)
           (Cell (1 # 5) true) (Cell (1 # 2) true)
           (Cell (9 # 20) false) (Cell (5 # 8) false)).
  - reflexivity.
  - reflexivity.
  - vm_compute; reflexivity.
  - vm_compute; reflexivity.
  - vm_compute; reflexivity.
  - vm_compute; reflexivity.
  - reflexivity.
  - reflexivity.
Defined.

End TransferValues.

Section TransferConnections.
Import Py Scene Host FollicleJoint.

Lemma reconnected_conns (p f : string) (nurb smooth : bool) (w : world)
    (cn : attr * attr) :
  In cn (w_conns (reconnected p f nurb smooth w)) ->
  In cn (w_conns w) \/
  cn = ((p, "worldMatrix[0]"), (f, "inputWorldMatrix")) \/
  cn = ((p, geometry_output nurb smooth), (f, geometry_input nurb)).
Proof.
  unfold reconnected, connectAttr_f. cbn [snd w_conns w_attrs].
  rewrite in_app_iff. intros [H | [<- | []]]; [| right; right; reflexivity].
  apply List.filter_In in H as [H _].
  apply in_app_iff in H as [H | [<- | []]]; [| right; left; reflexivity].
  apply List.filter_In in H as [H _]. now left.
Qed.

(** The part of [transferToPatch] between the disconnection and the
    reconnection writes base parameters only. *)
Lemma keeps_transfer_values (self : t) (closestPt : bool) (newUV : option (list Q)) :
  keeps
    (if closestPt then
       let! uvObj := lift (controlObj self) in
       let! fpu := attr_of (fol self) "pu" in
       let! a := getAttr fpu in
       let! cpu := attr_of uvObj "pu" in
       let! b := getAttr cpu in
       let ofsU := (a - b)%Q in
       let! fpv := attr_of (fol self) "pv" in
       let! a := getAttr fpv in
       let! cpv := attr_of uvObj "pv" in
       let! b := getAttr cpv in
       let ofsV := (a - b)%Q in
       let! l := match newUV with
                 | Some l => ret l
                 | None => raise (error TypeError "'NoneType' object has no attribute '__getitem__'")
                 end in
       let! u := lift (Surface.index l 0) in
       let! _ := setAttr cpu (u - ofsU)%Q in
       let! v := lift (Surface.index l 1) in
       setAttr cpv (v - ofsV)%Q
     else ret tt).
Proof.
  destruct closestPt; [| apply keeps_reads, reads_ret].
  repeat first
    [ apply keeps_setAttr
    | apply keeps_mbind; [| intros ?]
    | apply keeps_reads;
      first [ apply reads_lift | apply reads_attr_of | apply reads_getAttr
            | apply reads_ret | apply reads_raise ]
    | match goal with
      | |- keeps (match ?x with _ => _ end) => destruct x
      end ].
Qed.

Lemma reconnected_keeps (p f : string) (nurb smooth : bool) (w : world)
    (cn : attr * attr) :
  In cn (w_conns w) -> fst (snd cn) <> f ->
  In cn (w_conns (reconnected p f nurb smooth w)).
Proof.
  intros Hin Hne.
  assert (N : forall a : string, attr_eqb (snd cn) (f, a) = false).
  { intros a. unfold attr_eqb. cbn [fst snd].
    apply String.eqb_neq in Hne. now rewrite Hne. }
  unfold reconnected, connectAttr_f. cbn [snd w_conns w_attrs].
  apply in_or_app. left. apply List.filter_In. split; [| now rewrite N].
  apply in_or_app. left. apply List.filter_In. split; [exact Hin | now rewrite N].
Qed.

(** X12: whenever [transferToPatch] returns, whatever its arguments,
    the unit has a follicle whose world matrix input and geometry input
    are each fed by the new patch alone; every connection of the scene
    was there before or is one of the two just made; and every
    connection into a node other than the follicle is still there. *)
Theorem X12_transfer_connections (self : t) (p : string) (k : Surface.patch)
    (newUV : option (list Q)) (closestPt useSmoothedMesh : bool)
    (closest : result (list (list Q))) (w w' : world) (r : val) :
  transferToPatch self (Ok (p, k)) newUV closestPt useSmoothedMesh closest w
  = (Ok r, w') ->
  exists f,
    fol self = Some f /\
    inputs w' (f, "inputWorldMatrix") = [p] /\
    inputs w' (f, geometry_input (is_nurbs k)) = [p] /\
    (forall cn, In cn (w_conns w') ->
       In cn (w_conns w) \/
       cn = ((p, "worldMatrix[0]"), (f, "inputWorldMatrix")) \/
       cn = ((p, geometry_output (is_nurbs k) useSmoothedMesh),
             (f, geometry_input (is_nurbs k)))) /\
    (forall cn, In cn (w_conns w) -> fst (snd cn) <> f -> In cn (w_conns w')).
Proof.
  intros H. unfold transferToPatch in H.
  apply mbind_ok_inv in H as (pk & w0 & H0 & H).
  unfold lift in H0. injection H0 as <- <-. cbn [fst snd] in H.
  fold (is_nurbs k) in H.
  apply mbind_ok_inv in H as (nu & w0 & H0 & H).
  assert (w0 = w) as ->.
  { destruct (closestPt && no_uv newUV).
    - apply mbind_ok_inv in H0 as (? & ? & _ & H0). discriminate H0.
    - now injection H0. }
  clear H0.
  apply mbind_ok_inv in H as (old & w1 & Hd & H).
  unfold disconnectFromPatch in Hd.
  destruct (fol self) as [f |] eqn:Hf; [| discriminate Hd].
  injection Hd as <- <-.
  apply mbind_ok_inv in H as (u0 & w2 & Hv & H).
  pose proof (keeps_transfer_values self closestPt nu) as K.
  rewrite Hf in K.
  pose proof (f_equal snd Hv) as E. cbn [snd] in E.
  match type of Hv with _ ?x = _ => specialize (K x) end.
  assert (K2 : writes_free_only
                 (World (w_attrs w)
                    (List.filter
                       (fun c : attr * attr =>
                          negb (String.eqb (fst (snd c)) f &&
                                bool_decide (Some (fst (fst c)) = patch self w)))
                       (w_conns w))) w2)
    by (rewrite <- E; exact K).
  clear K E. destruct K2 as [Kc _].
  cbn [snd w_conns] in Kc.
  apply mbind_ok_inv in H as (f' & w3 & Hf' & H).
  injection Hf' as <- <-.
  rewrite geometry_connect in H.
  apply mbind_ok_inv in H as (u1 & w3 & H1 & H).
  apply mbind_ok_inv in H as (u2 & w4 & H2 & H).
  injection H as _ <-.
  assert (E : w4 = reconnected p f (is_nurbs k) useSmoothedMesh w2).
  { unfold reconnected. rewrite H1. cbn [snd]. now rewrite H2. }
  subst w4. clear H1 H2.
  destruct (reconnected_inputs p f (is_nurbs k) useSmoothedMesh w2) as (I1 & I2 & _).
  exists f. split; [reflexivity |]. split; [exact I1 |]. split; [exact I2 |].
  split.
  - intros cn Hin. apply reconnected_conns in Hin as [Hin | Hin]; [| now right].
    rewrite Kc in Hin. apply List.filter_In in Hin as [Hin _]. now left.
  - intros cn Hin Hne. apply reconnected_keeps; [| exact Hne].
    rewrite Kc. apply List.filter_In. split; [exact Hin |].
    apply String.eqb_neq in Hne. now rewrite Hne.
Qed.

Lemma X12_transfer_connections_witness :
  exists f,
    fol Sample.left = Some f /\
    inputs (World (w_attrs (Sample.scene true))
              [(("R_brow", "message"), ("set1", "dagSetMembers"));
               (("browPatchShape", "worldMatrix[0]"), ("L_browShape", "inputWorldMatrix"));
               (("browPatchShape", "outSmoothMesh"), ("L_browShape", "inputMesh"))])
      (f, "inputWorldMatrix") = ["browPatchShape"] /\
    In (("R_brow", "message"), ("set1", "dagSetMembers"))
       [(("R_brow", "message"), ("set1", "dagSetMembers"));
        (("browPatchShape", "worldMatrix[0]"), ("L_browShape", "inputWorldMatrix"));
        (("browPatchShape", "outSmoothMesh"), ("L_browShape", "inputMesh"))].
Proof.
  destruct (X12_transfer_connections Sample.left "browPatchShape" Surface.Mesh None
              false true (Ok [])
              (World (w_attrs (Sample.scene true))
                 [(("oldShape", "worldMatrix[0]"), ("L_browShape", "inputWorldMatrix"));
                  (("R_brow", "message"), ("set1", "dagSetMembers"));
                  (("oldShape", "local"), ("L_browShape", "inputSurface"))])
              (World (w_attrs (Sample.scene true))
                 [(("R_brow", "message"), ("set1", "dagSetMembers"));
                  (("browPatchShape", "worldMatrix[0]"), ("L_browShape", "inputWorldMatrix"));
                  (("browPatchShape", "outSmoothMesh"), ("L_browShape", "inputMesh"))])
              (VBool true))
    as (f & Hf & I1 & _ & _ & Hk).
  - vm_compute. reflexivity.
  - exists f. split; [exact Hf |]. split; [exact I1 |].
    cbn [w_conns] in Hk. apply Hk.
    + cbn [In]. right. left. reflexivity.
    + cbn [fst snd]. injection Hf as <-. discriminate.
Defined.

End TransferConnections.

(** ** Units without a mirror *)

Section MirrorMissing.
Import Py Scene Host FollicleJoint.

Variable sidePrefix : list string.
Variable discover : string -> option (result t).

(** [getMirrorObject] looks up the name [justName=True] returns. *)
Lemma getMirrorObject_by_name (self : t) (strict : bool) :
  getMirrorObject sidePrefix discover self strict =
  match getMirrorObject_justName sidePrefix self strict with
  | Ok (Some mn) =>
      match discover mn with
      | Some r => let* m := r in Ok (Some m)
      | None =>
          if strict
          then Raise (error StandardError "No Mirror object found by the name!")
          else Ok None
      end
  | Ok None => Ok None
  | Raise e => Raise e
  end.
Proof.
  unfold getMirrorObject, getMirrorObject_justName.
  destruct (side sidePrefix self) as [s | e]; [| reflexivity].
  cbn [bind].
  destruct (bool_decide (s = _sideChars !! 0%nat));
    [| destruct (bool_decide (s = _sideChars !! 1%nat));
       [| destruct strict; reflexivity]];
    (destruct (nameObj self) as [[n |] | e]; [| reflexivity | reflexivity];
     cbn [bind];
     destruct (Surface.index sidePrefix _) as [old | e]; [| reflexivity];
     cbn [bind];
     destruct (Surface.index sidePrefix _) as [new | e]; reflexivity).
Qed.


(** X14: what [copyValuesToMirror] does for a unit it cannot mirror.
    A unit that is not on a side (a middle unit, or one without a
    name) makes a strict call raise [StandardError] and a call that is
    not strict return [None]. A unit on a side whose mirrored name
    belongs to no object makes a strict call raise [StandardError];
    a call that is not strict does not return [None] there but raises
    [AttributeError]. In all four cases the scene is as it was. *)
Theorem X14_mirror_missing (self : t) (baseValues offsets : bool) (axis : string)
    (midVal : Q) (uvRange : Q * Q)
    (strict warnings opposingOffsets jntRadius uvDriverRatio drivenOffsetRatios : bool)
    (w : world) :
  let call := copyValuesToMirror sidePrefix discover self baseValues offsets axis
                midVal uvRange strict warnings opposingOffsets jntRadius
                uvDriverRatio drivenOffsetRatios w in
  (isSide sidePrefix self = Ok false ->
   if strict
   then exists e, call = (Raise e, w) /\ exn_class e = StandardError
   else call = (Ok None, w)) /\
  (forall mn,
     isSide sidePrefix self = Ok true ->
     getMirrorObject_justName sidePrefix self strict = Ok (Some mn) ->
     discover mn = None ->
     exists e, call = (Raise e, w) /\
               exn_class e = if strict then StandardError else AttributeError).
Proof.
  intros call. subst call. split.
  - intros Hs. unfold copyValuesToMirror.
    unfold mbind at 1. unfold lift at 1. rewrite Hs. cbn [negb].
    destruct strict; [| reflexivity].
    eexists. split; reflexivity.
  - intros mn Hs Hn Hd. unfold copyValuesToMirror.
    unfold mbind at 1. unfold lift at 1. rewrite Hs. cbn [negb].
    unfold mbind at 1. unfold lift at 1.
    rewrite getMirrorObject_by_name, Hn, Hd.
    destruct strict; eexists; split; reflexivity.
Qed.

End MirrorMissing.

Section MirrorMissingSample.
Import Py Scene Host FollicleJoint.

Lemma X14_mirror_missing_witness :
  (exists e,
     copyValuesToMirror sidePrefix_default (fun _ => None) (Sample.unit "M_brow")
       false true "u" (1 # 2) (0%Q, 1%Q) true true true false false false
       (Sample.scene true) = (Raise e, Sample.scene true) /\
     exn_class e = StandardError) /\
  (exists e,
     copyValuesToMirror sidePrefix_default (fun _ => None) Sample.left
       false true "u" (1 # 2) (0%Q, 1%Q) false true true false false false
       (Sample.scene true) = (Raise e, Sample.scene true) /\
     exn_class e = AttributeError).
Proof.
  split.
  - exact (proj1 (X14_mirror_missing sidePrefix_default (fun _ => None)
                    (Sample.unit "M_brow") false true "u" (1 # 2) (0%Q, 1%Q) true true
                    true false false false (Sample.scene true)) eq_refl).
  - exact (proj2 (X14_mirror_missing sidePrefix_default (fun _ => None)
                    Sample.left false true "u" (1 # 2) (0%Q, 1%Q) false true
                    true false false false (Sample.scene true))
             "R_brow" eq_refl eq_refl eq_refl).
Defined.

End MirrorMissingSample.

Section MirrorBatch.
Import Py Scene Host FollicleJoint Batch.

Variable discover : string -> option (result t).



End MirrorBatch.

Section MirrorBatchSample.
Import Py Scene Host FollicleJoint Batch.


End MirrorBatchSample.

(** ** Mirroring the base parameters *)

Section MirrorBase.
Import Py Scene Host FollicleJoint.

Variable sidePrefix : list string.
Variable discover : string -> option (result t).

Lemma apply_entry_ranged (ax : nat) (e : entry) (w : world) (d s : cell)
    (mid lo hi : Q) :
  w_attrs w !! toAttr e = Some d -> c_free d = true ->
  w_attrs w !! fromAttr e = Some s -> mid_range e = Some (mid, (lo, hi)) ->
  apply_entry ax e w =
  (Ok tt,
   World (<[toAttr e :=
              Cell (clamp lo hi (if (uvIndex e =? ax)%nat
                                 then (2 * mid - c_value s)%Q
                                 else c_value s)) true]> (w_attrs w))
         (w_conns w)).
Proof.
  intros Hd Fd Hs Hm.
  unfold apply_entry, mbind, isFreeToChange, getAttr, setAttr, ret, clamp.
  rewrite Hd, Fd, Hs, Hm. cbv beta iota. now rewrite Hd, Fd.
Qed.

Lemma base_entries_eval (self : t) (c mc : string) (mid : Q) (rng : Q * Q)
    (w : world) (cpu cpv mpu mpv : cell) :
  controlObj self = Ok (Some c) ->
  w_attrs w !! (c, "pu") = Some cpu -> w_attrs w !! (c, "pv") = Some cpv ->
  w_attrs w !! (mc, "pu") = Some mpu -> w_attrs w !! (mc, "pv") = Some mpv ->
  base_entries self (Some mc) mid rng w =
  (Ok [Entry (mc, "pu") (c, "pu") 0 (Some (mid, rng));
       Entry (mc, "pv") (c, "pv") 1 (Some (mid, rng))], w).
Proof.
  intros Hc Hpu Hpv Hmpu Hmpv.
  unfold base_entries, mbind, lift, ret. rewrite Hc.
  rewrite (attr_of_some _ _ _ _ Hmpu). cbv beta iota.
  rewrite (attr_of_some _ _ _ _ Hpu). cbv beta iota.
  rewrite (attr_of_some _ _ _ _ Hmpv). cbv beta iota.
  rewrite (attr_of_some _ _ _ _ Hpv). reflexivity.
Qed.

Lemma clamp_bounds (lo hi x : Q) :
  (lo <= hi)%Q -> (lo <= clamp lo hi x)%Q /\ (clamp lo hi x <= hi)%Q.
Proof.
  intros H. unfold clamp, py_min, py_max.
  destruct (Qle_bool lo x) eqn:E1.
  - apply Qle_bool_iff in E1.
    destruct (Qle_bool x hi) eqn:E2.
    + apply Qle_bool_iff in E2. now split.
    + split; [exact H | apply Qle_refl].
  - destruct (Qle_bool lo hi) eqn:E2.
    + split; [apply Qle_refl | exact H].
    + split; [exact H | apply Qle_refl].
Qed.

Lemma clamp_within (lo hi x : Q) :
  (lo <= x)%Q -> (x <= hi)%Q -> clamp lo hi x = x.
Proof.
  intros H1 H2. unfold clamp, py_min, py_max.
  apply Qle_bool_iff in H1, H2. now rewrite H1, H2.
Qed.

(** X16: copying the base parameters alone to a mirror unit whose base
    parameters are free to change returns the mirror unit and writes
    just these two: the parameter of the mirror axis reflected about
    [midVal] ([2*midVal - value]), the other one as it is, each
    brought into [uvRange]. Over a range whose bounds are in order the
    values written lie within it, and a value already within it is
    written unchanged. *)
Theorem X16_mirror_base_values (self m : t) (c mc : string) (w : world)
    (cpu cpv mpu mpv : cell) (axis : string) (midVal lo hi : Q)
    (strict warnings opposingOffsets : bool) :
  isSide sidePrefix self = Ok true ->
  getMirrorObject sidePrefix discover self strict = Ok (Some m) ->
  controlObj self = Ok (Some c) -> controlObj m = Ok (Some mc) ->
  w_attrs w !! (c, "pu") = Some cpu -> w_attrs w !! (c, "pv") = Some cpv ->
  w_attrs w !! (mc, "pu") = Some mpu -> w_attrs w !! (mc, "pv") = Some mpv ->
  c_free mpu = true -> c_free mpv = true ->
  let u := if String.eqb axis "v" then c_value cpu
           else (2 * midVal - c_value cpu)%Q in
  let v := if String.eqb axis "v" then (2 * midVal - c_value cpv)%Q
           else c_value cpv in
  copyValuesToMirror sidePrefix discover self true false axis midVal (lo, hi)
    strict warnings opposingOffsets false false false w =
  (Ok (Some m),
   World (<[(mc, "pv") := Cell (clamp lo hi v) true]>
          (<[(mc, "pu") := Cell (clamp lo hi u) true]> (w_attrs w)))
         (w_conns w)) /\
  ((lo <= hi)%Q ->
   ((lo <= clamp lo hi u)%Q /\ (clamp lo hi u <= hi)%Q) /\
   ((lo <= clamp lo hi v)%Q /\ (clamp lo hi v <= hi)%Q)) /\
  ((lo <= u)%Q -> (u <= hi)%Q -> clamp lo hi u = u) /\
  ((lo <= v)%Q -> (v <= hi)%Q -> clamp lo hi v = v).
Proof.
  intros Hs Hm Hc Hmc Hpu Hpv Hmpu Hmpv Fpu Fpv u v.
  split; [| split; [| split]].
  - rewrite (copy_with_mirror sidePrefix discover self m true false axis midVal
               (lo, hi) strict warnings opposingOffsets false false false w Hs Hm).
    assert (B : build_entries self m true false midVal (lo, hi) opposingOffsets
                  false false false w =
                (Ok [Entry (mc, "pu") (c, "pu") 0 (Some (midVal, (lo, hi)));
                     Entry (mc, "pv") (c, "pv") 1 (Some (midVal, (lo, hi)))], w)).
    { unfold build_entries.
      unfold mbind at 1. unfold lift at 1. rewrite Hmc.
      unfold mbind at 1.
      rewrite (base_entries_eval self c mc midVal (lo, hi) w cpu cpv mpu mpv
                 Hc Hpu Hpv Hmpu Hmpv).
      reflexivity. }
    rewrite B. cbn [fst apply_entries]. unfold mbind.
    erewrite apply_entry_ranged;
      [| cbn [toAttr]; exact Hmpu | exact Fpu | cbn [fromAttr]; exact Hpu
       | reflexivity].
    erewrite apply_entry_ranged;
      [| cbn [toAttr w_attrs];
         rewrite lookup_insert_ne by (apply other_attr; discriminate); exact Hmpv
       | exact Fpv
       | cbn [fromAttr w_attrs]
       | reflexivity].
    2: { destruct (decide ((mc, "pu") = (c, "pv"))) as [E | N];
           [injection E; discriminate |].
         rewrite lookup_insert_ne by exact N. exact Hpv. }
    cbn [ret toAttr uvIndex w_attrs w_conns]. subst u v.
    destruct (String.eqb axis "v"); reflexivity.
  - intros H. split; apply clamp_bounds; exact H.
  - apply clamp_within.
  - apply clamp_within.
Qed.

End MirrorBase.

Section MirrorBaseSample.
Import Py Scene Host FollicleJoint.

Lemma X16_mirror_base_values_witness :
  copyValuesToMirror Sample.sidePrefix Sample.discover Sample.left
    true false "u" (1 # 2) (0, 1)%Q true true true false false false
    (Sample.scene true) =
  (Ok (Some Sample.right),
   World (<[("R_brow_J_", "pv") := Cell (clamp 0 1 (1 # 2)) true]>
          (<[("R_brow_J_", "pu") := Cell (clamp 0 1 (2 * (1 # 2) - (1 # 5))) true]>
             (w_attrs (Sample.scene true))))
         []).
Proof.
  refine (proj1 (X16_mirror_base_values Sample.sidePrefix Sample.discover
                   Sample.left Sample.right "L_brow_J_" "R_brow_J_"
                   (Sample.scene true)
                   (Cell (1 # 5) true) (Cell (1 # 2) true)
                   (Cell (4 # 5) true) (Cell (1 # 2) true)
                   "u" (1 # 2) 0 1 true true true
                   _ _ _ _ _ _ _ _ _ _)).
  - vm_compute; reflexivity.
  - vm_compute; reflexivity.
  - reflexivity.
  - reflexivity.
  - vm_compute; reflexivity.
  - vm_compute; reflexivity.
  - vm_compute; reflexivity.
  - vm_compute; reflexivity.
  - reflexivity.
  - reflexivity.
Defined.

End MirrorBaseSample.


(** ** Freezing several units *)

Section FreezeBatch.
Import Py Scene Host FollicleJoint Batch.

Variable settle : world -> world.
Hypothesis settles : Live.evaluation settle.

Lemma settle_is_Some (w : world) (a : attr) :
  is_Some (w_attrs (settle w) !! a) <-> is_Some (w_attrs w !! a).
Proof.
  destruct settles as (_ & Kn & Kf & Kh).
  destruct (w_attrs w !! a) as [c |] eqn:E.
  - split; [intros _; now exists c |]. intros _.
    destruct (c_free c) eqn:F.
    + exists c. exact (Kf w a c E F).
    + destruct (Kh w a c E F) as (c' & H & _). now exists c'.
  - pose proof (Kn w a E) as N.
    split; intros [x Hx]; [| discriminate Hx].
    pose proof (eq_trans (eq_sym N) Hx) as D. discriminate D.
Qed.

Lemma same_attributes_refl (w : world) : same_attributes w w.
Proof. intros n a. reflexivity. Qed.

Lemma same_attributes_trans (w1 w2 w3 : world) :
  same_attributes w1 w2 -> same_attributes w2 w3 -> same_attributes w1 w3.
Proof. intros H1 H2 n a. now rewrite H2, H1. Qed.

Lemma offsets_kept_refl (w : world) : offsets_kept w w.
Proof. intros n a cl _ H F. exists cl. now repeat split. Qed.

Lemma offsets_kept_trans (w1 w2 w3 : world) :
  offsets_kept w1 w2 -> offsets_kept w2 w3 -> offsets_kept w1 w3.
Proof.
  intros H1 H2 n a cl Ha Hl F.
  destruct (H1 n a cl Ha Hl F) as (c2 & Hl2 & F2 & Z2).
  destruct (H2 n a c2 Ha Hl2 F2) as (c3 & Hl3 & F3 & Z3).
  exists c3. split; [exact Hl3 |]. split; [exact F3 | auto].
Qed.

(** A write to an attribute of the scene leaves the scene its
    attributes. *)
Lemma written_same (a : attr) (v : Q) (w : world) (cl : cell) :
  w_attrs w !! a = Some cl -> same_attributes w (Live.written settle a v w).
Proof.
  intros H n b. unfold attributeQuery. apply bool_decide_ext.
  unfold Live.written.
  etransitivity; [apply settle_is_Some |].
  cbn [w_attrs].
  destruct (decide (a = (n, b))) as [-> | N].
  - split; intros _; [now exists cl |].
    exists (Cell v true). apply lookup_insert_eq.
  - pose proof (lookup_insert_ne (w_attrs w) a (n, b) (Cell v true) N) as L.
    split; intros [x Hx]; exists x.
    + exact (eq_trans (eq_sym L) Hx).
    + exact (eq_trans L Hx).
Qed.

(** A write of zero, or a write to an attribute that is no offset,
    keeps the free offsets. *)
Lemma written_kept (a : attr) (v : Q) (w : world) :
  v == 0 \/ (snd a <> "ou" /\ snd a <> "ov") ->
  offsets_kept w (Live.written settle a v w).
Proof.
  intros Hv n b cl Hb Hl F.
  destruct (decide (a = (n, b))) as [-> | N].
  - exists (Cell v true). split; [apply (written_self settle settles) |].
    split; [reflexivity |]. intros _.
    destruct Hv as [Hv | [N1 N2]]; [exact Hv |].
    cbn [snd] in N1, N2. destruct Hb; contradiction.
  - exists cl. split; [now apply (written_free settle settles) |]. now split.
Qed.

Lemma live_setAttr_ok_inv (a : attr) (v : Q) (w w' : world) (u : unit) :
  Live.setAttr settle a v w = (Ok u, w') ->
  exists cl, w_attrs w !! a = Some cl /\ c_free cl = true /\
             w' = Live.written settle a v w.
Proof.
  unfold Live.setAttr. destruct (w_attrs w !! a) as [cl |]; [| discriminate].
  destruct (c_free cl) eqn:F; [| discriminate].
  intros H. injection H as <-. now exists cl.
Qed.

(** What a [freeze] that returns has returned and left: [True], in a
    scene with the attributes of the given one, its free offsets kept
    and the unit's own offsets zero and free; or [None] with the scene
    as it was, and then a unit whose offsets are free is skipped in
    every scene with these attributes that keeps the free offsets. *)
Lemma live_freeze_inv (self : t) (w w1 : world) (v : val) :
  Live.freeze settle self w = (Ok v, w1) ->
  (v = VBool true /\ same_attributes w w1 /\ offsets_kept w w1 /\
   Live.freeze settle self w1 = (Ok VNone, w1)) \/
  (v = VNone /\ w1 = w /\
   forall w', offsets_free w self -> same_attributes w w' -> offsets_kept w w' ->
              Live.freeze settle self w' = (Ok VNone, w')).
Proof.
  intros H. unfold Live.freeze in H.
  apply mbind_ok_inv in H as (ctrl & w0 & H0 & H).
  unfold lift in H0. injection H0 as Hc <-.
  apply mbind_ok_inv in H as (hasPu & w0 & Hh & H).
  destruct (bool_decide (ctrl <> fol self)) eqn:Hne.
  2: { injection Hh as <- <-. injection H as <- <-. right.
       split; [reflexivity |]. split; [reflexivity |].
       intros w' _ _ _. unfold Live.freeze. cbv [mbind lift ret]. rewrite Hc, Hne.
       reflexivity. }
  destruct ctrl as [c |]; [| discriminate Hh].
  injection Hh as Qpu <-.
  destruct hasPu.
  2: { injection H as <- <-. right.
       split; [reflexivity |]. split; [reflexivity |].
       intros w' _ Hq _. unfold Live.freeze. cbv [mbind lift ret]. rewrite Hc, Hne.
       cbv beta iota. rewrite Hq, Qpu. reflexivity. }
  (* what the skipped unit needs of a scene *)
  assert (Skip : forall w' : world,
             attributeQuery w' c "pu" = true ->
             (exists cl, w_attrs w' !! (c, "ou") = Some cl /\ c_value cl == 0) ->
             (exists cl, w_attrs w' !! (c, "ov") = Some cl /\ c_value cl == 0) ->
             Live.freeze settle self w' = (Ok VNone, w')).
  { intros w' Hq (cou2 & Hou2 & Zu2) (cov2 & Hov2 & Zv2).
    apply Qeq_bool_iff in Zu2, Zv2.
    unfold Live.freeze. cbv [mbind lift ret]. rewrite Hc, Hne.
    cbv beta iota. rewrite Hq.
    rewrite (attr_of_some _ _ _ _ Hou2). cbv beta iota.
    rewrite (getAttr_some _ _ _ Hou2). cbv beta iota. rewrite Zu2.
    cbv beta iota delta [negb].
    rewrite (attr_of_some _ _ _ _ Hov2). cbv beta iota.
    rewrite (getAttr_some _ _ _ Hov2). cbv beta iota. rewrite Zv2.
    reflexivity. }
  apply mbind_ok_inv in H as (ou & w0 & Hou & H).
  apply attr_of_ok_inv in Hou as (c' & cou & Ec & -> & -> & Hou).
  injection Ec as <-.
  apply mbind_ok_inv in H as (ouVal & w0 & Hv & H).
  apply getAttr_ok_inv in Hv as (cou' & Hou' & -> & ->).
  pose proof (eq_trans (eq_sym Hou') Hou) as E2. injection E2 as ->.
  apply mbind_ok_inv in H as (nonzero & w0 & Hnz & H).
  destruct nonzero.
  - left.
    assert (E0 : w0 = w).
    { destruct (negb (Qeq_bool (c_value cou) 0)); [now injection Hnz |].
      apply mbind_ok_inv in Hnz as (ov & w2 & Hov & Hnz).
      apply attr_of_ok_inv in Hov as (? & ? & _ & -> & -> & _).
      apply mbind_ok_inv in Hnz as (ovVal & w3 & Hv & Hnz).
      apply getAttr_ok_inv in Hv as (? & _ & _ & ->).
      now injection Hnz. }
    subst w0. clear Hnz.
    apply mbind_ok_inv in H as (fpu' & w0 & Hfpu & H).
    apply attr_of_ok_inv in Hfpu as (f & fpu & Hf & -> & -> & Hfpu).
    apply mbind_ok_inv in H as (endU & w0 & Hv & H).
    apply getAttr_ok_inv in Hv as (? & _ & _ & ->).
    apply mbind_ok_inv in H as (fpv' & w0 & Hfpv & H).
    apply attr_of_ok_inv in Hfpv as (f' & fpv & Hf' & -> & -> & Hfpv).
    apply mbind_ok_inv in H as (endV & w0 & Hv & H).
    apply getAttr_ok_inv in Hv as (? & _ & _ & ->).
    apply try_ok_inv in H as [(a & w0 & Hb & H) | (e & w0 & _ & _ & H)];
      [| discriminate H].
    apply mbind_ok_inv in Hb as (ou & wa & Hat & Hb).
    apply attr_of_ok_inv in Hat as (? & ? & E & -> & -> & _). injection E as <-.
    apply mbind_ok_inv in Hb as (u1 & wa & Hs & Hb).
    apply live_setAttr_ok_inv in Hs as (c1 & L1 & _ & ->).
    apply mbind_ok_inv in Hb as (ov & wb & Hat & Hb).
    apply attr_of_ok_inv in Hat as (? & ? & E & -> & -> & _). injection E as <-.
    apply live_setAttr_ok_inv in Hb as (c2 & L2 & _ & ->).
    apply mbind_ok_inv in H as (pu & wc & Hat & H).
    apply attr_of_ok_inv in Hat as (? & ? & E & -> & -> & _). injection E as <-.
    apply mbind_ok_inv in H as (u2 & wc & Hs & H).
    apply live_setAttr_ok_inv in Hs as (c3 & L3 & _ & ->).
    apply mbind_ok_inv in H as (pv & wd & Hat & H).
    apply attr_of_ok_inv in Hat as (? & ? & E & -> & -> & _). injection E as <-.
    apply mbind_ok_inv in H as (u3 & wd & Hs & H).
    apply live_setAttr_ok_inv in Hs as (c4 & L4 & _ & ->).
    injection H as <- <-.
    set (wa := Live.written settle (c, "ou") 0 w) in *.
    set (wb := Live.written settle (c, "ov") 0 wa) in *.
    set (wc := Live.written settle (c, "pu") endU wb) in *.
    set (wd := Live.written settle (c, "pv") endV wc).
    assert (S : same_attributes w wd).
    { apply (same_attributes_trans _ wa); [exact (written_same _ _ _ _ L1) |].
      apply (same_attributes_trans _ wb); [exact (written_same _ _ _ _ L2) |].
      apply (same_attributes_trans _ wc); [exact (written_same _ _ _ _ L3) |].
      exact (written_same _ _ _ _ L4). }
    assert (K : offsets_kept w wd).
    { apply (offsets_kept_trans _ wa);
        [apply written_kept; left; reflexivity |].
      apply (offsets_kept_trans _ wb);
        [apply written_kept; left; reflexivity |].
      apply (offsets_kept_trans _ wc);
        [apply written_kept; right; split; discriminate |].
      apply written_kept; right; split; discriminate. }
    split; [reflexivity |]. split; [exact S |]. split; [exact K |].
    apply Skip.
    + now rewrite S.
    + exists (Cell 0 true). split; [| reflexivity].
      subst wd wc wb.
      apply (written_free settle settles);
        [| reflexivity | apply other_attr; discriminate].
      apply (written_free settle settles);
        [| reflexivity | apply other_attr; discriminate].
      apply (written_free settle settles);
        [| reflexivity | apply other_attr; discriminate].
      apply (written_self settle settles).
    + exists (Cell 0 true). split; [| reflexivity].
      subst wd wc.
      apply (written_free settle settles);
        [| reflexivity | apply other_attr; discriminate].
      apply (written_free settle settles);
        [| reflexivity | apply other_attr; discriminate].
      apply (written_self settle settles).
  - right. injection H as <- <-.
    destruct (Qeq_bool (c_value cou) 0) eqn:Zu; cbn [negb] in Hnz;
      [| discriminate Hnz].
    apply mbind_ok_inv in Hnz as (ov & w2 & Hov & Hnz).
    apply attr_of_ok_inv in Hov as (c' & cov & Ec & -> & -> & Hov).
    injection Ec as <-.
    apply mbind_ok_inv in Hnz as (ovVal & w2 & Hv & Hnz).
    apply getAttr_ok_inv in Hv as (cov' & Hov' & -> & ->).
    pose proof (eq_trans (eq_sym Hov') Hov) as E2. injection E2 as ->.
    injection Hnz as Zv <-. apply negb_false_iff in Zv.
    apply Qeq_bool_iff in Zu, Zv.
    split; [reflexivity |]. split; [reflexivity |].
    intros w' Hfree Hq Hk.
    apply Skip.
    + now rewrite Hq.
    + destruct (Hk c "ou" cou (or_introl eq_refl) Hou
                  (Hfree c "ou" cou Hc (or_introl eq_refl) Hou))
        as (cl & Hl & _ & Z).
      exists cl. split; [exact Hl | exact (Z Zu)].
    + destruct (Hk c "ov" cov (or_intror eq_refl) Hov
                  (Hfree c "ov" cov Hc (or_intror eq_refl) Hov))
        as (cl & Hl & _ & Z).
      exists cl. split; [exact Hl | exact (Z Zv)].
Qed.

(** Units whose offsets are free keep them free. *)
Lemma offsets_free_kept (w w' : world) (u : t) :
  offsets_free w u -> same_attributes w w' -> offsets_kept w w' ->
  offsets_free w' u.
Proof.
  intros Hf Hs Hk c a cl' Hc Ha Hl'.
  assert (Q : attributeQuery w c a = true).
  { rewrite <- Hs. exact (attributeQuery_some _ _ _ _ Hl'). }
  destruct (attributeQuery_lookup _ _ _ Q) as [cl Hl].
  destruct (Hk c a cl Ha Hl (Hf c a cl Hc Ha Hl)) as (cl2 & Hl2 & F2 & _).
  pose proof (eq_trans (eq_sym Hl2) Hl') as E. injection E as <-. exact F2.
Qed.

Lemma freeze_each_after (l : list t) :
  forall (acc : list t) (w : world) (fr : list t) (w1 : world),
    (forall u, In u l -> offsets_free w u) ->
    freeze_each settle l acc w = (Ok fr, w1) ->
    same_attributes w w1 /\ offsets_kept w w1 /\
    (forall u, In u l -> Live.freeze settle u w1 = (Ok VNone, w1)) /\
    exists fr', fr = acc ++ fr' /\ sublist fr' l.
Proof.
  induction l as [| a l IH]; intros acc w fr w1 Hfree H.
  - injection H as <- <-.
    split; [apply same_attributes_refl |]. split; [apply offsets_kept_refl |].
    split; [intros u [] |]. exists []. split; [now rewrite app_nil_r | constructor].
  - cbn [freeze_each] in H.
    apply mbind_ok_inv in H as (r & w0 & Ha & H).
    assert (Step : same_attributes w w0 /\ offsets_kept w w0 /\
                   Live.freeze settle a w0 = (Ok VNone, w0)).
    { destruct (live_freeze_inv a w w0 r Ha) as [(_ & S & K & N) | (-> & -> & N)].
      - now repeat split.
      - split; [apply same_attributes_refl |]. split; [apply offsets_kept_refl |].
        exact Ha. }
    destruct Step as (S1 & K1 & N1).
    assert (Hfree0 : forall u, In u (a :: l) -> offsets_free w0 u).
    { intros u Hu. exact (offsets_free_kept w w0 u (Hfree u Hu) S1 K1). }
    destruct (IH _ _ _ _ (fun u Hu => Hfree0 u (or_intror Hu)) H)
      as (S2 & K2 & All & fr' & Efr & Sub).
    split; [exact (same_attributes_trans _ _ _ S1 S2) |].
    split; [exact (offsets_kept_trans _ _ _ K1 K2) |].
    split.
    + intros u [<- | Hu]; [| exact (All u Hu)].
      destruct (live_freeze_inv a w0 w0 VNone N1) as [(E & _) | (_ & _ & N)];
        [discriminate E |].
      exact (N w1 (Hfree0 a (or_introl eq_refl)) S2 K2).
    + destruct (UI.val_truthy r).
      * exists (a :: fr'). split; [now rewrite Efr, <- app_assoc |].
        now apply sublist_skip.
      * exists fr'. split; [exact Efr |]. now apply sublist_cons.
Qed.

Lemma freeze_each_skips (l : list t) (acc : list t) (w : world) :
  (forall u, In u l -> Live.freeze settle u w = (Ok VNone, w)) ->
  freeze_each settle l acc w = (Ok acc, w).
Proof.
  revert acc. induction l as [| a l IH]; intros acc H; [reflexivity |].
  cbn [freeze_each]. unfold mbind. rewrite (H a (or_introl eq_refl)).
  cbn [UI.val_truthy]. apply IH. intros u Hu. apply H. now right.
Qed.

(** X13: on a host that re-evaluates the scene after every write, for
    units whose offsets are free to change (not driven by another
    unit): when [freezeOffsets] returns, the units it returns are among
    the units given, in their order, and every unit given is settled:
    its [freeze] now returns [None], so [freezeOffsets] on the same
    units again returns the empty list and changes nothing. *)
Theorem X13_freeze_batch (folObjs frozenObjs : list t) (w w1 : world) :
  (forall u, In u folObjs -> offsets_free w u) ->
  freezeOffsets settle (Ok folObjs) w = (Ok frozenObjs, w1) ->
  sublist frozenObjs folObjs /\
  (forall u, In u folObjs -> Live.freeze settle u w1 = (Ok VNone, w1)) /\
  freezeOffsets settle (Ok folObjs) w1 = (Ok [], w1).
Proof.
  intros Hfree H. unfold freezeOffsets in H |- *.
  change (freeze_each settle folObjs [] w = (Ok frozenObjs, w1)) in H.
  destruct (freeze_each_after folObjs [] w frozenObjs w1 Hfree H)
    as (_ & _ & All & fr' & -> & Sub).
  split; [exact Sub |]. split; [exact All |].
  exact (freeze_each_skips folObjs [] w1 All).
Qed.

End FreezeBatch.

Section FreezeBatchSample.
Import Py Scene Host FollicleJoint Batch.

Lemma sample_offsets_free (n : string) (w : world) :
  (forall cl, w_attrs w !! ((n ++ "_J_")%string, "ou") = Some cl -> c_free cl = true) ->
  (forall cl, w_attrs w !! ((n ++ "_J_")%string, "ov") = Some cl -> c_free cl = true) ->
  offsets_free w (Sample.unit n).
Proof.
  intros Hu Hv c a cl Hc Ha Hl. injection Hc as <-.
  destruct Ha as [-> | ->]; [exact (Hu cl Hl) | exact (Hv cl Hl)].
Qed.

Lemma X13_freeze_batch_witness :
  let w1 := Live.written Sample.settle ("L_brow_J_", "pv") (5 # 8)
              (Live.written Sample.settle ("L_brow_J_", "pu") (9 # 20)
                 (Live.written Sample.settle ("L_brow_J_", "ov") 0
                    (Live.written Sample.settle ("L_brow_J_", "ou") 0
                       (Sample.scene true)))) in
  sublist [Sample.left] [Sample.left; Sample.right] /\
  freezeOffsets Sample.settle (Ok [Sample.left; Sample.right]) w1 = (Ok [], w1).
Proof.
  intros w1.
  destruct (X13_freeze_batch Sample.settle sample_settles
              [Sample.left; Sample.right] [Sample.left] (Sample.scene true) w1)
    as (S & _ & R).
  - intros u [<- | [<- | []]]; apply sample_offsets_free;
      intros cl H; vm_compute in H; injection H as <-; reflexivity.
  - vm_compute. reflexivity.
  - split; [exact S | exact R].
Defined.

End FreezeBatchSample.
